(** * Smart Kissan workflow agent: a shallow embedding and its properties

    The development follows [SmartKissanAgent] of
    [src/components/AgriMindChat.tsx] (the YAML-driven agent, third module of
    that file): the workflow loop [execute], the guard evaluator
    [evaluateCondition], the template interpolator [interpolateTemplate], the
    step handlers and the fallback table [getFallbackResult].

    Conventions.
    - A JavaScript string is the list of its UTF-16 code units ([list N]).
    - A JavaScript value is a [jsval]; objects list their own properties in
      enumeration order (inherited properties and [__proto__] are not
      modelled).  Finite numbers are rationals; every arithmetic operation
      of the source is followed by the engine's rounding [fl].
    - What the engine or the outside world supplies is a parameter: the
      Unicode case mapping, the printing and parsing of non-integral
      numbers and the rounding are fields of [Engine]; the random draws,
      the network and the clock are fields of [World].
    - Code that can throw returns a [res]; [this.workflowResults], the
      random generator and the network are threaded through a [State]. *)

From Stdlib Require Import QArith Qround Qabs Qpower Lqa.
From stdpp Require Import gmap list strings pretty.
From Equations Require Import Equations.

Local Open Scope N_scope.
Local Open Scope list_scope.

(** ** Strings *)

Abbreviation jsstring := (list N).

(** [lit "abc"]: the code units of an ASCII literal of the source. *)
Definition lit (s : string) : jsstring :=
  Ascii.N_of_ascii <$> String.list_ascii_of_string s.

Definition unit_eqb (a b : N) : bool := N.eqb a b.

(** [String.prototype.startsWith] and [String.prototype.includes]. *)
Fixpoint startsWith (s t : jsstring) {struct t} : bool :=
  match t, s with
  | [], _ => true
  | b :: t', a :: s' => unit_eqb a b && startsWith s' t'
  | _ :: _, [] => false
  end.

Fixpoint includes (s t : jsstring) : bool :=
  startsWith s t ||
  match s with
  | [] => false
  | _ :: s' => includes s' t
  end.

(** White space of ECMAScript ([WhiteSpace] and [LineTerminator]): the set
    used by [String.prototype.trim] and by the class [\s]. *)
Definition isSpace (c : N) : bool :=
  ((9 <=? c) && (c <=? 13)) || (c =? 32) || (c =? 160) || (c =? 5760)
  || ((8192 <=? c) && (c <=? 8202)) || (c =? 8232) || (c =? 8233)
  || (c =? 8239) || (c =? 8287) || (c =? 12288) || (c =? 65279).

(** The class [\w]: [A-Za-z0-9_]. *)
Definition isWord (c : N) : bool :=
  ((48 <=? c) && (c <=? 57)) || ((65 <=? c) && (c <=? 90)) || (c =? 95)
  || ((97 <=? c) && (c <=? 122)).

Fixpoint dropWhile (p : N → bool) (s : jsstring) : jsstring :=
  match s with
  | [] => []
  | c :: s' => if p c then dropWhile p s' else s
  end.

Fixpoint takeWhile (p : N → bool) (s : jsstring) : jsstring :=
  match s with
  | [] => []
  | c :: s' => if p c then c :: takeWhile p s' else []
  end.

(** [String.prototype.trim]. *)
Definition trim (s : jsstring) : jsstring :=
  reverse (dropWhile isSpace (reverse (dropWhile isSpace s))).

(** [s.split(sep)] for a one-unit separator: never empty, so the result is
    its first piece and the list of the others. *)
Fixpoint splitOn (sep : N) (s : jsstring) : jsstring * list jsstring :=
  match s with
  | [] => ([], [])
  | c :: s' =>
      let '(h, t) := splitOn sep s' in
      if unit_eqb c sep then ([], h :: t) else (c :: h, t)
  end.

(** ** Regular expressions

    The two regular expressions of the source are sequences of single
    character tests and of greedy one-or-more repetitions of a character
    class, some of which are captured.  [matchAt] is the backtracking
    matcher anchored at the start of its input; [search] finds the leftmost
    match as [RegExp.prototype.exec] does. *)

Inductive atom :=
| One (p : N → bool)             (* one code unit of the class *)
| Many1 (cap : bool) (p : N → bool). (* class+, captured when [cap] *)

(** A greedy repetition backtracks: the continuation [k] is tried after
    the longest run first ([n] units), then after shorter ones, down to
    one unit. *)
Fixpoint tryRuns (k : jsstring → option (list jsstring * jsstring))
    (cap : bool) (s : jsstring) (n : nat)
  : option (list jsstring * jsstring) :=
  match n with
  | O => None
  | S n' =>
      match k (drop n s) with
      | Some (caps, rest) =>
          Some (if cap then take n s :: caps else caps, rest)
      | None => tryRuns k cap s n'
      end
  end.

(** Result: the captures in order, and the input left after the match. *)
Fixpoint matchAt (pat : list atom) (s : jsstring)
  : option (list jsstring * jsstring) :=
  match pat with
  | [] => Some ([], s)
  | One p :: pat' =>
      match s with
      | c :: s' => if p c then matchAt pat' s' else None
      | [] => None
      end
  | Many1 cap p :: pat' =>
      tryRuns (matchAt pat') cap s (length (takeWhile p s))
  end.

Record found := {
  before : jsstring;          (* input before the match *)
  matched : jsstring;         (* the matched text *)
  groups : list jsstring;     (* the captures *)
  after : jsstring            (* input after the match *)
}.

Fixpoint search (pat : list atom) (s : jsstring) : option found :=
  match matchAt pat s with
  | Some (caps, rest) =>
      Some {| before := []; matched := take (length s - length rest) s;
              groups := caps; after := rest |}
  | None =>
      match s with
      | [] => None
      | c :: s' =>
          match search pat s' with
          | Some f =>
              Some {| before := c :: before f; matched := matched f;
                      groups := groups f; after := after f |}
          | None => None
          end
      end
  end.

(** [s.replace(/pat/g, f)] with a replacer function: every match, leftmost
    first and without overlap, is replaced by [f matched groups]; an empty
    match advances by one unit.  Each round consumes at least one unit, so
    [S (length s)] rounds are enough ([replaceFuel_enough]). *)
Fixpoint replaceFuel (fuel : nat) (pat : list atom)
    (f : jsstring → list jsstring → jsstring) (s : jsstring) : jsstring :=
  match fuel with
  | O => s
  | S fuel' =>
      match search pat s with
      | None => s
      | Some m =>
          before m ++ f (matched m) (groups m) ++
          match matched m, after m with
          | [], [] => []
          | [], c :: r => c :: replaceFuel fuel' pat f r
          | _ :: _, r => replaceFuel fuel' pat f r
          end
      end
  end.

Definition replaceAll (pat : list atom)
    (f : jsstring → list jsstring → jsstring) (s : jsstring) : jsstring :=
  replaceFuel (S (length s)) pat f s.

(** A letter of a pattern under the [i] flag: the letter in either case
    ([c] is the lower-case ASCII letter). *)
Definition letter_i (c : N) : N → bool :=
  λ x, (x =? c) || (x =? c - 32).

Definition exactly (c : N) : N → bool := λ x, x =? c.
Definition except (c : N) : N → bool := λ x, negb (x =? c).

(** [/(\w+)\s+contains\s+'([^']+)'/i] *)
Definition containsRegex : list atom :=
  [Many1 true isWord; Many1 false isSpace]
  ++ (One ∘ letter_i <$> lit "contains")
  ++ [Many1 false isSpace; One (exactly 39); Many1 true (except 39); One (exactly 39)].

(** [/\{\{([^}]+)\}\}/g] *)
Definition placeholderRegex : list atom :=
  [One (exactly 123); One (exactly 123); Many1 true (except 125);
   One (exactly 125); One (exactly 125)].

(** ** Values *)

#[warning="-register-all"]
Inductive jsval :=
| VUndef
| VNull
| VBool (b : bool)
| VNum (q : Q)
| VStr (s : jsstring)
| VArr (elems : list jsval)
| VObj (props : list (jsstring * jsval)).

(** What the JavaScript engine supplies and this development does not
    define. *)
Class Engine := {
  (** [String.prototype.toLowerCase] (the Unicode case mapping) *)
  toLowerCase : jsstring → jsstring;
  (** [Number::toString] of a number that is not a small integer *)
  fracToString : Q → jsstring;
  (** [StringToNumber]; [None] is [NaN] *)
  parseNumber : jsstring → option Q;
  (** the rounding of an exact result to a representable number *)
  fl : Q → Q;
}.

(** Thrown values: every exception of this code is an [Error] (or a
    [TypeError] raised by the engine, whose text is the engine's). *)
Inductive exn := Error (msg : jsstring).

Definition message (e : exn) : jsstring := let 'Error m := e in m.

Definition TypeError (msg : string) : exn := Error (lit msg).

(** A computation that returns or throws. *)
Inductive res (A : Type) :=
| Ok (a : A)
| Throw (e : exn).
Arguments Ok {A} a.
Arguments Throw {A} e.

#[global] Instance res_ret : MRet res := λ A a, Ok a.
#[global] Instance res_bind : MBind res := λ A B f m,
  match m with
  | Ok a => f a
  | Throw e => Throw e
  end.
#[global] Instance res_fmap : FMap res := λ A B f m,
  match m with
  | Ok a => Ok (f a)
  | Throw e => Throw e
  end.

Section values.
Context `{Engine}.

Definition nullish (v : jsval) : bool :=
  match v with
  | VUndef | VNull => true
  | _ => false
  end.

(** [v === 'literal'] *)
Definition isStr (v : jsval) (s : jsstring) : bool :=
  match v with
  | VStr t => bool_decide (t = s)
  | _ => false
  end.

(** [typeof v === 'string'] *)
Definition typeofString (v : jsval) : bool :=
  match v with
  | VStr _ => true
  | _ => false
  end.

Definition VInt (z : Z) : jsval := VNum (inject_Z z).

Definition Qltb (x y : Q) : bool := negb (Qle_bool y x).

(** [ToBoolean] *)
Definition truthy (v : jsval) : bool :=
  match v with
  | VUndef | VNull => false
  | VBool b => b
  | VNum q => negb (Qeq_bool q 0)
  | VStr s => negb (bool_decide (s = []))
  | VArr _ | VObj _ => true
  end.

(** [a || b] *)
Definition orElse (a b : jsval) : jsval := if truthy a then a else b.

Fixpoint assoc {A} (k : jsstring) (ps : list (jsstring * A)) : option A :=
  match ps with
  | [] => None
  | (k', v) :: ps' => if decide (k = k') then Some v else assoc k ps'
  end.

Definition isDigit (c : N) : bool := (48 <=? c) && (c <=? 57).

(** A canonical array index: decimal, without a leading zero. *)
Definition parseIndex (k : jsstring) : option nat :=
  match k with
  | [] => None
  | [48] => Some O
  | 48 :: _ => None
  | _ =>
      if forallb isDigit k
      then Some (N.to_nat (fold_left (λ acc c, 10 * acc + (c - 48)) k 0))
      else None
  end.

(** The own property [k] of a value that is neither [null] nor
    [undefined]. *)
Definition ownProp (v : jsval) (k : jsstring) : jsval :=
  match v with
  | VObj ps => default VUndef (assoc k ps)
  | VArr l =>
      if decide (k = lit "length") then VInt (Z.of_nat (length l))
      else match parseIndex k with
           | Some i => default VUndef (l !! i)
           | None => VUndef
           end
  | VStr s =>
      if decide (k = lit "length") then VInt (Z.of_nat (length s))
      else match parseIndex k with
           | Some i => from_option (λ c, VStr [c]) VUndef (s !! i)
           | None => VUndef
           end
  | _ => VUndef
  end.

(** [v.k] and [v[k]]: reading a property of [null] or [undefined]
    throws. *)
Definition getProp (v : jsval) (k : jsstring) : res jsval :=
  if nullish v then Throw (TypeError "Cannot read properties of undefined")
  else Ok (ownProp v k).

(** [v?.k] and [v?.[k]] *)
Definition getOpt (v : jsval) (k : jsstring) : jsval :=
  if nullish v then VUndef else ownProp v k.

Fixpoint joinWith (sep : jsstring) (l : list jsstring) : jsstring :=
  match l with
  | [] => []
  | [s] => s
  | s :: l' => s ++ sep ++ joinWith sep l'
  end.

(** [Number::toString]: integers below 10^21 print in decimal. *)
Definition Number_toString (q : Q) : jsstring :=
  let r := Qred q in
  if (Qden r =? 1)%positive && (Z.abs (Qnum r) <? 10 ^ 21)%Z
  then lit (pretty (Qnum r))
  else fracToString q.

(** [ToString], as applied by template literals and by property keys. *)
Fixpoint toStr (v : jsval) : jsstring :=
  match v with
  | VUndef => lit "undefined"
  | VNull => lit "null"
  | VBool b => if b then lit "true" else lit "false"
  | VNum q => Number_toString q
  | VStr s => s
  | VArr l =>
      joinWith (lit ",")
        ((fix each (l : list jsval) : list jsstring :=
            match l with
            | [] => []
            | e :: l' => (if nullish e then [] else toStr e) :: each l'
            end) l)
  | VObj _ => lit "[object Object]"
  end.

(** [ToNumber]; [None] is [NaN]. *)
Definition toNumber (v : jsval) : option Q :=
  match v with
  | VUndef => None
  | VNull => Some 0%Q
  | VBool b => Some (if b then 1%Q else 0%Q)
  | VNum q => Some q
  | VStr s => parseNumber s
  | VArr _ | VObj _ => parseNumber (toStr v)
  end.

(** [v > c] and [v < c] for a number [c]: false on [NaN]. *)
Definition gtNum (v : jsval) (c : Q) : bool :=
  from_option (λ q, Qltb c q) false (toNumber v).
Definition ltNum (v : jsval) (c : Q) : bool :=
  from_option (λ q, Qltb q c) false (toNumber v).

(** [Math.floor] and [Math.round] (halves go up). *)
Definition Math_floor (x : Q) : Q := inject_Z (Qfloor x).
Definition Math_round (x : Q) : Q := inject_Z (Qfloor (x + (1 # 2))%Q).

(** Arithmetic of the source: the exact result, rounded. *)
Definition fadd (a b : Q) : Q := fl (a + b)%Q.
Definition fsub (a b : Q) : Q := fl (a - b)%Q.
Definition fmul (a b : Q) : Q := fl (a * b)%Q.
Definition fdiv (a b : Q) : Q := fl (a / b)%Q.

(** *** JSON.stringify *)

Definition hexDigit (d : N) : N := if d <? 10 then 48 + d else 87 + d.

Definition hex4 (c : N) : jsstring :=
  [hexDigit (c / 4096 mod 16); hexDigit (c / 256 mod 16);
   hexDigit (c / 16 mod 16); hexDigit (c mod 16)].

Definition isLead (c : N) : bool := (55296 <=? c) && (c <=? 56319).
Definition isTrail (c : N) : bool := (56320 <=? c) && (c <=? 57343).

(** The body of [QuoteJSONString]. *)
Fixpoint escape (s : jsstring) : jsstring :=
  match s with
  | [] => []
  | c :: s' =>
      if c =? 8 then lit "\b" ++ escape s'
      else if c =? 9 then lit "\t" ++ escape s'
      else if c =? 10 then lit "\n" ++ escape s'
      else if c =? 12 then lit "\f" ++ escape s'
      else if c =? 13 then lit "\r" ++ escape s'
      else if c =? 34 then [92; 34] ++ escape s'
      else if c =? 92 then [92; 92] ++ escape s'
      else if c <? 32 then lit "\u" ++ hex4 c ++ escape s'
      else if isLead c then
        match s' with
        | d :: s'' =>
            if isTrail d then c :: d :: escape s''
            else lit "\u" ++ hex4 c ++ escape s'
        | [] => lit "\u" ++ hex4 c
        end
      else if isTrail c then lit "\u" ++ hex4 c ++ escape s'
      else c :: escape s'
  end.

Definition quote (s : jsstring) : jsstring := [34] ++ escape s ++ [34].

(** [JSON.stringify v]; [None] is [undefined]. *)
Fixpoint JSON_stringify (v : jsval) : option jsstring :=
  match v with
  | VUndef => None
  | VNull => Some (lit "null")
  | VBool b => Some (if b then lit "true" else lit "false")
  | VNum q => Some (Number_toString q)
  | VStr s => Some (quote s)
  | VArr l =>
      Some (lit "[" ++
            joinWith (lit ",")
              ((fix each (l : list jsval) : list jsstring :=
                  match l with
                  | [] => []
                  | e :: l' =>
                      default (lit "null") (JSON_stringify e) :: each l'
                  end) l)
            ++ lit "]")
  | VObj ps =>
      Some (lit "{" ++
            joinWith (lit ",")
              ((fix each (ps : list (jsstring * jsval)) : list jsstring :=
                  match ps with
                  | [] => []
                  | (k, x) :: ps' =>
                      match JSON_stringify x with
                      | Some t => (quote k ++ lit ":" ++ t) :: each ps'
                      | None => each ps'
                      end
                  end) ps)
            ++ lit "}")
  end.
End values.

(** ** The world and the agent's state *)

(** How a [fetch] of the weather provider ends. *)
Inductive FetchOutcome :=
| Rejected                       (* transport error: the promise rejects *)
| Responded (ok : bool) (body : option jsval).
    (* a response with its [ok] flag; [body] is what [response.json()]
       resolves to, [None] when it rejects *)

Record World := {
  (** the n-th value returned by [Math.random()] *)
  random : nat → Q;
  (** the outcome of the n-th request, given the step's [url] and [params];
      a request that cannot be built ends as [Rejected] *)
  network : nat → jsval → jsval → FetchOutcome;
  (** [new Date().toISOString().split('T')[0]] *)
  todayISO : jsstring;
  (** whether local time is ahead of UTC *)
  eastOfUTC : bool;
}.

(** [workflowResults] is the field of the agent; [drawn] and [requested]
    count the random draws and the requests made so far. *)
Record State := {
  workflowResults : gmap jsstring jsval;
  drawn : nat;
  requested : nat;
}.

Definition setResults (bag : gmap jsstring jsval) (st : State) : State :=
  {| workflowResults := bag; drawn := drawn st; requested := requested st |}.

(** [this.workflowResults[k]] *)
Definition bagGet (bag : gmap jsstring jsval) (k : jsstring) : jsval :=
  default VUndef (bag !! k).

(** [this.workflowResults[k] = v] *)
Definition bagSet (k : jsstring) (v : jsval) (st : State) : State :=
  setResults (<[k := v]> (workflowResults st)) st.

Section agent.
Context `{Engine}.

(** ** evaluateCondition (source lines 1025-1047)

    A guard that is not a string has no usable [includes] or [match]:
    the call throws inside the [try] (or, for an array, [includes]
    answers and [match] throws), and the [catch] answers [true]. *)
Definition evaluateCondition (bag : gmap jsstring jsval)
    (condition : jsval) : bool :=
  match condition with
  | VStr c =>
      if includes c (lit "contains") then
        match search containsRegex c with
        | Some m =>
            match groups m with
            | [variable; searchTerm] =>
                match bagGet bag variable with
                | VStr value =>
                    includes (toLowerCase value) (toLowerCase searchTerm)
                | _ => true
                end
            | _ => true
            end
        | None => true
        end
      else true
  | _ => true
  end.

(** ** interpolateTemplate (source lines 1334-1345) *)

(** The loop [for (const key of keys) value = value?.[key]], started at
    the result bag. *)
Definition resolvePath (bag : gmap jsstring jsval)
    (keys : jsstring * list jsstring) : jsval :=
  fold_left getOpt (snd keys) (bagGet bag (fst keys)).

(** The replacer: [typeof value === 'string' ? value :
    JSON.stringify(value) || match]. *)
Definition renderPlaceholder (bag : gmap jsstring jsval)
    (matched : jsstring) (caps : list jsstring) : jsstring :=
  match caps with
  | [path] =>
      let keys := splitOn 46 (trim path) in
      match resolvePath bag keys with
      | VStr s => s
      | value =>
          match JSON_stringify value with
          | Some (c :: t) => c :: t
          | _ => matched
          end
      end
  | _ => matched
  end.

Definition interpolateTemplate (bag : gmap jsstring jsval)
    (template : jsstring) : jsstring :=
  replaceAll placeholderRegex (renderPlaceholder bag) template.
End agent.

Section handlers.
Context `{Engine}.

(** [v.toLowerCase()]: only a string has the method. *)
Definition callToLowerCase (v : jsval) : res jsstring :=
  match v with
  | VStr s => Ok (toLowerCase s)
  | VUndef | VNull => Throw (TypeError "Cannot read properties of undefined")
  | _ => Throw (TypeError "toLowerCase is not a function")
  end.

(** [v.toString()] of a value that is neither [null] nor [undefined]; an
    object with a property of that name has no callable [toString]. *)
Definition callToString (v : jsval) : res jsstring :=
  match v with
  | VUndef | VNull => Throw (TypeError "Cannot read properties of undefined")
  | VObj ps =>
      match assoc (lit "toString") ps with
      | Some _ => Throw (TypeError "toString is not a function")
      | None => Ok (toStr v)
      end
  | _ => Ok (toStr v)
  end.

(** [typeof v === 'string' ? v.toLowerCase() : v] *)
Definition lowerIfString (v : jsval) : jsval :=
  match v with
  | VStr s => VStr (toLowerCase s)
  | _ => v
  end.

(** Code units of the Urdu keywords of the source. *)
Definition kw_mausam : jsstring := [1605; 1608; 1587; 1605].
Definition kw_paani : jsstring := [1662; 1575; 1606; 1740].
Definition kw_beemari : jsstring := [1576; 1740; 1605; 1575; 1585; 1740].
Definition kw_patta : jsstring := [1662; 1578; 1575].
Definition kw_khad : jsstring := [1705; 1726; 1575; 1583].
Definition kw_mitti : jsstring := [1605; 1657; 1740].

Definition includesAny (s : jsstring) (kws : list jsstring) : bool :=
  existsb (includes s) kws.

(** ** simulateQueryRefiner (source lines 1105-1134) *)
Definition simulateQueryRefiner (bag : gmap jsstring jsval) : res jsval :=
  let fq := getOpt (bagGet bag (lit "inputs")) (lit "farmer_query") in
  lowered ← (if nullish fq then Ok VUndef
             else VStr <$> callToLowerCase fq);
  let farmerQuery :=
    match orElse lowered (VStr []) with VStr s => s | _ => [] end in
  Ok (VStr (
    if includesAny farmerQuery
         [lit "barsat"; lit "rain"; lit "weather"; kw_mausam]
    then lit "weather forecast and precipitation analysis needed"
    else if includesAny farmerQuery
         [lit "paani"; lit "water"; kw_paani; lit "irrigation"]
    then lit "resource allocation for water irrigation required"
    else if includesAny farmerQuery
         [lit "disease"; kw_beemari; lit "leaf"; kw_patta]
    then lit "disease detection and crop health analysis needed"
    else if includesAny farmerQuery [lit "fertilizer"; lit "khad"; kw_khad]
    then lit "resource allocation for fertilizer application required"
    else if includesAny farmerQuery [lit "soil"; lit "mitti"; kw_mitti]
    then lit "soil analysis and moisture monitoring needed"
    else lit "general agricultural advice and resource guidance needed")).

(** ** simulateDiseaseDetection (source lines 1136-1156) *)
Definition report (c e t : string) : jsval :=
  VObj [(lit "condition", VStr (lit c)); (lit "explanation", VStr (lit e));
        (lit "treatment", VStr (lit t))].

Definition diseases : list jsval :=
  [report "Early Blight"
     "Your crop shows signs of early blight disease with dark spots on leaves"
     "Apply copper-based fungicide every 7 days and remove affected leaves";
   report "Leaf Rust"
     "Orange-brown spots indicate leaf rust affecting your crop"
     "Use sulfur-based spray and improve air circulation around plants";
   report "Healthy"
     "Your crop leaves look healthy with good green color"
     "Continue current care practices and monitor regularly"].

(** [arr[i]] for a number [i] *)
Definition atNumber (arr : list jsval) (i : Q) : jsval :=
  if (Qden (Qred i) =? 1)%positive && (0 <=? Qnum (Qred i))%Z
  then default VUndef (arr !! Z.to_nat (Qnum (Qred i)))
  else VUndef.

Definition simulateDiseaseDetection (r : Q) : jsval :=
  atNumber diseases
    (Math_floor (fmul r (inject_Z (Z.of_nat (length diseases))))).

(** ** simulateAllocationAgent (source lines 1158-1188) *)

(** [soil[soil.length - 1]] for a truthy [soil] *)
Definition lastOf (soil : jsval) : jsval :=
  ownProp soil
    match toNumber (ownProp soil (lit "length")) with
    | Some n => Number_toString (fsub n 1)
    | None => lit "NaN"
    end.

(** [soil && soil.length > 0] *)
Definition hasSamples (soil : jsval) : bool :=
  truthy soil && gtNum (ownProp soil (lit "length")) 0.

Definition simulateAllocationAgent (bag : gmap jsstring jsval)
  : res jsval :=
  farmerQuery ← getProp (bagGet bag (lit "inputs")) (lit "farmer_query");
  let weather := bagGet bag (lit "weather_data") in
  let soil := bagGet bag (lit "soil_data") in
  lowered ← callToLowerCase farmerQuery;
  let isWaterRequest :=
    includesAny lowered [lit "water"; lit "paani"; kw_paani] in
  let isFertilizerRequest :=
    includesAny lowered [lit "fertilizer"; lit "khad"; kw_khad] in
  let main := getOpt weather (lit "main") in
  soil_moisture ←
    (if hasSamples soil then getProp (lastOf soil) (lit "moisture")
     else Ok (VNum (fl (22 # 100))));
  Ok (VObj [
    (lit "request", farmerQuery);
    (lit "allocation", VObj [
       (lit "approved_percent",
          VInt (if isWaterRequest then 85
               else if isFertilizerRequest then 75 else 70));
       (lit "delivery_schedule", VStr (lit "Within 2-3 days"));
       (lit "priority",
          VStr (if gtNum (getOpt main (lit "temp")) 30
                then lit "High" else lit "Medium"))]);
    (lit "analysis", VObj [
       (lit "soil_moisture", soil_moisture);
       (lit "recommendation",
          VStr (if isWaterRequest
                then lit "Increase irrigation frequency due to high temperature"
                else lit "Apply during cooler hours"))]);
    (lit "weather", VObj [
       (lit "temperature_c", orElse (getOpt main (lit "temp")) (VInt 28));
       (lit "humidity_percent",
          orElse (getOpt main (lit "humidity")) (VInt 65));
       (lit "condition",
          orElse (getOpt (getOpt (getOpt weather (lit "weather")) (lit "0"))
                    (lit "description"))
                 (VStr (lit "partly cloudy")))]);
    (lit "next_steps", VArr [
       VStr (lit "Confirm pickup location and timing");
       VStr (lit "Prepare application equipment");
       VStr (lit "Monitor crop response after application")])]).
End handlers.

Section formatter.
Context `{Engine}.

(** [x.toFixed(0)]: the nearest integer, halves away from zero. *)
Definition toFixed0 (x : Q) : jsstring :=
  if Qle_bool (inject_Z (10 ^ 21)) (Qabs x) then Number_toString x
  else (if Qltb x 0 then lit "-" else [])
       ++ lit (pretty (Qfloor (Qabs x + (1 # 2))%Q)).

(** [(v * 100).toFixed(0)] *)
Definition percentOf (v : jsval) : jsstring :=
  match toNumber v with
  | Some q => toFixed0 (fmul q 100)
  | None => lit "NaN"
  end.

Definition fallbackParagraph : jsstring :=
  lit "Based on general farming practices, water your crops in the morning, check for pests regularly, and monitor soil moisture. Keep an eye on weather patterns and adjust your irrigation accordingly.".

Definition farmingTips : jsstring :=
  lit "Pro tip: Water your crops early morning or late evening to reduce evaporation. "
  ++ lit "Also, keep checking your plants daily for any changes in color or growth patterns.".

(** "Start with acknowledgment" *)
Definition acknowledgment (farmerQuery : jsstring) (weather : jsval)
  : jsstring :=
  let asked kws :=
    negb (bool_decide (farmerQuery = []))
    && includesAny (toLowerCase farmerQuery) kws in
  if asked [lit "barsat"; lit "rain"] then
    lit "Based on current weather data, " ++
    let description :=
      getOpt (getOpt (getOpt weather (lit "weather")) (lit "0"))
        (lit "description") in
    if (truthy description
        && match description with
           | VStr d => includes d (lit "rain")
           | _ => false
           end)
       || gtNum (getOpt (getOpt weather (lit "main")) (lit "humidity")) 80
    then lit "there's a good chance of rain in the next day or two. "
    else lit "rain is not expected immediately, but humidity levels suggest possible showers later. "
  else if asked [lit "paani"; lit "water"] then
    lit "I understand you need water for your crops. "
  else if asked [lit "fertilizer"; lit "khad"] then
    lit "Regarding your fertilizer needs, "
  else lit "Based on your farming question, ".

(** "Add weather context" *)
Definition weatherContext (weather : jsval) : res jsstring :=
  if truthy weather then
    main ← getProp weather (lit "main");
    temp ← getProp main (lit "temp");
    humidity ← getProp main (lit "humidity");
    Ok (lit "Current temperature is " ++ toStr temp ++ [176] ++ lit "C with "
        ++ toStr humidity ++ lit "% humidity. "
        ++ (if gtNum temp 30
            then lit "It's quite hot, so your crops will need more water. "
            else if ltNum temp 20
            then lit "The weather is cool, which is good for most crops. "
            else []))
  else Ok [].

(** "Add soil information" *)
Definition soilInformation (soil : jsval) : res jsstring :=
  if hasSamples soil then
    let latestSoil := lastOf soil in
    moisture ← getProp latestSoil (lit "moisture");
    Ok (lit "Your soil moisture is at " ++ percentOf moisture ++ lit "%. "
        ++ (if ltNum moisture (fl (2 # 10))
            then lit "This is on the low side, so consider watering your crops soon. "
            else if gtNum moisture (25 # 100)
            then lit "Moisture levels are good, so you can wait a day before the next watering. "
            else []))
  else Ok [].

(** "Add disease information" *)
Definition diseaseInformation (disease : jsval) : jsstring :=
  if truthy disease then
    let condition := ownProp disease (lit "condition") in
    if truthy condition && negb (isStr condition (lit "Healthy")) then
      let conditionText := lowerIfString condition in
      let treatmentText := lowerIfString (ownProp disease (lit "treatment")) in
      lit "I noticed signs of " ++ toStr conditionText ++ lit " in your crop. "
      ++ toStr (orElse (ownProp disease (lit "explanation"))
                  (VStr (lit "Please monitor your crops closely.")))
      ++ lit " "
      ++ lit "My recommendation: "
      ++ toStr (orElse treatmentText
                  (VStr (lit "consult with local agricultural experts")))
      ++ lit ". "
    else lit "Your crops look healthy, which is great! "
  else [].

(** "Add allocation information" *)
Definition allocationInformation (allocation : jsval) : res jsstring :=
  if truthy allocation then
    inner ← getProp allocation (lit "allocation");
    approved ← getProp inner (lit "approved_percent");
    deliverySchedule ← getProp inner (lit "delivery_schedule");
    Ok (lit "Regarding your request for resources, I can approve "
        ++ toStr approved ++ lit "% of what you asked for. "
        ++ lit "Delivery can be arranged "
        ++ toStr (lowerIfString deliverySchedule) ++ lit ". ")
  else Ok [].

(** The text assembled before the length test. *)
Definition assembleResponse (bag : gmap jsstring jsval) : res jsstring :=
  let fq := getOpt (bagGet bag (lit "inputs")) (lit "farmer_query") in
  asString ← (if nullish fq then Ok VUndef else VStr <$> callToString fq);
  let farmerQuery :=
    match orElse asString (VStr []) with VStr s => s | _ => [] end in
  let weather := bagGet bag (lit "weather_data") in
  let soil := bagGet bag (lit "soil_data") in
  let disease := bagGet bag (lit "disease_report") in
  let allocation := bagGet bag (lit "allocation_plan") in
  w ← weatherContext weather;
  s ← soilInformation soil;
  a ← allocationInformation allocation;
  Ok (acknowledgment farmerQuery weather ++ w ++ s
      ++ diseaseInformation disease ++ a).

(** ** simulateResponseFormatter (source lines 1190-1276) *)
Definition simulateResponseFormatter (bag : gmap jsstring jsval)
  : res jsval :=
  response ← assembleResponse bag;
  Ok (VStr (trim (if (50 <? length response)%nat
                  then response ++ farmingTips
                  else fallbackParagraph))).
End formatter.

Section data.
Context `{Engine}.

(** ** getWeatherData (source lines 1278-1305) *)
Definition fallbackWeather : jsval :=
  VObj [
    (lit "main", VObj [(lit "temp", VInt 28); (lit "humidity", VInt 65);
                       (lit "pressure", VInt 1013)]);
    (lit "weather", VArr [VObj [(lit "main", VStr (lit "Clear"));
                                (lit "description", VStr (lit "clear sky"))]]);
    (lit "wind", VObj [(lit "speed", VNum (7 # 2))])].

(** Whatever goes wrong inside the [try] (the request cannot be built,
    [fetch] rejects, the response is not [ok], its body is not JSON)
    ends in the [catch]. *)
Definition weatherOf (o : FetchOutcome) : jsval :=
  match o with
  | Responded true (Some body) => body
  | _ => fallbackWeather
  end.

Definition getWeatherData (w : World) (step : jsval) (st : State)
  : jsval * State :=
  (weatherOf (network w (requested st) (ownProp step (lit "url"))
                (ownProp step (lit "params"))),
   {| workflowResults := workflowResults st; drawn := drawn st;
      requested := S (requested st) |}).

(** ** generateSoilData (source lines 1307-1332) *)
Record SoilData := {
  date : jsstring;
  time : jsstring;
  t0 : Q;
  t10 : Q;
  moisture : Q;
}.

Definition soilValue (d : SoilData) : jsval :=
  VObj [(lit "date", VStr (date d)); (lit "time", VStr (time d));
        (lit "t0", VNum (t0 d)); (lit "t10", VNum (t10 d));
        (lit "moisture", VNum (moisture d))].

(** [s.padStart(n, c)] *)
Definition padStart (n : nat) (c : N) (s : jsstring) : jsstring :=
  replicate (n - length s) c ++ s.

(** A [Date] of September 2025 at local midnight is its day of the
    month (the window of the generator never leaves the month);
    [toISOString] shows the day before when local time is ahead of
    UTC. *)
Definition isoDate (w : World) (day : Z) : jsstring :=
  lit "2025-09-"
  ++ padStart 2 48 (lit (pretty (if eastOfUTC w then day - 1 else day)%Z)).

(** The sample of one round of the inner loop, from three draws; [n] is
    the number of draws made before. *)
Definition soilSample (w : World) (currentDate hour : Z) (n : nat)
  : SoilData :=
  let t0 :=
    fdiv (Math_round
            (fmul (fadd (fmul (random w n) (fsub 300 293)) 293) 100)) 100 in
  let t10 :=
    fdiv (Math_round
            (fmul (fsub t0 (fadd (fmul (random w (S n)) (fsub 3 (3 # 2)))
                              (3 # 2))) 100)) 100 in
  let moisture :=
    fdiv (Math_round
            (fmul (fadd (fmul (random w (S (S n)))
                           (fsub (fl (26 # 100)) (fl (18 # 100))))
                     (fl (18 # 100))) 100)) 100 in
  {| date := isoDate w currentDate;
     time := padStart 2 48 (lit (pretty hour)) ++ lit ":00";
     t0 := t0; t10 := t10; moisture := moisture |}.

(** [data.push({ ... })] *)
Definition pushSample (w : World) (currentDate : Z)
    (acc : list SoilData * nat) (hour : Z) : list SoilData * nat :=
  (acc.1 ++ [soilSample w currentDate hour acc.2], S (S (S acc.2))).

(** [while (currentDate <= endDate)] *)
Equations? soilLoop (w : World) (currentDate endDate : Z)
    (acc : list SoilData * nat) : list SoilData * nat
  by wf (Z.to_nat (endDate + 1 - currentDate)) lt :=
  soilLoop w currentDate endDate acc
    with decide (currentDate ≤ endDate)%Z => {
    | left _ =>
        soilLoop w (currentDate + 1) endDate
          (foldl (pushSample w currentDate) acc [9; 15]%Z);
    | right _ => acc }.
Proof. lia. Qed.

Definition generateSoilData (w : World) (n : nat) : list SoilData * nat :=
  soilLoop w 24 29 ([], n).
End data.

(** ** The response *)

Record AgentResponse := {
  weather : option jsval;
  soil : option jsval;
  disease : option jsval;
  allocation : option jsval;
  final_answer : option jsval;
  success : bool;
  error : option jsstring;
}.

(** [{ success: true }] *)
Definition emptyResponse : AgentResponse :=
  {| weather := None; soil := None; disease := None; allocation := None;
     final_answer := None; success := true; error := None |}.

Definition setFinalAnswer (v : jsval) (r : AgentResponse) : AgentResponse :=
  {| weather := weather r; soil := soil r; disease := disease r;
     allocation := allocation r; final_answer := Some v;
     success := success r; error := error r |}.

Section workflow.
Context `{Engine}.

(** ** getFallbackResult (source lines 1347-1394)

    [config] is what [yaml.load] returned; reading [config.fallbacks]
    throws when it is [null] or [undefined]. *)
Definition getFallbackResult (config : jsval) (w : World)
    (bag : gmap jsstring jsval) (stepId : jsval) : res jsval :=
  _ ← getProp config (lit "fallbacks");
  Ok (
    if isStr stepId (lit "query_refiner") then
      VStr (lit "general agricultural advice and resource guidance needed")
    else if isStr stepId (lit "weather_api") then
      VStr (lit "Weather conditions are moderate. Check local forecasts for rain.")
    else if isStr stepId (lit "soil_data") then
      VArr [soilValue {| date := todayISO w; time := lit "09:00";
                         t0 := 295; t10 := 293; moisture := fl (20 # 100) |}]
    else if isStr stepId (lit "disease_detection") then
      report "Unknown"
        "Unable to analyze image. Check for yellowing, spots, or wilting."
        "Apply general fungicide and improve plant care."
    else if isStr stepId (lit "allocation_agent") then
      VObj [
        (lit "request",
           orElse (getOpt (bagGet bag (lit "inputs")) (lit "farmer_query"))
                  (VStr (lit "Resource request")));
        (lit "allocation", VObj [
           (lit "approved_percent", VInt 70);
           (lit "delivery_schedule", VStr (lit "Within 3-5 days"));
           (lit "priority", VStr (lit "Medium"))]);
        (lit "analysis", VObj [
           (lit "soil_moisture", VNum (fl (20 # 100)));
           (lit "recommendation",
              VStr (lit "Monitor crop conditions regularly"))]);
        (lit "weather", VObj [
           (lit "temperature_c", VInt 25);
           (lit "humidity_percent", VInt 60);
           (lit "condition", VStr (lit "partly cloudy"))]);
        (lit "next_steps", VArr [
           VStr (lit "Contact local cooperative");
           VStr (lit "Prepare application area");
           VStr (lit "Schedule follow-up")])]
    else if isStr stepId (lit "response_formatter") then
      VStr fallbackParagraph
    else
      VStr (lit "Information not available at the moment. Please try again later.")).

Definition useDraw (st : State) : State :=
  {| workflowResults := workflowResults st; drawn := S (drawn st);
     requested := requested st |}.

(** ** executeModelCall (source lines 1062-1089)

    [interpolateTemplate] calls [template.replace], which only a string
    has.  The handlers ignore the prompt they are given. *)
Definition executeModelCall (w : World) (step : jsval) (st : State)
  : res jsval * State :=
  let bag := workflowResults st in
  match orElse (getOpt (ownProp step (lit "input")) (lit "prompt")) (VStr [])
  with
  | VStr template =>
      let prompt := interpolateTemplate bag template in
      let id := ownProp step (lit "id") in
      if isStr id (lit "query_refiner") then
        (simulateQueryRefiner bag, st)
      else if isStr id (lit "disease_detection") then
        (Ok (simulateDiseaseDetection (random w (drawn st))), useDraw st)
      else if isStr id (lit "allocation_agent") then
        (simulateAllocationAgent bag, st)
      else if isStr id (lit "response_formatter") then
        (simulateResponseFormatter bag, st)
      else (Throw (Error (lit "Unknown model call: " ++ toStr id)), st)
  | _ => (Throw (TypeError "template.replace is not a function"), st)
  end.

(** ** executeApiCall (source lines 1091-1096) *)
Definition executeApiCall (w : World) (step : jsval) (st : State)
  : res jsval * State :=
  let id := ownProp step (lit "id") in
  if isStr id (lit "weather_api") then
    let '(v, st') := getWeatherData w step st in (Ok v, st')
  else (Throw (Error (lit "Unknown API call: " ++ toStr id)), st).

(** ** executePythonCode (source lines 1098-1103) *)
Definition executePythonCode (w : World) (step : jsval) (st : State)
  : res jsval * State :=
  let id := ownProp step (lit "id") in
  if isStr id (lit "soil_data") then
    let '(data, n) := generateSoilData w (drawn st) in
    (Ok (VArr (soilValue <$> data)),
     {| workflowResults := workflowResults st; drawn := n;
        requested := requested st |})
  else (Throw (Error (lit "Unknown Python execution: " ++ toStr id)), st).

(** ** executeStep (source lines 1049-1060) *)
Definition executeStep (w : World) (step : jsval) (st : State)
  : res jsval * State :=
  let type := ownProp step (lit "type") in
  if isStr type (lit "model_call") then executeModelCall w step st
  else if isStr type (lit "api_call") then executeApiCall w step st
  else if isStr type (lit "python") then executePythonCode w step st
  else (Throw (Error (lit "Unknown step type: " ++ toStr type)), st).

(** ** execute (source lines 973-1023) *)

(** "Store results in response object" *)
Definition storeResult (id stepResult : jsval) (r : AgentResponse)
  : AgentResponse :=
  if isStr id (lit "weather_api") then
    {| weather := Some stepResult; soil := soil r; disease := disease r;
       allocation := allocation r; final_answer := final_answer r;
       success := success r; error := error r |}
  else if isStr id (lit "soil_data") then
    {| weather := weather r; soil := Some stepResult; disease := disease r;
       allocation := allocation r; final_answer := final_answer r;
       success := success r; error := error r |}
  else if isStr id (lit "disease_detection") then
    {| weather := weather r; soil := soil r; disease := Some stepResult;
       allocation := allocation r; final_answer := final_answer r;
       success := success r; error := error r |}
  else if isStr id (lit "allocation_agent") then
    {| weather := weather r; soil := soil r; disease := disease r;
       allocation := Some stepResult; final_answer := final_answer r;
       success := success r; error := error r |}
  else if isStr id (lit "response_formatter") then
    setFinalAnswer stepResult r
  else r.

(** How a round of the loop stands when control leaves the synchronous
    part of its [try] block. *)
Inductive begun :=
| Skip                  (* the guard is false: [continue] *)
| Failed (e : exn)      (* thrown before anything was awaited *)
| Pending (o : res jsval).
    (* suspended at [await this.executeStep(step)]; [o] is how the promise
       settles: the handler has already run as far as its own first
       suspension, reading [workflowResults] and drawing at random *)

Definition stepBegin (w : World) (step : jsval) (st : State)
  : begun * State :=
  match getProp step (lit "when") with
  | Throw e => (Failed e, st)
  | Ok when =>
      if truthy when && negb (evaluateCondition (workflowResults st) when)
      then (Skip, st)
      else let '(o, st') := executeStep w step st in (Pending o, st')
  end.

(** The rest of the [try] block, once the promise is fulfilled. *)
Definition stepStore (step stepResult : jsval) (r : AgentResponse)
    (st : State) : AgentResponse * State :=
  (storeResult (ownProp step (lit "id")) stepResult r,
   bagSet (toStr (ownProp step (lit "output"))) stepResult st).

(** The [catch] block of a round. *)
Definition stepCatch (config : jsval) (w : World) (step : jsval)
    (r : AgentResponse) (st : State) : res AgentResponse * State :=
  match
    id ← getProp step (lit "id");
    fallbackResult ← getFallbackResult config w (workflowResults st) id;
    Ok (id, fallbackResult)
  with
  | Ok (id, fallbackResult) =>
      (Ok (if isStr id (lit "response_formatter")
           then setFinalAnswer fallbackResult r else r),
       bagSet (toStr (ownProp step (lit "output"))) fallbackResult st)
  | Throw e => (Throw e, st)
  end.

(** The part of a round that runs after its [await] (or right away when
    nothing was awaited). *)
Definition stepEnd (config : jsval) (w : World) (step : jsval) (b : begun)
    (r : AgentResponse) (st : State) : res AgentResponse * State :=
  match b with
  | Skip => (Ok r, st)
  | Pending (Ok stepResult) =>
      let '(r', st') := stepStore step stepResult r st in (Ok r', st')
  | Pending (Throw _) | Failed _ => stepCatch config w step r st
  end.

(** One round of the loop, run without interruption. *)
Definition runStep (config : jsval) (w : World) (step : jsval)
    (r : AgentResponse) (st : State) : res AgentResponse * State :=
  let '(b, st') := stepBegin w step st in stepEnd config w step b r st'.

Fixpoint runSteps (config : jsval) (w : World) (steps : list jsval)
    (r : AgentResponse) (st : State) : res AgentResponse * State :=
  match steps with
  | [] => (Ok r, st)
  | step :: steps' =>
      match runStep config w step r st with
      | (Ok r', st') => runSteps config w steps' r' st'
      | (Throw e, st') => (Throw e, st')
      end
  end.

(** The code points of a string, each as a string: what [for ... of]
    yields on a string. *)
Fixpoint codePoints (s : jsstring) : list jsval :=
  match s with
  | [] => []
  | c :: s' =>
      match s' with
      | d :: s'' =>
          if isLead c && isTrail d
          then VStr [c; d] :: codePoints s''
          else VStr [c] :: codePoints s'
      | [] => [VStr [c]]
      end
  end.

(** [for (const step of v)]: arrays and strings are iterable. *)
Definition iterate (v : jsval) : res (list jsval) :=
  match v with
  | VArr l => Ok l
  | VStr s => Ok (codePoints s)
  | _ => Throw (TypeError "this.config.workflow is not iterable")
  end.

(** The body of the outer [try]. *)
Definition executeBody (config : jsval) (w : World) (inputs : jsval)
    (st : State) : res AgentResponse * State :=
  let st0 := setResults {[ lit "inputs" := inputs ]} st in
  match workflow ← getProp config (lit "workflow"); iterate workflow with
  | Ok steps => runSteps config w steps emptyResponse st0
  | Throw e => (Throw e, st0)
  end.

(** The outer [catch]. *)
Definition executeCatch (config : jsval) (w : World) (e : exn) (st : State)
  : res AgentResponse * State :=
  match getFallbackResult config w (workflowResults st)
          (VStr (lit "response_formatter")) with
  | Ok fallbackResult =>
      (Ok {| weather := None; soil := None; disease := None;
             allocation := None; final_answer := Some fallbackResult;
             success := false; error := Some (message e) |}, st)
  | Throw e' => (Throw e', st)
  end.

(** [execute inputs], run without interruption: what the caller's promise
    settles to, and the state the agent is left in. *)
Definition execute (config : jsval) (w : World) (inputs : jsval)
    (st : State) : res AgentResponse * State :=
  match executeBody config w inputs st with
  | (Ok results, st') => (Ok results, st')
  | (Throw e, st') => executeCatch config w e st'
  end.
End workflow.

(** ** A reference engine

    An engine that computes exactly: numbers are not rounded, the case
    mapping is that of the ASCII letters, and decimal fractions are printed
    and read digit by digit.  It serves to run the model on examples. *)

Definition asciiLower (c : N) : N :=
  if (65 <=? c) && (c <=? 90) then c + 32 else c.

Fixpoint fractionDigits (fuel : nat) (r d : Z) : jsstring :=
  match fuel with
  | O => []
  | S fuel' =>
      if (r =? 0)%Z then []
      else Z.to_N (48 + 10 * r / d) :: fractionDigits fuel' (10 * r mod d) d
  end.

Definition printDecimal (q : Q) : jsstring :=
  let r := Qred q in
  let n := Z.abs (Qnum r) in
  let d := Z.pos (Qden r) in
  (if (Qnum r <? 0)%Z then lit "-" else [])
  ++ lit (pretty (n / d)%Z)
  ++ (if (n mod d =? 0)%Z then [] else lit "." ++ fractionDigits 20 (n mod d) d).

Definition digitsValue (s : jsstring) : option Z :=
  match s with
  | [] => None
  | _ =>
      if forallb isDigit s
      then Some (Z.of_N (fold_left (λ acc c, 10 * acc + (c - 48)) s 0))
      else None
  end.

Definition readDecimal (s : jsstring) : option Q :=
  match trim s with
  | [] => Some 0%Q
  | t =>
      let '(negative, body) :=
        match t with
        | 45 :: body => (true, body)
        | _ => (false, t)
        end in
      let sign (q : Q) : Q := if negative then Qopp q else q in
      match splitOn 46 body with
      | (whole, []) => (λ z, sign (inject_Z z)) <$> digitsValue whole
      | (whole, [frac]) =>
          zi ← digitsValue whole;
          zf ← digitsValue frac;
          Some (sign (inject_Z zi
                      + inject_Z zf / inject_Z (10 ^ Z.of_nat (length frac)))%Q)
      | _ => None
      end
  end.

Definition exactEngine : Engine :=
  {| toLowerCase := fmap asciiLower;
     fracToString := printDecimal;
     parseNumber := readDecimal;
     fl := λ q, q |}.

(** ** The rounding of binary64

    The numbers of the engine are those of IEEE 754 binary64, and every
    arithmetic operation returns the representable number nearest to the
    exact result, a tie going to the one whose last digit is even.  The
    exponent is bounded below (at [-1022] the format becomes a fixed
    grid); the upper bound of the format is left out, no number of this
    program coming near it. *)

Section binary64.
Local Open Scope Q_scope.

(** The exponent [e] of a positive number: [2 ^ e <= a < 2 ^ (e + 1)]. *)
Definition ilog2 (a : Q) : Z :=
  let e0 := (Z.log2 (Qnum a) - Z.log2 (Z.pos (Qden a)))%Z in
  if Qle_bool (2 ^ e0) a then e0 else (e0 - 1)%Z.

(** The nearest integer, a half going to the even one. *)
Definition roundHalfEven (y : Q) : Z :=
  let f := Qfloor y in
  match Qcompare (y - inject_Z f) (1 # 2) with
  | Lt => f
  | Gt => (f + 1)%Z
  | Eq => if Z.even f then f else (f + 1)%Z
  end.

(** The distance between the representable numbers around [a]: 53
    digits from the leading one. *)
Definition ulpOf (a : Q) : Q := 2 ^ (Z.max (ilog2 a) (-1022) - 52).

(** The rounding of a positive number. *)
Definition nearest (a : Q) : Q :=
  inject_Z (roundHalfEven (a / ulpOf a)) * ulpOf a.

Definition roundBinary64 (x : Q) : Q :=
  if Qeq_bool x 0 then 0
  else if Qle_bool 0 x then nearest (Qabs x) else - nearest (Qabs x).

End binary64.

(** The reference engine with the arithmetic of binary64. *)
Definition binary64Engine : Engine :=
  {| toLowerCase := @toLowerCase exactEngine;
     fracToString := @fracToString exactEngine;
     parseNumber := @parseNumber exactEngine;
     fl := roundBinary64 |}.

(** Modelled from the spec: the YAML configuration
    [data/smart-kissan-agent.yaml] is not part of the sources.  The steps,
    their order and their types are those of the table of section 4.4; the
    output names of the four data steps are the ones the handlers read
    back ([weather_data], [soil_data], [disease_report],
    [allocation_plan]); the weather step carries the latitude, longitude
    and units parameters of section 6.  No step has a guard. *)
Definition stepOf (id type output : string) (more : list (jsstring * jsval))
  : jsval :=
  VObj ([(lit "id", VStr (lit id)); (lit "type", VStr (lit type))] ++ more
        ++ [(lit "output", VStr (lit output))]).

Definition specWorkflow : list jsval :=
  [stepOf "query_refiner" "model_call" "refined_query" [];
   stepOf "weather_api" "api_call" "weather_data"
     [(lit "url", VStr (lit "https://api.openweathermap.org/data/2.5/weather"));
      (lit "params", VObj [(lit "lat", VStr (lit "31.5"));
                           (lit "lon", VStr (lit "74.3"));
                           (lit "units", VStr (lit "metric"))])];
   stepOf "soil_data" "python" "soil_data" [];
   stepOf "disease_detection" "model_call" "disease_report" [];
   stepOf "allocation_agent" "model_call" "allocation_plan" [];
   stepOf "response_formatter" "model_call" "final_answer" []].

Definition specConfig : jsval :=
  VObj [(lit "name", VStr (lit "smart-kissan-agent"));
        (lit "workflow", VArr specWorkflow)].

(** [{ farmer_query: q }] *)
Definition farmerInput (q : jsstring) : jsval :=
  VObj [(lit "farmer_query", VStr q)].

(** A world for examples: every draw is one half, every request is
    refused, the date is fixed and local time is UTC. *)
Definition offlineWorld : World :=
  {| random := λ _, 1 # 2;
     network := λ _ _ _, Rejected;
     todayISO := lit "2025-09-24";
     eastOfUTC := false |}.

Definition freshState : State :=
  {| workflowResults := ∅; drawn := O; requested := O |}.

(** ** Overlapping calls

    [execute] is an [async] function: a call runs until it reaches
    [await this.executeStep(step)], is suspended there, and goes on when
    the awaited promise settles; in between, other code runs, among it
    other calls of [execute] on the same agent.  A call is therefore a
    sequence of uninterrupted runs, and all calls share one [State]. *)

Inductive call :=
| Called (inputs : jsval)
    (* [execute(inputs)] is being called *)
| Awaiting (step : jsval) (o : res jsval) (rest : list jsval)
    (r : AgentResponse)
    (* suspended in the round of [step]; [rest] are the steps to come and
       [r] the local [results] *)
| Settled (out : res AgentResponse).
    (* the promise returned by [execute] has settled *)

Section overlapping.
Context `{Engine}.

(** The outer [catch], for a call that ends there. *)
Definition settleCatch (config : jsval) (w : World) (e : exn) (st : State)
  : call * State :=
  let '(out, st') := executeCatch config w e st in (Settled out, st').

(** The loop from the head of a round to the next suspension. *)
Fixpoint advance (config : jsval) (w : World) (steps : list jsval)
    (r : AgentResponse) (st : State) : call * State :=
  match steps with
  | [] => (Settled (Ok r), st)
  | step :: rest =>
      match stepBegin w step st with
      | (Pending o, st') => (Awaiting step o rest r, st')
      | (b, st') =>
          match stepEnd config w step b r st' with
          | (Ok r', st'') => advance config w rest r' st''
          | (Throw e, st'') => settleCatch config w e st''
          end
      end
  end.

(** One uninterrupted run of a call. *)
Definition resume (config : jsval) (w : World) (c : call) (st : State)
  : call * State :=
  match c with
  | Called inputs =>
      let st0 := setResults {[ lit "inputs" := inputs ]} st in
      match workflow ← getProp config (lit "workflow"); iterate workflow with
      | Ok steps => advance config w steps emptyResponse st0
      | Throw e => settleCatch config w e st0
      end
  | Awaiting step o rest r =>
      match stepEnd config w step (Pending o) r st with
      | (Ok r', st') => advance config w rest r' st'
      | (Throw e, st') => settleCatch config w e st'
      end
  | Settled out => (c, st)
  end.

(** A call run to its end with nothing in between: [n] runs. *)
Fixpoint alone (config : jsval) (w : World) (n : nat) (c : call)
    (st : State) : call * State :=
  match n with
  | O => (c, st)
  | S n' => let '(c', st') := resume config w c st in alone config w n' c' st'
  end.

(** Two calls on one agent; the schedule says whose run comes next
    ([true]: the first call). *)
Fixpoint interleave (config : jsval) (w : World) (schedule : list bool)
    (a b : call) (st : State) : call * call * State :=
  match schedule with
  | [] => (a, b, st)
  | true :: schedule' =>
      let '(a', st') := resume config w a st in
      interleave config w schedule' a' b st'
  | false :: schedule' =>
      let '(b', st') := resume config w b st in
      interleave config w schedule' a b' st'
  end.
End overlapping.

(** ** Notions used by the statements *)

(** A decomposition of an input along a pattern: the language of the
    pattern, with the text of each captured repetition. *)
Inductive matches : list atom → jsstring → list jsstring → jsstring → Prop :=
| matches_nil s : matches [] s [] s
| matches_one p pat c s caps rest :
    p c = true → matches pat s caps rest →
    matches (One p :: pat) (c :: s) caps rest
| matches_many cap p pat run s caps rest :
    run ≠ [] → Forall (λ c, p c = true) run → matches pat s caps rest →
    matches (Many1 cap p :: pat) (run ++ s)
      (if cap then run :: caps else caps) rest.

(** The guard read as [identifier contains 'literal'], the way
    [evaluateCondition] reads it. *)
Definition guardOf (c : jsstring) : option (jsstring * jsstring) :=
  if includes c (lit "contains") then
    match search containsRegex c with
    | Some m =>
        match groups m with
        | [variable; searchTerm] => Some (variable, searchTerm)
        | _ => None
        end
    | None => None
    end
  else None.

(** [kw] is the word [contains] in any mix of cases. *)
Definition isContainsWord (kw : jsstring) : Prop :=
  Forall2 (λ x c, letter_i c x = true) kw (lit "contains").

(** The grammar of guards: [c] has, after [pre], an identifier, white
    space, the word [contains], white space and a quoted literal. *)
Definition guardShape (c pre ident literal post : jsstring) : Prop :=
  ∃ ws1 kw ws2,
    c = pre ++ ident ++ ws1 ++ kw ++ ws2 ++ [39] ++ literal ++ [39] ++ post
    ∧ ident ≠ [] ∧ Forall (λ x, isWord x = true) ident
    ∧ ws1 ≠ [] ∧ Forall (λ x, isSpace x = true) ws1
    ∧ isContainsWord kw
    ∧ ws2 ≠ [] ∧ Forall (λ x, isSpace x = true) ws2
    ∧ literal ≠ [] ∧ 39 ∉ literal.


(** [{{path}}] *)
Definition placeholder (path : jsstring) : jsstring :=
  [123; 123] ++ path ++ [125; 125].

(** A placeholder occurs in [s]: two opening braces, a non-empty path
    without a closing brace, two closing braces. *)
Definition hasPlaceholder (s : jsstring) : Prop :=
  ∃ pre path post,
    s = pre ++ placeholder path ++ post ∧ path ≠ [] ∧ 125 ∉ path.

(** What the engine's rounding is assumed to satisfy, as every rounding
    to nearest of a binary format with 53 digits does: it is monotone,
    and exact on the multiples of 2^-20 of magnitude at most 2^32. *)
Class RoundingLaws (E : Engine) : Prop := {
  fl_monotone : ∀ x y : Q, (x <= y)%Q → (fl x <= fl y)%Q;
  fl_exact : ∀ m : Z,
    (Z.abs m <= 2 ^ 52)%Z → (fl (m # 2 ^ 20) == m # 2 ^ 20)%Q;
}.

(** A sample satisfies the bounds of the specification; [0.18] and [0.26]
    are the numbers these literals denote. *)
Definition sampleInRange `{Engine} (d : SoilData) : Prop :=
  (t10 d < t0 d)%Q
  ∧ (fl (18 # 100) <= moisture d)%Q ∧ (moisture d <= fl (26 # 100))%Q.


(** The guard of [step], if it has one, holds whatever the bag. *)
Definition neverSkipped `{Engine} (step : jsval) : Prop :=
  ∀ bag, truthy (ownProp step (lit "when"))
         && negb (evaluateCondition bag (ownProp step (lit "when"))) = false.

(** The request failed: transport error, or a response that is not [ok]. *)
Definition requestFailed (o : FetchOutcome) : Prop :=
  match o with
  | Rejected => True
  | Responded ok _ => ok = false
  end.

(** The response of the outer [catch]. *)
Definition failureResponse (e : exn) : AgentResponse :=
  {| weather := None; soil := None; disease := None; allocation := None;
     final_answer := Some (VStr fallbackParagraph);
     success := false; error := Some (message e) |}.

(** The guard of a step makes the loop skip it. *)
Definition skips `{Engine} (step : jsval) (st : State) : bool :=
  truthy (ownProp step (lit "when"))
  && negb (evaluateCondition (workflowResults st) (ownProp step (lit "when"))).



(** The step that calls the weather provider, never skipped. *)
Definition weatherStep `{Engine} (step : jsval) : Prop :=
  isStr (ownProp step (lit "id")) (lit "weather_api") = true
  ∧ isStr (ownProp step (lit "type")) (lit "api_call") = true
  ∧ neverSkipped step.

(** [this.workflowResults.inputs?.farmer_query] *)
Definition farmerQueryOf (bag : gmap jsstring jsval) : jsval :=
  getOpt (bagGet bag (lit "inputs")) (lit "farmer_query").

(** A fragment of the formatter that says something is long enough to
    pass the threshold after any acknowledgment. *)
Definition substantial (t : jsstring) : Prop := t = [] ∨ (19 ≤ length t)%nat.

(** The distance between a number and its rounding, in the range where
    the grid of [fl_exact] applies. *)
Definition eps : Q := 1 # 1048576.

(** The two samples of a day, in the order pushed. *)
Definition daySamples `{Engine} (w : World) (day : Z) (n : nat)
  : list SoilData :=
  [soilSample w day 9 n; soilSample w day 15 (3 + n)].



(** [allocation.request] and [allocation.allocation.approved_percent] of a
    response *)
Definition requestOf (r : AgentResponse) : option jsval :=
  (λ plan, ownProp plan (lit "request")) <$> allocation r.

Definition approvedOf (r : AgentResponse) : option jsval :=
  (λ plan, ownProp (ownProp plan (lit "allocation")) (lit "approved_percent"))
    <$> allocation r.

(** How a call ends, from what the loop made of it. *)
Definition finish `{Engine} (config : jsval) (w : World)
    (o : res AgentResponse * State) : call * State :=
  match o with
  | (Ok r, st) => (Settled (Ok r), st)
  | (Throw e, st) => settleCatch config w e st
  end.

(** A second call made while the first one waits for the weather
    provider: the first call runs its first two stretches (up to the
    [await] of the query refiner, then up to the [fetch]); the second call
    is made and does the same; the request of the first call is answered
    and it runs to its end; then the second does. *)
Definition overlapSchedule : list bool :=
  [true; true; false; false] ++ replicate 5 true ++ replicate 5 false.

Definition waterQuery : jsstring := lit "I need water for my 2-acre farm".
Definition wheatQuery : jsstring := lit "When should I sow wheat?".

(** The step has a handler: its type and its identifier are one of the
    six pairs that the dispatcher and the three executors know. *)
Definition hasHandler `{Engine} (step : jsval) : bool :=
  let type := ownProp step (lit "type") in
  let id := ownProp step (lit "id") in
  (isStr type (lit "model_call")
   && (isStr id (lit "query_refiner") || isStr id (lit "disease_detection")
       || isStr id (lit "allocation_agent")
       || isStr id (lit "response_formatter")))
  || (isStr type (lit "api_call") && isStr id (lit "weather_api"))
  || (isStr type (lit "python") && isStr id (lit "soil_data")).

(** One of the keywords occurs in [s]. *)
Definition mentions (s : jsstring) (kws : list jsstring) : Prop :=
  ∃ k pre post, k ∈ kws ∧ s = pre ++ k ++ post.

(** [plan] is an allocation record as the allocation agent builds it:
    its request is a string, and the approved percentage and the
    recommendation follow from the words of that request. *)
Definition planOfAgent `{Engine} (plan : jsval) : Prop :=
  ∃ q,
    ownProp plan (lit "request") = VStr q
    ∧ let water := mentions (toLowerCase q) [lit "water"; lit "paani"; kw_paani] in
      let fertilizer :=
        mentions (toLowerCase q) [lit "fertilizer"; lit "khad"; kw_khad] in
      let inner := ownProp plan (lit "allocation") in
      (water → ownProp inner (lit "approved_percent") = VInt 85)
      ∧ (¬ water → fertilizer →
         ownProp inner (lit "approved_percent") = VInt 75)
      ∧ (¬ water → ¬ fertilizer →
         ownProp inner (lit "approved_percent") = VInt 70)
      ∧ ownProp inner (lit "delivery_schedule") = VStr (lit "Within 2-3 days")
      ∧ (ownProp inner (lit "priority") = VStr (lit "High")
         ∨ ownProp inner (lit "priority") = VStr (lit "Medium")).



(** The three numbers of a sample are hundredths: the numbers nearest to
    [k / 100], [j / 100] and [m / 100] for integers in the ranges of the
    generator, the temperature below the surface being 1.5 to 3 degrees
    under the one at the surface. *)
Definition sampleOnGrid `{Engine} (d : SoilData) : Prop :=
  ∃ k j m : Z,
    (29300 ≤ k ≤ 30000)%Z ∧ (k - 300 ≤ j ≤ k - 150)%Z ∧ (18 ≤ m ≤ 26)%Z
    ∧ t0 d = fdiv (inject_Z k) 100
    ∧ t10 d = fdiv (inject_Z j) 100
    ∧ moisture d = fdiv (inject_Z m) 100.

(** The phrase that the query refiner gives for a query in lower case:
    the first of the five subjects one of whose words it mentions, in the
    order weather, water, disease, fertilizer, soil. *)
Definition refinedAs (l phrase : jsstring) : Prop :=
  let weather := mentions l [lit "barsat"; lit "rain"; lit "weather"; kw_mausam] in
  let water := mentions l [lit "paani"; lit "water"; kw_paani; lit "irrigation"] in
  let disease := mentions l [lit "disease"; kw_beemari; lit "leaf"; kw_patta] in
  let fertilizer := mentions l [lit "fertilizer"; lit "khad"; kw_khad] in
  let soil := mentions l [lit "soil"; lit "mitti"; kw_mitti] in
  (weather →
   phrase = lit "weather forecast and precipitation analysis needed")
  ∧ (¬ weather → water →
     phrase = lit "resource allocation for water irrigation required")
  ∧ (¬ weather → ¬ water → disease →
     phrase = lit "disease detection and crop health analysis needed")
  ∧ (¬ weather → ¬ water → ¬ disease → fertilizer →
     phrase = lit "resource allocation for fertilizer application required")
  ∧ (¬ weather → ¬ water → ¬ disease → ¬ fertilizer → soil →
     phrase = lit "soil analysis and moisture monitoring needed")
  ∧ (¬ weather → ¬ water → ¬ disease → ¬ fertilizer → ¬ soil →
     phrase = lit "general agricultural advice and resource guidance needed").

(** What the formatter says of a moisture of [m] per cent. *)
Definition moistureAdvice (m : Z) : jsstring :=
  if (m <? 20)%Z
  then lit "This is on the low side, so consider watering your crops soon. "
  else if (25 <? m)%Z
  then lit "Moisture levels are good, so you can wait a day before the next watering. "
  else [].



(** ** Literals that are not plain ASCII

    The bytes of such a literal are its UTF-8 encoding; [utf16] gives its
    code units, a code point above [U+FFFF] as a pair of surrogates. *)
Fixpoint decodeUtf8 (bytes : list N) : jsstring :=
  match bytes with
  | [] => []
  | b :: rest =>
      if b <? 128 then b :: decodeUtf8 rest
      else if b <? 224 then
        match rest with
        | c1 :: rest' => ((b - 192) * 64 + (c1 - 128)) :: decodeUtf8 rest'
        | _ => []
        end
      else if b <? 240 then
        match rest with
        | c1 :: c2 :: rest' =>
            ((b - 224) * 4096 + (c1 - 128) * 64 + (c2 - 128))
            :: decodeUtf8 rest'
        | _ => []
        end
      else
        match rest with
        | c1 :: c2 :: c3 :: rest' =>
            let v := (b - 240) * 262144 + (c1 - 128) * 4096
                     + (c2 - 128) * 64 + (c3 - 128) - 65536 in
            (55296 + v / 1024) :: (56320 + v mod 1024) :: decodeUtf8 rest'
        | _ => []
        end
  end.

Definition utf16 (s : string) : jsstring := decodeUtf8 (lit s).

(** * The chat component (source lines 35-600)

    The state of the component is the values of its [useState] hooks
    that the handlers below read or set; a setter is an update of the
    record.  The agent is the one of the workflow executor, with its own
    state. *)
Module SmartKissanChat.

Inductive Sender := user | smartkissan.
Inductive MessageType := text | speech | image_speech.
Inductive Language := en | ur.

(** [interface Message]; [id] is [Date.now().toString()] and
    [timestamp] the time of [new Date()], both in milliseconds. *)
Record Message := {
  id : jsstring;
  type : Sender;
  content : jsval;
  timestamp : Z;
  messageType : option MessageType;
  image : option jsstring;
  agentResponse : option AgentResponse;
}.

Record ChatState := {
  messages : list Message;
  inputText : jsstring;
  isLoading : bool;
  language : Language;
  processingAgent : bool;
}.

(** [setMessages(prev => [...prev, m])] *)
Definition addMessage (m : Message) (ui : ChatState) : ChatState :=
  {| messages := messages ui ++ [m]; inputText := inputText ui;
     isLoading := isLoading ui; language := language ui;
     processingAgent := processingAgent ui |}.

Definition setInputText (t : jsstring) (ui : ChatState) : ChatState :=
  {| messages := messages ui; inputText := t; isLoading := isLoading ui;
     language := language ui; processingAgent := processingAgent ui |}.

Definition setIsLoading (b : bool) (ui : ChatState) : ChatState :=
  {| messages := messages ui; inputText := inputText ui; isLoading := b;
     language := language ui; processingAgent := processingAgent ui |}.

Definition setProcessingAgent (b : bool) (ui : ChatState) : ChatState :=
  {| messages := messages ui; inputText := inputText ui;
     isLoading := isLoading ui; language := language ui;
     processingAgent := b |}.

(** The text shown when the response has no [final_answer]. *)
Definition analysedText (l : Language) : jsstring :=
  match l with
  | en => lit "I've analyzed your request and gathered the latest data. Here's what I found:"
  | ur => utf16 "میں نے آپ کی درخواست کا تجزیہ کیا ہے اور تازہ ترین ڈیٹا اکٹھا کیا ہے۔"
  end.

(** The text of the [catch]. *)
Definition troubleText (l : Language) : jsstring :=
  match l with
  | en => lit "I'm having trouble connecting right now, but based on usual conditions, water your crops in the morning, check for pests, and avoid over-irrigation."
  | ur => utf16 "فی الوقت کنکشن میں مسئلہ ہے، لیکن عام حالات کی بنیاد پر، صبح اپنی فصلوں کو پانی دیں، کیڑوں کی جانچ کریں، اور زیادہ پانی دینے سے بچیں۔"
  end.

(** [agentResponse.final_answer || (language === 'en' ? ... : ...)] *)
Definition responseContent `{Engine} (agentResponse : AgentResponse)
    (l : Language) : jsval :=
  match final_answer agentResponse with
  | Some answer => orElse answer (VStr (analysedText l))
  | None => VStr (analysedText l)
  end.

(** [!image] *)
Definition noImage (image : option jsstring) : bool :=
  match image with
  | Some (_ :: _) => false
  | _ => true
  end.

(** ** handleSendMessage (source lines 85-144), run without interruption

    [sentAt] and [answeredAt] are what [Date.now()] returns when the
    message is sent and when the agent has answered; [st] is the state of
    the agent. *)
Definition handleSendMessage `{Engine} (config : jsval) (w : World)
    (sentAt answeredAt : Z) (text : jsstring) (type : MessageType)
    (image : option jsstring) (ui : ChatState) (st : State)
  : ChatState * State :=
  if bool_decide (trim text = []) && noImage image then (ui, st)
  else
    let userMessage :=
      {| id := lit (pretty sentAt); type := user; content := VStr text;
         timestamp := sentAt; messageType := Some type; image := image;
         agentResponse := None |} in
    let ui1 :=
      setProcessingAgent true
        (setIsLoading true (setInputText [] (addMessage userMessage ui))) in
    let agentInput := VObj [(lit "farmer_query", VStr text)] in
    match execute config w agentInput st with
    | (Ok agentResponse, st') =>
        let smartkissanMessage :=
          {| id := lit (pretty (answeredAt + 1)%Z); type := smartkissan;
             content := responseContent agentResponse (language ui);
             timestamp := answeredAt; messageType := None; image := None;
             agentResponse := Some agentResponse |} in
        (setIsLoading false
           (addMessage smartkissanMessage (setProcessingAgent false ui1)),
         st')
    | (Throw _, st') =>
        let smartkissanMessage :=
          {| id := lit (pretty (answeredAt + 1)%Z); type := smartkissan;
             content := VStr (troubleText (language ui));
             timestamp := answeredAt; messageType := None; image := None;
             agentResponse := None |} in
        (setIsLoading false
           (addMessage smartkissanMessage (setProcessingAgent false ui1)),
         st')
    end.

End SmartKissanChat.

(** ** Conversions that can fail

    [ToString] and [ToNumber] of a value read from JSON.  An object is
    converted by its [toString] method; one that has an own property of
    that name (which is no function) has none that can be called, nor a
    [valueOf] that returns a primitive: the conversion throws.  An array
    is converted by joining its elements. *)
Fixpoint toStringOf `{Engine} (v : jsval) : res jsstring :=
  match v with
  | VObj ps =>
      match assoc (lit "toString") ps with
      | Some _ => Throw (TypeError "Cannot convert object to primitive value")
      | None => Ok (lit "[object Object]")
      end
  | VArr l =>
      joinWith (lit ",")
      <$> (fix each (l : list jsval) : res (list jsstring) :=
             match l with
             | [] => Ok []
             | e :: l' =>
                 s ← (if nullish e then Ok [] else toStringOf e);
                 ss ← each l';
                 Ok (s :: ss)
             end) l
  | _ => Ok (toStr v)
  end.

Definition toNumberOf `{Engine} (v : jsval) : res (option Q) :=
  match v with
  | VObj _ | VArr _ => parseNumber <$> toStringOf v
  | _ => Ok (toNumber v)
  end.

(** [v > c] and [v < c] for a number [c] *)
Definition greaterThan `{Engine} (v : jsval) (c : Q) : res bool :=
  from_option (λ q, Qltb c q) false <$> toNumberOf v.
Definition lessThan `{Engine} (v : jsval) (c : Q) : res bool :=
  from_option (λ q, Qltb q c) false <$> toNumberOf v.

(** [x.toFixed(digits)]: the nearest multiple of [10 ^ -digits], a half
    going away from zero, with all its digits. *)
Definition toFixed `{Engine} (digits : nat) (x : Q) : jsstring :=
  if Qle_bool (inject_Z (10 ^ 21)) (Qabs x) then Number_toString x
  else
    let n := Qfloor (Qabs x * inject_Z (10 ^ Z.of_nat digits) + (1 # 2))%Q in
    let m := padStart (S digits) 48 (lit (pretty n)) in
    let k := (length m - digits)%nat in
    (if Qltb x 0 then lit "-" else [])
    ++ take k m
    ++ match digits with
       | O => []
       | S _ => lit "." ++ drop k m
       end.

(** * The agent configured by [smart-kissan-agent.json]
      (source lines 608-870)

    [config] is the imported JSON document and [apiKey] the value of
    [import.meta.env.VITE_OPENWEATHER_API_KEY]; neither is part of the
    sources.  The soil generator and the fallback weather record are,
    letter for letter, those of the workflow executor. *)
Module JsonAgent.

(** [interface AgentResponse]: here the two reports are texts. *)
Record AgentResponse := {
  weather : option jsval;
  soil : option (list SoilData);
  disease : option jsstring;
  allocation : option jsstring;
  success : bool;
  error : option jsstring;
}.

(** ** getWeatherData (source lines 684-697) *)

(** The address of the request; reading the coordinates throws when the
    configuration has no [workflow[0].config.params]. *)
Definition weatherUrl `{Engine} (config apiKey : jsval) : res jsstring :=
  workflow ← getProp config (lit "workflow");
  first ← getProp workflow (lit "0");
  stepConfig ← getProp first (lit "config");
  params ← getProp stepConfig (lit "params");
  if nullish params
  then Throw (TypeError "Cannot destructure property 'lat'")
  else
    lat ← toStringOf (ownProp params (lit "lat"));
    lon ← toStringOf (ownProp params (lit "lon"));
    key ← toStringOf apiKey;
    Ok (lit "https://api.openweathermap.org/data/2.5/weather?lat=" ++ lat
        ++ lit "&lon=" ++ lon ++ lit "&appid=" ++ key ++ lit "&units=metric").

Definition getWeatherData `{Engine} (config apiKey : jsval) (w : World)
    (st : State) : res jsval * State :=
  match weatherUrl config apiKey with
  | Throw e => (Throw e, st)
  | Ok url =>
      (match network w (requested st) (VStr url) VUndef with
       | Rejected => Throw (TypeError "Failed to fetch")
       | Responded false _ => Throw (Error (lit "Weather API request failed"))
       | Responded true None => Throw (Error (lit "Unexpected end of JSON input"))
       | Responded true (Some body) => Ok body
       end,
       {| workflowResults := workflowResults st; drawn := drawn st;
          requested := S (requested st) |})
  end.

(** ** getFallbackWeatherData (source lines 699-714) *)
Definition getFallbackWeatherData : jsval := fallbackWeather.

(** ** detectDisease (source lines 743-800) *)

Definition mockDisease (name : string) (confidence : Z)
    (severity treatment prevention : string) : jsval :=
  VObj [(lit "name", VStr (lit name)); (lit "confidence", VInt confidence);
        (lit "severity", VStr (lit severity));
        (lit "treatment", VStr (lit treatment));
        (lit "prevention", VStr (lit prevention))].

Definition mockDiseases : list jsval :=
  [mockDisease "Early Blight" 85 "Moderate"
     "Apply copper-based fungicide every 7-10 days. Remove affected leaves and improve air circulation."
     "Avoid overhead watering, maintain proper plant spacing, and apply preventive fungicide sprays.";
   mockDisease "Leaf Rust" 78 "Mild"
     "Use sulfur-based fungicide. Ensure good drainage and reduce humidity around plants."
     "Plant resistant varieties, avoid overcrowding, and water at soil level.";
   mockDisease "Healthy" 92 "None"
     "No treatment needed. Continue current care practices."
     "Maintain regular monitoring, proper nutrition, and good cultural practices."].

(** ** getFallbackDiseaseDetection (source lines 861-863) *)
Definition getFallbackDiseaseDetection : jsstring :=
  lit "**Offline Disease Analysis**" ++ [10; 10]
  ++ lit "Unable to connect to AI analysis service. Based on visual inspection:"
  ++ [10; 10]
  ++ utf16 "• Check for common signs: yellowing, spots, wilting" ++ [10]
  ++ utf16 "• Apply general fungicide if disease symptoms present" ++ [10]
  ++ utf16 "• Improve air circulation and reduce moisture" ++ [10]
  ++ utf16 "• Consult local agricultural extension office".

(** The lines about the disease that was drawn. *)
Definition diseaseLines `{Engine} (randomDisease : jsval) : res jsstring :=
  name ← getProp randomDisease (lit "name");
  Ok (lit "**Disease Analysis Results**" ++ [10; 10]
      ++ utf16 "🔍 **Detected Condition:** " ++ toStr name ++ [10]
      ++ utf16 "📊 **Confidence Level:** "
      ++ toStr (ownProp randomDisease (lit "confidence")) ++ lit "%" ++ [10]
      ++ utf16 "⚠️ **Severity:** "
      ++ toStr (ownProp randomDisease (lit "severity")) ++ [10; 10]
      ++ utf16 "💊 **Treatment Recommendation:**" ++ [10]
      ++ toStr (ownProp randomDisease (lit "treatment")) ++ [10; 10]
      ++ utf16 "🛡️ **Prevention Tips:**" ++ [10]
      ++ toStr (ownProp randomDisease (lit "prevention")) ++ [10; 10]).

(** [if (weather) { ... }] *)
Definition weatherContext `{Engine} (weather : jsval) : res jsstring :=
  if truthy weather then
    main ← getProp weather (lit "main");
    temp ← getProp main (lit "temp");
    tempText ← toStringOf temp;
    humidityText ← toStringOf (ownProp main (lit "humidity"));
    humid ← greaterThan (ownProp main (lit "humidity")) 70;
    Ok (utf16 "🌤️ **Weather Context:**" ++ [10]
        ++ lit "Current temperature: " ++ tempText ++ utf16 "°C, Humidity: "
        ++ humidityText ++ lit "%" ++ [10]
        ++ lit "Weather conditions may "
        ++ (if (humid : bool) then lit "increase" else lit "reduce")
        ++ lit " disease pressure." ++ [10; 10])
  else Ok [].

(** [if (soil && soil.length > 0) { ... }] *)
Definition soilConditions `{Engine} (soil : list SoilData) : jsstring :=
  match last soil with
  | Some latestSoil =>
      utf16 "🌱 **Soil Conditions:**" ++ [10]
      ++ lit "Soil moisture: " ++ toFixed 1 (fmul (moisture latestSoil) 100)
      ++ lit "%" ++ [10]
      ++ lit "Temperature: " ++ Number_toString (t0 latestSoil)
      ++ lit "K at surface" ++ [10]
      ++ (if Qltb (moisture latestSoil) (fl (2 # 10))
          then lit "Consider increasing irrigation."
          else lit "Soil moisture levels are adequate.")
  | None => []
  end.

(** The body of the [try]; [r] is the random number drawn. *)
Definition diseaseAnalysis `{Engine} (r : Q) (weather : jsval)
    (soil : list SoilData) : res jsstring :=
  let randomDisease :=
    atNumber mockDiseases
      (Math_floor (fmul r (inject_Z (Z.of_nat (length mockDiseases))))) in
  d ← diseaseLines randomDisease;
  c ← weatherContext weather;
  Ok (d ++ c ++ soilConditions soil).

Definition detectDisease `{Engine} (r : Q) (image weather : jsval)
    (soil : list SoilData) : jsstring :=
  match diseaseAnalysis r weather soil with
  | Ok analysis => analysis
  | Throw _ => getFallbackDiseaseDetection
  end.

(** ** getFallbackResourceAllocation (source lines 865-867) *)
Definition getFallbackResourceAllocation `{Engine} (request : jsval)
  : res jsstring :=
  requestText ← toStringOf request;
  Ok (lit "**Offline Resource Allocation**" ++ [10; 10]
      ++ lit "Request: " ++ requestText ++ [10; 10]
      ++ lit "Using cached allocation rules:" ++ [10]
      ++ utf16 "• Water requests: 70% approval rate" ++ [10]
      ++ utf16 "• Fertilizer: Standard NPK recommended" ++ [10]
      ++ utf16 "• Seeds: Local varieties available" ++ [10; 10]
      ++ lit "Contact local cooperative for immediate assistance.").

(** ** allocateResources (source lines 802-859) *)

(** [soil.reduce((sum, s) => sum + s.moisture, 0) / soil.length] *)
Definition averageMoisture `{Engine} (soil : list SoilData) : Q :=
  fdiv (foldl (λ sum s, fadd sum (moisture s)) 0%Q soil)
       (inject_Z (Z.of_nat (length soil))).

Definition waterAllocation `{Engine} (soil : list SoilData) : jsstring :=
  utf16 "💧 **Water Allocation:**" ++ [10]
  ++ utf16 "• Approved: 80% of requested amount" ++ [10]
  ++ utf16 "• Delivery schedule: Next 2-3 days" ++ [10]
  ++ utf16 "• Priority: High (based on current soil moisture)" ++ [10; 10]
  ++ match soil with
     | _ :: _ =>
         let avgMoisture := averageMoisture soil in
         utf16 "📊 **Soil Analysis:**" ++ [10]
         ++ utf16 "• Current moisture: " ++ toFixed 1 (fmul avgMoisture 100)
         ++ lit "%" ++ [10]
         ++ utf16 "• "
         ++ (if Qltb avgMoisture (fl (2 # 10))
             then lit "Irrigation needed urgently"
             else lit "Moderate irrigation required")
         ++ [10; 10]
     | [] => []
     end.

Definition fertilizerAllocation : jsstring :=
  utf16 "🌿 **Fertilizer Allocation:**" ++ [10]
  ++ utf16 "• NPK 20-20-20: 50kg approved" ++ [10]
  ++ utf16 "• Organic compost: 100kg available" ++ [10]
  ++ utf16 "• Application timing: Before next rainfall" ++ [10; 10].

Definition seedAllocation : jsstring :=
  utf16 "🌱 **Seed Allocation:**" ++ [10]
  ++ utf16 "• High-yield variety: Available" ++ [10]
  ++ utf16 "• Disease-resistant strain: Recommended" ++ [10]
  ++ utf16 "• Quantity: Based on land area" ++ [10; 10].

(** [if (weather) { ... }] *)
Definition weatherConsiderations `{Engine} (weather : jsval)
  : res jsstring :=
  if truthy weather then
    main ← getProp weather (lit "main");
    temp ← getProp main (lit "temp");
    tempText ← toStringOf temp;
    hot ← greaterThan temp 30;
    cool ← (if (hot : bool) then Ok false else lessThan temp 20);
    humidityText ← toStringOf (ownProp main (lit "humidity"));
    conditions ← getProp weather (lit "weather");
    first ← getProp conditions (lit "0");
    description ← getProp first (lit "description");
    descriptionText ← toStringOf description;
    Ok (utf16 "🌤️ **Weather Considerations:**" ++ [10]
        ++ utf16 "• Temperature: " ++ tempText ++ utf16 "°C ("
        ++ (if (hot : bool) then lit "Hot"
            else if (cool : bool) then lit "Cool"
            else lit "Moderate")
        ++ lit ")" ++ [10]
        ++ utf16 "• Humidity: " ++ humidityText ++ lit "%" ++ [10]
        ++ utf16 "• Conditions: " ++ descriptionText ++ [10]
        ++ utf16 "• Recommendation: "
        ++ (if (hot : bool) then lit "Increase irrigation frequency"
            else lit "Normal irrigation schedule")
        ++ [10; 10])
  else Ok [].

Definition nextSteps : jsstring :=
  utf16 "✅ **Next Steps:**" ++ [10]
  ++ lit "1. Confirm resource pickup location" ++ [10]
  ++ lit "2. Schedule delivery within 48 hours" ++ [10]
  ++ lit "3. Follow up on application results" ++ [10]
  ++ lit "4. Monitor crop response and adjust as needed".

(** The body of the [try]. *)
Definition allocationPlan `{Engine} (request weather : jsval)
    (soil : list SoilData) : res jsstring :=
  requestText ← toStringOf request;
  lowered ← callToLowerCase request;
  let isWaterRequest := includes lowered (lit "water") in
  let isFertilizerRequest :=
    includes lowered (lit "fertilizer") || includes lowered (lit "fertiliser") in
  let isSeedRequest := includes lowered (lit "seed") in
  c ← weatherConsiderations weather;
  Ok (lit "**Resource Allocation Plan**" ++ [10; 10]
      ++ utf16 "📝 **Request:** " ++ requestText ++ [10; 10]
      ++ (if isWaterRequest then waterAllocation soil else [])
      ++ (if isFertilizerRequest then fertilizerAllocation else [])
      ++ (if isSeedRequest then seedAllocation else [])
      ++ c ++ nextSteps).

Definition allocateResources `{Engine} (request weather : jsval)
    (soil : list SoilData) : res jsstring :=
  match allocationPlan request weather soil with
  | Ok allocation => Ok allocation
  | Throw _ => getFallbackResourceAllocation request
  end.

(** ** execute (source lines 651-682) *)

(** "Step 3": the report that the mode asks for. *)
Definition specificAgent `{Engine} (w : World) (inputs weather : jsval)
    (soil : list SoilData) (st : State)
  : res (option jsstring * option jsstring) * State :=
  match getProp inputs (lit "mode") with
  | Throw e => (Throw e, st)
  | Ok mode =>
      if isStr mode (lit "disease_detection")
         && truthy (ownProp inputs (lit "leaf_image"))
      then
        (Ok (Some (detectDisease (random w (drawn st))
                     (ownProp inputs (lit "leaf_image")) weather soil),
             None),
         useDraw st)
      else if isStr mode (lit "resource_allocation")
              && truthy (ownProp inputs (lit "farm_request"))
      then
        ((λ a, (None, Some a))
         <$> allocateResources (ownProp inputs (lit "farm_request"))
               weather soil,
         st)
      else (Ok (None, None), st)
  end.

Definition execute `{Engine} (config apiKey : jsval) (w : World)
    (inputs : jsval) (st : State) : AgentResponse * State :=
  let '(fetched, st1) := getWeatherData config apiKey w st in
  let weatherData :=
    match fetched with
    | Ok weatherData => weatherData
    | Throw _ => getFallbackWeatherData
    end in
  let '(soilData, n) := generateSoilData w (drawn st1) in
  let st2 := {| workflowResults := workflowResults st1; drawn := n;
                requested := requested st1 |} in
  match specificAgent w inputs weatherData soilData st2 with
  | (Ok (diseaseText, allocationText), st3) =>
      ({| weather := Some weatherData; soil := Some soilData;
          disease := diseaseText; allocation := allocationText;
          success := true; error := None |}, st3)
  | (Throw e, st3) =>
      ({| weather := None; soil := None; disease := None; allocation := None;
          success := false; error := Some (message e) |}, st3)
  end.

End JsonAgent.

(** [config.workflow?.[0]?.config?.params]: the coordinates of the
    weather request, where the configuration has them. *)
Definition coordinatesOf `{Engine} (config : jsval) : jsval :=
  getOpt (getOpt (getOpt (getOpt config (lit "workflow")) (lit "0"))
            (lit "config")) (lit "params").

(** The value has no text: converting it to a string throws. *)
Definition unprintable `{Engine} (v : jsval) : Prop :=
  ∃ e, toStringOf v = Throw e.

(** The mode of the input asks for the disease report, or for the
    allocation plan. *)
Definition asksDisease `{Engine} (inputs : jsval) : bool :=
  isStr (ownProp inputs (lit "mode")) (lit "disease_detection")
  && truthy (ownProp inputs (lit "leaf_image")).

Definition asksAllocation `{Engine} (inputs : jsval) : bool :=
  negb (asksDisease inputs)
  && (isStr (ownProp inputs (lit "mode")) (lit "resource_allocation")
      && truthy (ownProp inputs (lit "farm_request"))).

(** The weather record cannot be read by the disease report: it is there
    but has no [main], or a temperature or a humidity without text. *)
Definition weatherUnreadable `{Engine} (weather : jsval) : Prop :=
  truthy weather = true
  ∧ (nullish (ownProp weather (lit "main")) = true
     ∨ unprintable (ownProp (ownProp weather (lit "main")) (lit "temp"))
     ∨ unprintable (ownProp (ownProp weather (lit "main")) (lit "humidity"))).

(** It cannot be read by the allocation plan either, which also needs the
    description of [weather[0]]. *)
Definition conditionsUnreadable `{Engine} (weather : jsval) : Prop :=
  weatherUnreadable weather
  ∨ truthy weather = true
    ∧ (nullish (ownProp weather (lit "weather")) = true
       ∨ nullish (ownProp (ownProp weather (lit "weather")) (lit "0")) = true
       ∨ unprintable
           (ownProp (ownProp (ownProp weather (lit "weather")) (lit "0"))
              (lit "description"))).

(** A configuration of the agent configured by JSON with the coordinates
    of Lahore, and inputs of its two modes; the JSON document itself is
    not part of the sources. *)
Definition lahoreConfig : jsval :=
  VObj [(lit "workflow",
         VArr [VObj [(lit "config",
                      VObj [(lit "params",
                             VObj [(lit "lat", VNum (315 # 10));
                                   (lit "lon", VNum (743 # 10))])])]])].

Definition diseaseInput : jsval :=
  VObj [(lit "mode", VStr (lit "disease_detection"));
        (lit "leaf_image", VStr (lit "data:image/png;base64,iVBORw0KGgo="))].

Definition allocationInput (request : jsval) : jsval :=
  VObj [(lit "mode", VStr (lit "resource_allocation"));
        (lit "farm_request", request)].




(** * Properties *)

(** ** Strings *)

Lemma startsWith_spec s t :
  startsWith s t = true ↔ ∃ post, s = t ++ post.
Proof.
  revert s. induction t as [|b t IH]; intros s; simpl.
  - split; [intros _; by exists s | done].
  - destruct s as [|a s]; simpl.
    + split; [done | intros [post Hp]; discriminate].
    + unfold unit_eqb. rewrite andb_true_iff, N.eqb_eq, IH. split.
      * intros [-> [post ->]]. eauto.
      * intros [post Hp]. injection Hp as -> ->. eauto.
Qed.

Lemma includes_spec s t :
  includes s t = true ↔ ∃ pre post, s = pre ++ t ++ post.
Proof.
  induction s as [|a s IH].
  - simpl. rewrite orb_false_r, startsWith_spec. split.
    + intros [post Hp]. exists [], post. done.
    + intros (pre & post & Hp). destruct pre; [eauto|discriminate].
  - cbn [includes]. rewrite orb_true_iff, startsWith_spec, IH. split.
    + intros [[post Hp] | (pre & post & ->)].
      * exists [], post. done.
      * exists (a :: pre), post. done.
    + intros (pre & post & Hp). destruct pre as [|c pre].
      * left. eauto.
      * right. injection Hp as -> ->. eauto.
Qed.

Lemma takeWhile_dropWhile p s : takeWhile p s ++ dropWhile p s = s.
Proof. induction s as [|c s IH]; simpl; [done|]. destruct (p c); simpl; congruence. Qed.

Lemma takeWhile_all p s : Forall (λ c, p c = true) (takeWhile p s).
Proof.
  induction s as [|c s IH]; simpl; [constructor|].
  destruct (p c) eqn:E; constructor; done.
Qed.

Lemma takeWhile_app_stop p run c s :
  Forall (λ c, p c = true) run → p c = false →
  takeWhile p (run ++ c :: s) = run.
Proof.
  induction 1 as [|x run Hx _ IH]; intros Hc; simpl.
  - by rewrite Hc.
  - by rewrite Hx, IH.
Qed.

Lemma take_takeWhile p s n :
  (n ≤ length (takeWhile p s))%nat → take n s = take n (takeWhile p s).
Proof.
  intros Hn. rewrite <- (takeWhile_dropWhile p s) at 1.
  by rewrite take_app_le.
Qed.

(** ** The matcher *)

Lemma tryRuns_sound k cap p s n caps rest :
  (n ≤ length (takeWhile p s))%nat →
  tryRuns k cap s n = Some (caps, rest) →
  ∃ run caps', run ≠ [] ∧ Forall (λ c, p c = true) run
    ∧ k (drop (length run) s) = Some (caps', rest)
    ∧ s = run ++ drop (length run) s
    ∧ caps = (if cap then run :: caps' else caps').
Proof.
  induction n as [|n IH]; intros Hn; simpl; [done|].
  destruct (k (drop (S n) s)) as [[caps' rest']|] eqn:Ek.
  - intros [= <- <-]. exists (take (S n) s), caps'.
    assert (length (take (S n) s) = S n) as Hlen.
    { rewrite length_take. pose proof (takeWhile_dropWhile p s) as E.
      apply (f_equal length) in E. rewrite length_app in E. lia. }
    split; [intros E; rewrite E in Hlen; discriminate|].
    split; [rewrite (take_takeWhile p) by done; apply Forall_take, takeWhile_all|].
    rewrite Hlen. split; [done|]. split; [by rewrite take_drop|done].
  - intros Ht. apply IH; [lia|done].
Qed.

Lemma matchAt_sound pat s caps rest :
  matchAt pat s = Some (caps, rest) → matches pat s caps rest.
Proof.
  revert s caps rest. induction pat as [|[p|cap p] pat IH]; intros s caps rest; simpl.
  - intros [= <- <-]. constructor.
  - destruct s as [|c s]; [done|]. destruct (p c) eqn:Ep; [|done].
    intros Hm. constructor; auto.
  - intros Ht. apply (tryRuns_sound _ _ p) in Ht as (run & caps' & Hne & Hall & Hk & Hs & ->); [|done].
    rewrite Hs. constructor; auto.
Qed.

Lemma matches_suffix pat s caps rest :
  matches pat s caps rest → ∃ m, s = m ++ rest.
Proof.
  induction 1 as [s|p pat c s caps rest _ _ [m ->]|cap p pat run s caps rest _ _ _ [m ->]].
  - by exists [].
  - by exists (c :: m).
  - exists (run ++ m). by rewrite <- app_assoc.
Qed.

(** Backtracking is complete: an input that has a decomposition is
    matched. *)
Lemma tryRuns_complete k cap s n m :
  (1 ≤ m ≤ n)%nat → is_Some (k (drop m s)) → is_Some (tryRuns k cap s n).
Proof.
  induction n as [|n IH]; intros Hm Hk; [lia|]. simpl.
  destruct (k (drop (S n) s)) as [[caps rest]|] eqn:Ek; [done|].
  apply IH; [|done]. destruct (decide (m = S n)) as [->|]; [|lia].
  rewrite Ek in Hk. by destruct Hk.
Qed.

Lemma matchAt_complete pat s caps rest :
  matches pat s caps rest → is_Some (matchAt pat s).
Proof.
  induction 1 as [s|p pat c s caps rest Hp _ IH|cap p pat run s caps rest Hne Hall _ IH]; simpl.
  - done.
  - by rewrite Hp.
  - apply (tryRuns_complete _ _ _ _ (length run)).
    + split; [destruct run; simpl; [done|lia]|].
      clear -Hall. induction Hall as [|x run Hx _ IHr]; simpl; [lia|].
      rewrite Hx. simpl. lia.
    + by rewrite drop_app_length.
Qed.

(** ** The leftmost match *)

Lemma matchAt_split pat s caps rest :
  matchAt pat s = Some (caps, rest) →
  s = take (length s - length rest) s ++ rest.
Proof.
  intros Hm. apply matchAt_sound, matches_suffix in Hm as [m ->].
  rewrite length_app. replace (length m + length rest - length rest)%nat with (length m) by lia.
  by rewrite take_app_length.
Qed.

Lemma search_here pat s caps rest :
  matchAt pat s = Some (caps, rest) →
  ∃ mt, s = mt ++ rest
    ∧ search pat s = Some {| before := []; matched := mt;
                             groups := caps; after := rest |}.
Proof.
  intros Hm. exists (take (length s - length rest) s).
  split; [by eapply matchAt_split|]. destruct s; simpl in *; by rewrite Hm.
Qed.

Lemma search_later pat c s :
  matchAt pat (c :: s) = None →
  search pat (c :: s) =
    (λ f, {| before := c :: before f; matched := matched f;
             groups := groups f; after := after f |}) <$> search pat s.
Proof. intros Hm. cbn [search]. rewrite Hm. by destruct (search pat s). Qed.

Lemma search_Some pat s m :
  search pat s = Some m →
  s = before m ++ matched m ++ after m
  ∧ matchAt pat (matched m ++ after m) = Some (groups m, after m)
  ∧ ∀ i, (i < length (before m))%nat → matchAt pat (drop i s) = None.
Proof.
  revert m. induction s as [|c s IH]; intros m.
  - destruct (matchAt pat []) as [[caps rest]|] eqn:Em.
    + destruct (search_here _ _ _ _ Em) as (mt & E & ->). intros [= <-].
      cbn [before matched groups after]. rewrite <- E.
      split; [done|]. split; [done|]. intros i Hi. simpl in Hi. lia.
    + simpl. by rewrite Em.
  - destruct (matchAt pat (c :: s)) as [[caps rest]|] eqn:Em.
    + destruct (search_here _ _ _ _ Em) as (mt & E & ->). intros [= <-].
      cbn [before matched groups after]. rewrite <- E.
      split; [done|]. split; [done|]. intros i Hi. simpl in Hi. lia.
    + rewrite (search_later _ _ _ Em).
      destruct (search pat s) as [f|] eqn:Es; [|done].
      intros [= <-]. cbn [before matched groups after].
      destruct (IH f eq_refl) as (E & Hm & Hleft).
      split; [simpl; congruence|]. split; [done|].
      intros [|i] Hi; [exact Em|]. simpl. apply Hleft. simpl in Hi. lia.
Qed.

Lemma search_None pat s :
  search pat s = None → ∀ i, matchAt pat (drop i s) = None.
Proof.
  induction s as [|c s IH].
  - simpl. destruct (matchAt pat []) as [[caps rest]|] eqn:Em; [done|].
    intros _ i. by rewrite drop_nil.
  - cbn [search]. destruct (matchAt pat (c :: s)) as [[caps rest]|] eqn:Em; [done|].
    destruct (search pat s) as [f|] eqn:Es; [done|].
    intros _ [|i]; [done|]. simpl. by apply IH.
Qed.

(** ** Global replacement *)

Lemma replaceFuel_enough pat f s fuel :
  (length s < fuel)%nat →
  replaceFuel fuel pat f s = replaceFuel (S (length s)) pat f s.
Proof.
  remember (length s) as n eqn:Hn. revert s Hn fuel.
  induction n as [n IH] using lt_wf_ind. intros s Hn [|fuel] Hf; [lia|].
  cbn [replaceFuel]. destruct (search pat s) as [m|] eqn:Es; [|done].
  apply search_Some in Es as (E & _ & _).
  apply (f_equal length) in E. rewrite !length_app in E.
  do 2 f_equal. destruct (matched m) as [|x mt], (after m) as [|c r]; simpl in E; try done.
  - f_equal. rewrite (IH (length r)); [|lia|done|lia].
    symmetry. apply (IH (length r)); [lia|done|lia].
  - rewrite (IH 0%nat); [|lia|done|lia]. symmetry. apply (IH 0%nat); [lia|done|lia].
  - rewrite (IH (length (c :: r))); [|simpl; lia|done|simpl; lia].
    symmetry. apply (IH (length (c :: r))); [simpl; lia|done|simpl; lia].
Qed.

Lemma replaceAll_unfold pat f s :
  replaceAll pat f s =
    match search pat s with
    | None => s
    | Some m =>
        before m ++ f (matched m) (groups m) ++
        match matched m, after m with
        | [], [] => []
        | [], c :: r => c :: replaceAll pat f r
        | _ :: _, r => replaceAll pat f r
        end
    end.
Proof.
  unfold replaceAll. cbn [replaceFuel].
  destruct (search pat s) as [m|] eqn:Es; [|done].
  apply search_Some in Es as (E & _ & _).
  apply (f_equal length) in E. rewrite !length_app in E.
  do 2 f_equal. destruct (matched m) as [|x mt], (after m) as [|c r]; simpl in E; try done.
  - f_equal. apply replaceFuel_enough. lia.
  - apply replaceFuel_enough. simpl. lia.
  - apply replaceFuel_enough. simpl. lia.
Qed.

Lemma replaceAll_no_match pat f s :
  search pat s = None → replaceAll pat f s = s.
Proof. intros Es. by rewrite replaceAll_unfold, Es. Qed.


(** ** Placeholders *)

Lemma except_all c s : Forall (λ x, except c x = true) s ↔ c ∉ s.
Proof.
  unfold except. induction s as [|x s IH].
  - split; [intros _ Hin; inversion Hin|constructor].
  - rewrite Forall_cons, IH, not_elem_of_cons, negb_true_iff, N.eqb_neq.
    split; intros [? ?]; split; auto.
Qed.

Lemma placeholder_matchAt s caps rest :
  matchAt placeholderRegex s = Some (caps, rest) →
  ∃ path, caps = [path] ∧ s = placeholder path ++ rest
          ∧ path ≠ [] ∧ 125 ∉ path.
Proof.
  intros Hm. apply matchAt_sound in Hm. unfold placeholderRegex in Hm.
  inversion Hm as [|? ? c1 s1 ? ? Hc1 Hm1|]; subst.
  inversion Hm1 as [|? ? c2 s2 ? ? Hc2 Hm2|]; subst.
  inversion Hm2 as [| |? ? ? path s3 caps3 ? Hne Hall Hm3]; subst.
  inversion Hm3 as [|? ? c4 s4 ? ? Hc4 Hm4|]; subst.
  inversion Hm4 as [|? ? c5 s5 ? ? Hc5 Hm5|]; subst.
  inversion Hm5; subst.
  unfold exactly in *. apply N.eqb_eq in Hc1, Hc2, Hc4, Hc5. subst.
  exists path. split; [done|]. split; [|split; [done|by apply except_all]].
  unfold placeholder. simpl. by rewrite <- app_assoc.
Qed.

Lemma placeholder_matchAt_here path post :
  path ≠ [] → 125 ∉ path →
  matchAt placeholderRegex (placeholder path ++ post) = Some ([path], post).
Proof.
  intros Hne Hno. unfold placeholder, placeholderRegex.
  cbn [app matchAt exactly N.eqb Pos.eqb].
  rewrite <- app_assoc. cbn [app].
  rewrite takeWhile_app_stop; [|by apply except_all|done].
  destruct path as [|x path]; [done|]. cbn [length tryRuns].
  change (S (length path)) with (length (x :: path)).
  rewrite drop_app_length, take_app_length. done.
Qed.


Lemma search_complete pat s i :
  is_Some (matchAt pat (drop i s)) → is_Some (search pat s).
Proof.
  intros Hm. destruct (search pat s) eqn:Es; [done|].
  rewrite (search_None _ _ Es) in Hm. by destruct Hm.
Qed.

Lemma hasPlaceholder_search s :
  hasPlaceholder s ↔ is_Some (search placeholderRegex s).
Proof.
  split.
  - intros (pre & path & post & -> & Hne & Hno).
    apply (search_complete _ _ (length pre)).
    rewrite drop_app_length, placeholder_matchAt_here; done.
  - intros [m Es]. apply search_Some in Es as (E & Hm & _).
    apply placeholder_matchAt in Hm as (path & _ & Hs & Hne & Hno).
    exists (before m), path, (after m). by rewrite <- Hs.
Qed.

Section interpolation.
Context `{Engine}.



(** [JSON.stringify] answers [undefined] for [undefined] only, and never
    the empty string for what is not a number. *)
Lemma JSON_stringify_defined v :
  v ≠ VUndef → is_Some (JSON_stringify v).
Proof. destruct v; simpl; try done; eauto. Qed.

Lemma JSON_stringify_nonempty v t :
  JSON_stringify v = Some t → (∀ q, v ≠ VNum q) → t ≠ [].
Proof.
  destruct v as [| |[]|q|s|l|ps]; simpl; intros [= <-] Hq; try done.
  by destruct (Hq q).
Qed.

End interpolation.


(** C10. Template interpolation is the identity on a string in which no
    placeholder occurs. *)
Theorem interpolateTemplate_identity `{Engine}
    (bag : gmap jsstring jsval) (template : jsstring) :
  ¬ hasPlaceholder template → interpolateTemplate bag template = template.
Proof.
  intros Hno. apply replaceAll_no_match.
  destruct (search placeholderRegex template) eqn:Es; [|done].
  destruct Hno. apply hasPlaceholder_search. by rewrite Es.
Qed.

Lemma interpolateTemplate_identity_witness :
  ¬ hasPlaceholder (lit "Rain today? {not a placeholder} {{}}")
  ∧ @interpolateTemplate exactEngine ∅
      (lit "Rain today? {not a placeholder} {{}}")
    = lit "Rain today? {not a placeholder} {{}}".
Proof.
  assert (¬ hasPlaceholder (lit "Rain today? {not a placeholder} {{}}")) as Hno.
  { intros Hp%hasPlaceholder_search. vm_compute in Hp. by destruct Hp. }
  split; [exact Hno|].
  exact (@interpolateTemplate_identity exactEngine ∅ _ Hno).
Defined.


(** ** Guards *)

Lemma containsRegex_atoms :
  containsRegex =
    [Many1 true isWord; Many1 false isSpace;
     One (letter_i 99); One (letter_i 111); One (letter_i 110);
     One (letter_i 116); One (letter_i 97); One (letter_i 105);
     One (letter_i 110); One (letter_i 115);
     Many1 false isSpace; One (exactly 39); Many1 true (except 39);
     One (exactly 39)].
Proof. reflexivity. Qed.

Lemma matches_nil_inv s caps rest :
  matches [] s caps rest → caps = [] ∧ rest = s.
Proof. by inversion 1. Qed.

Lemma matches_one_inv p pat s caps rest :
  matches (One p :: pat) s caps rest →
  ∃ c s', s = c :: s' ∧ p c = true ∧ matches pat s' caps rest.
Proof. inversion 1; subst. eauto. Qed.

Lemma matches_many_inv cap p pat s caps rest :
  matches (Many1 cap p :: pat) s caps rest →
  ∃ run s' caps', s = run ++ s' ∧ run ≠ [] ∧ Forall (λ c, p c = true) run
    ∧ matches pat s' caps' rest
    ∧ caps = (if cap then run :: caps' else caps').
Proof. inversion 1; subst. eauto 10. Qed.

(** What the pattern of guards matches at the start of an input. *)
Lemma contains_matches s caps rest :
  matches containsRegex s caps rest ↔
  ∃ ident literal, caps = [ident; literal] ∧ guardShape s [] ident literal rest.
Proof.
  rewrite containsRegex_atoms. split.
  - intros Hm.
    apply matches_many_inv in Hm as (ident & s1 & caps1 & -> & Hi & Hiw & Hm & ->).
    apply matches_many_inv in Hm as (ws1 & s2 & caps2 & -> & Hw1 & Hw1s & Hm & ->).
    apply matches_one_inv in Hm as (c1 & ? & -> & Hc1 & Hm).
    apply matches_one_inv in Hm as (c2 & ? & -> & Hc2 & Hm).
    apply matches_one_inv in Hm as (c3 & ? & -> & Hc3 & Hm).
    apply matches_one_inv in Hm as (c4 & ? & -> & Hc4 & Hm).
    apply matches_one_inv in Hm as (c5 & ? & -> & Hc5 & Hm).
    apply matches_one_inv in Hm as (c6 & ? & -> & Hc6 & Hm).
    apply matches_one_inv in Hm as (c7 & ? & -> & Hc7 & Hm).
    apply matches_one_inv in Hm as (c8 & ? & -> & Hc8 & Hm).
    apply matches_many_inv in Hm as (ws2 & s3 & caps3 & -> & Hw2 & Hw2s & Hm & ->).
    apply matches_one_inv in Hm as (q1 & ? & -> & Hq1 & Hm).
    apply matches_many_inv in Hm as (literal & s4 & caps4 & -> & Hl & Hlq & Hm & ->).
    apply matches_one_inv in Hm as (q2 & ? & -> & Hq2 & Hm).
    apply matches_nil_inv in Hm as [-> ->].
    apply N.eqb_eq in Hq1 as ->, Hq2 as ->.
    exists ident, literal. split; [done|].
    exists ws1, [c1; c2; c3; c4; c5; c6; c7; c8], ws2.
    split; [done|]. repeat split; try done.
    + unfold isContainsWord. repeat constructor; done.
    + by apply except_all.
  - intros (ident & literal & -> & ws1 & kw & ws2 & -> & Hi & Hiw & Hw1 & Hw1s
            & Hkw & Hw2 & Hw2s & Hl & Hlq).
    unfold isContainsWord in Hkw.
    repeat match goal with
      | Hf : Forall2 _ _ (lit _) |- _ => vm_compute lit in Hf
      | Hf : Forall2 _ _ (_ :: _) |- _ => apply Forall2_cons_inv_r in Hf as (? & ? & ? & Hf & ->)
      | Hf : Forall2 _ _ [] |- _ => apply Forall2_nil_inv_r in Hf as ->
      end.
    simpl app.
    apply (matches_many true isWord); [done..|].
    apply (matches_many false isSpace); [done..|].
    repeat (apply matches_one; [done|]).
    apply (matches_many false isSpace); [done..|].
    apply matches_one; [done|].
    apply (matches_many true (except 39)); [done|by apply except_all|].
    apply matches_one; [done|]. constructor.
Qed.

Lemma contains_matchAt s caps rest :
  matchAt containsRegex s = Some (caps, rest) →
  ∃ ident literal, caps = [ident; literal] ∧ guardShape s [] ident literal rest.
Proof. intros Hm. by apply contains_matches, matchAt_sound. Qed.

Lemma guardShape_prefix pre s ident literal post :
  guardShape s [] ident literal post → guardShape (pre ++ s) pre ident literal post.
Proof.
  intros (ws1 & kw & ws2 & -> & Hrest). exists ws1, kw, ws2. by split.
Qed.

(** [guardOf] reads guards of the grammar, and nothing else. *)
Lemma guardOf_shape c ident literal :
  guardOf c = Some (ident, literal) →
  ∃ pre post, guardShape c pre ident literal post.
Proof.
  unfold guardOf. destruct (includes c (lit "contains")); [|done].
  destruct (search containsRegex c) as [m|] eqn:Es; [|done].
  apply search_Some in Es as (E & Hm & _).
  apply contains_matchAt in Hm as (i & l & -> & Hshape).
  intros [= <- <-]. exists (before m), (after m). rewrite E.
  by apply guardShape_prefix.
Qed.

Lemma guardOf_found c pre ident literal post :
  includes c (lit "contains") = true →
  guardShape c pre ident literal post → is_Some (guardOf c).
Proof.
  intros Hinc Hshape. unfold guardOf. rewrite Hinc.
  assert (is_Some (search containsRegex c)) as [m Es].
  { apply (search_complete _ _ (length pre)).
    destruct Hshape as (ws1 & kw & ws2 & -> & Hrest).
    rewrite drop_app_length. apply (matchAt_complete _ _ [ident; literal] post).
    apply contains_matches. exists ident, literal. split; [done|].
    exists ws1, kw, ws2. by split. }
  rewrite Es. apply search_Some in Es as (_ & Hm & _).
  apply contains_matchAt in Hm as (i & l & -> & _). done.
Qed.

Lemma guardOf_none_iff c :
  guardOf c = None ↔
  includes c (lit "contains") = false
  ∨ ¬ ∃ pre ident literal post, guardShape c pre ident literal post.
Proof.
  split.
  - intros Hnone. destruct (includes c (lit "contains")) eqn:Hinc; [|by left].
    right. intros (pre & ident & literal & post & Hshape).
    destruct (guardOf_found _ _ _ _ _ Hinc Hshape) as [? Hs]. congruence.
  - intros [Hinc | Hno].
    + unfold guardOf. by rewrite Hinc.
    + destruct (guardOf c) as [[ident literal]|] eqn:Hg; [|done].
      destruct Hno. apply guardOf_shape in Hg as (pre & post & Hshape). eauto.
Qed.

Lemma matchAt_one p pat c s :
  p c = true → matchAt (One p :: pat) (c :: s) = matchAt pat s.
Proof. intros Hp. simpl. by rewrite Hp. Qed.

Lemma takeWhile_app p run s :
  Forall (λ c, p c = true) run →
  takeWhile p (run ++ s) = run ++ takeWhile p s.
Proof. induction 1 as [|x run Hx _ IH]; simpl; [done|]. by rewrite Hx, IH. Qed.

(** A greedy run that stops where the rest of the pattern matches. *)
Lemma matchAt_many_stop cap p pat run s caps rest :
  run ≠ [] → Forall (λ c, p c = true) run → takeWhile p s = [] →
  matchAt pat s = Some (caps, rest) →
  matchAt (Many1 cap p :: pat) (run ++ s)
  = Some (if cap then run :: caps else caps, rest).
Proof.
  intros Hne Hall Hstop Hm. cbn [matchAt].
  rewrite takeWhile_app, Hstop, app_nil_r by done.
  destruct run as [|x run]; [done|]. cbn [length tryRuns].
  change (S (length run)) with (length (x :: run)).
  by rewrite drop_app_length, take_app_length, Hm.
Qed.

(** The canonical spelling of a guard is read back. *)
Lemma guardOf_canonical ident literal :
  ident ≠ [] → Forall (λ x, isWord x = true) ident →
  literal ≠ [] → 39 ∉ literal →
  guardOf (ident ++ lit " contains '" ++ literal ++ lit "'")
  = Some (ident, literal).
Proof.
  intros Hi Hiw Hl Hlq. unfold guardOf.
  assert (includes (ident ++ lit " contains '" ++ literal ++ lit "'")
            (lit "contains") = true) as ->.
  { apply includes_spec. exists (ident ++ lit " "), (lit " '" ++ literal ++ lit "'").
    by rewrite <- !app_assoc. }
  assert (matchAt containsRegex (ident ++ lit " contains '" ++ literal ++ lit "'")
          = Some ([ident; literal], [])) as Hm.
  { rewrite containsRegex_atoms.
    apply (matchAt_many_stop true); [done|done|reflexivity|].
    apply (matchAt_many_stop false isSpace _ [32]);
      [done|by repeat constructor|reflexivity|].
    do 8 (rewrite matchAt_one by reflexivity).
    apply (matchAt_many_stop false isSpace _ [32]);
      [done|by repeat constructor|reflexivity|].
    rewrite matchAt_one by reflexivity.
    apply (matchAt_many_stop true); [done|by apply except_all|reflexivity|].
    reflexivity. }
  destruct (search_here _ _ _ _ Hm) as (mt & _ & ->). done.
Qed.

Section guards.
Context `{Engine}.


End guards.


(** A guard that is not a string holds. *)
Lemma evaluateCondition_not_string `{Engine} bag condition :
  typeofString condition = false → evaluateCondition bag condition = true.
Proof. by destruct condition. Qed.

(** The example of the specification: [weather_data contains 'rain']. *)
Example guard_rain :
  guardOf (lit "weather_data contains 'rain'")
  = Some (lit "weather_data", lit "rain")
  ∧ @evaluateCondition exactEngine {[ lit "weather_data" := VStr (lit "Light Rain") ]}
      (VStr (lit "weather_data contains 'rain'")) = true
  ∧ @evaluateCondition exactEngine {[ lit "weather_data" := VStr (lit "clear sky") ]}
      (VStr (lit "weather_data contains 'rain'")) = false
  ∧ @evaluateCondition exactEngine ∅
      (VStr (lit "weather_data contains 'rain'")) = true.
Proof. repeat split; vm_compute; reflexivity. Qed.

(** The word [contains] is looked for twice: by [includes], which tells
    upper case from lower case, and by the pattern, which does not.  A
    guard whose only [contains] is in upper case is not read as a guard
    (and the step runs); with a lower-case [contains] anywhere in it, the
    upper-case one is read. *)
Example guard_keyword_case :
  guardOf (lit "weather_data CONTAINS 'rain'") = None
  ∧ @evaluateCondition exactEngine
      {[ lit "weather_data" := VStr (lit "clear sky") ]}
      (VStr (lit "weather_data CONTAINS 'rain'")) = true
  ∧ guardOf (lit "contains: weather_data CONTAINS 'rain'")
    = Some (lit "weather_data", lit "rain")
  ∧ @evaluateCondition exactEngine
      {[ lit "weather_data" := VStr (lit "clear sky") ]}
      (VStr (lit "contains: weather_data CONTAINS 'rain'")) = false.
Proof. repeat split; vm_compute; reflexivity. Qed.

(** ** The response formatter *)

Ltac lit_lengths :=
  repeat match goal with
    | |- context [length (lit ?s)] =>
        let n := eval vm_compute in (length (lit s)) in
        change (length (lit s)) with n
    end.

Lemma trim_fixed c s d :
  isSpace c = false → isSpace d = false →
  trim (c :: s ++ [d]) = c :: s ++ [d].
Proof.
  intros Hc Hd. unfold trim.
  assert (dropWhile isSpace (c :: s ++ [d]) = c :: s ++ [d]) as ->.
  { simpl. by rewrite Hc. }
  assert (reverse (c :: s ++ [d]) = d :: reverse s ++ [c]) as Hrev.
  { by rewrite reverse_cons, reverse_app, reverse_singleton. }
  assert (dropWhile isSpace (reverse (c :: s ++ [d])) = reverse (c :: s ++ [d])) as ->.
  { rewrite Hrev. simpl. by rewrite Hd. }
  apply reverse_involutive.
Qed.

Lemma Ok_inj {A} (a b : A) : Ok a = Ok b → a = b.
Proof. by intros [= ->]. Qed.

Section formatter_facts.
Context `{Engine}.

Lemma acknowledgment_length farmerQuery weather :
  let n := length (acknowledgment farmerQuery weather) in
  n = 32%nat ∨ n = 33%nat ∨ n = 44%nat ∨ (85 ≤ n)%nat.
Proof.
  unfold acknowledgment.
  repeat match goal with |- context [if ?b then _ else _] => destruct b end;
    rewrite ?length_app; vm_compute; lia.
Qed.

Lemma acknowledgment_head farmerQuery weather :
  ∃ c t, acknowledgment farmerQuery weather = c :: t ∧ isSpace c = false.
Proof.
  unfold acknowledgment.
  repeat match goal with |- context [if ?b then _ else _] => destruct b end;
    eexists _, _; (split; [reflexivity|reflexivity]).
Qed.

Lemma weatherContext_substantial weather t :
  weatherContext weather = Ok t → substantial t.
Proof.
  unfold weatherContext, substantial. destruct (truthy weather); [|intros <-%Ok_inj; by left].
  destruct (getProp weather _) as [main|]; [|done]. cbn [mbind res_bind].
  destruct (getProp main (lit "temp")) as [temp|]; [|done]. cbn [mbind res_bind].
  destruct (getProp main (lit "humidity")) as [humidity|]; [|done]. cbn [mbind res_bind].
  intros <-%Ok_inj. right. rewrite !length_app. lit_lengths. lia.
Qed.

Lemma soilInformation_substantial soil t :
  soilInformation soil = Ok t → substantial t.
Proof.
  unfold soilInformation, substantial. destruct (hasSamples soil); [|intros <-%Ok_inj; by left].
  destruct (getProp _ _) as [moisture|]; [|done]. cbn [mbind res_bind].
  intros <-%Ok_inj. right. rewrite !length_app. lit_lengths. lia.
Qed.

Lemma diseaseInformation_substantial disease :
  substantial (diseaseInformation disease).
Proof.
  unfold diseaseInformation, substantial. destruct (truthy disease); [|by left].
  right. destruct (_ && _); rewrite ?length_app; lit_lengths; lia.
Qed.

Lemma allocationInformation_substantial allocation t :
  allocationInformation allocation = Ok t → substantial t.
Proof.
  unfold allocationInformation, substantial.
  destruct (truthy allocation); [|intros <-%Ok_inj; by left].
  destruct (getProp allocation _) as [inner|]; [|done]. cbn [mbind res_bind].
  destruct (getProp inner (lit "approved_percent")) as [approved|]; [|done]. cbn [mbind res_bind].
  destruct (getProp inner (lit "delivery_schedule")) as [schedule|]; [|done]. cbn [mbind res_bind].
  intros <-%Ok_inj. right. rewrite !length_app. lit_lengths. lia.
Qed.

(** The assembled text starts with a letter and never has exactly fifty
    units. *)
Lemma assembleResponse_shape bag response :
  assembleResponse bag = Ok response →
  (∃ c t, response = c :: t ∧ isSpace c = false)
  ∧ length response ≠ 50%nat.
Proof.
  unfold assembleResponse.
  destruct (if nullish _ then _ else _) as [asString|]; [|done]. cbn [mbind res_bind].
  set (farmerQuery := match orElse asString _ with VStr s => s | _ => [] end).
  destruct (weatherContext _) as [w|] eqn:Hw; [|done]. cbn [mbind res_bind].
  destruct (soilInformation _) as [s|] eqn:Hs; [|done]. cbn [mbind res_bind].
  destruct (allocationInformation _) as [a|] eqn:Ha; [|done]. cbn [mbind res_bind].
  intros <-%Ok_inj.
  apply weatherContext_substantial in Hw. apply soilInformation_substantial in Hs.
  apply allocationInformation_substantial in Ha.
  pose proof (diseaseInformation_substantial (bagGet bag (lit "disease_report"))) as Hd.
  pose proof (acknowledgment_length farmerQuery (bagGet bag (lit "weather_data"))) as Hk.
  destruct (acknowledgment_head farmerQuery (bagGet bag (lit "weather_data")))
    as (c & t & Hack & Hc).
  split.
  - rewrite Hack. eauto.
  - rewrite !length_app. simpl in Hk. unfold substantial in *.
    destruct Hw as [->|Hw], Hs as [->|Hs], Hd as [->|Hd], Ha as [->|Ha];
      simpl length; lia.
Qed.
End formatter_facts.



(** With the fallback weather record in the bag the text is long enough:
    it is returned with the tips. *)
Example formatter_with_weather :
  ∃ response,
    @assembleResponse exactEngine
      {[ lit "inputs" := farmerInput waterQuery;
         lit "weather_data" := fallbackWeather ]}
    = Ok response
    ∧ length response = 91%nat
    ∧ @simulateResponseFormatter exactEngine
        {[ lit "inputs" := farmerInput waterQuery;
           lit "weather_data" := fallbackWeather ]}
      = Ok (VStr (response ++ farmingTips)).
Proof. eexists. split; [vm_compute; reflexivity|]. split; reflexivity. Qed.

(** The formatter throws exactly when the assembly does. *)
Lemma simulateResponseFormatter_throws `{Engine} bag e :
  assembleResponse bag = Throw e ↔ simulateResponseFormatter bag = Throw e.
Proof.
  unfold simulateResponseFormatter.
  destruct (assembleResponse bag); cbn [mbind res_bind]; split; congruence.
Qed.

(** ** Rounding *)

Section rounding.
Context `{E : Engine} {L : RoundingLaws E}.
Local Open Scope Q_scope.

#[local] Instance fl_proper : Proper (Qeq ==> Qeq) fl.
Proof.
  intros x y Hxy. apply Qle_antisym; apply fl_monotone; rewrite Hxy; apply Qle_refl.
Qed.

Lemma fl_grid x m :
  (Z.abs m <= 2 ^ 52)%Z → x == m # 2 ^ 20 → fl x == x.
Proof. intros Hm ->. by apply fl_exact. Qed.

Lemma fl_int z : (Z.abs z <= 2 ^ 32)%Z → fl (inject_Z z) == inject_Z z.
Proof.
  intros Hz. apply (fl_grid _ (z * 2 ^ 20)); [lia|].
  unfold Qeq. simpl. lia.
Qed.

Lemma fl_between lo hi x :
  fl lo == lo → fl hi == hi → lo <= x <= hi → lo <= fl x <= hi.
Proof.
  intros Hlo Hhi [H1 H2]. split.
  - rewrite <- Hlo. by apply fl_monotone.
  - rewrite <- Hhi. by apply fl_monotone.
Qed.

Lemma fl_near x :
  -(2147483648) <= x <= 2147483648 → x - eps <= fl x <= x + eps.
Proof.
  intros [Hlo Hhi]. set (m := Qfloor (x * 1048576)).
  pose proof (Qfloor_le (x * 1048576)) as Hf1.
  pose proof (Qlt_floor (x * 1048576)) as Hf2. fold m in Hf1, Hf2.
  assert (m <= 2 ^ 51)%Z as Hm1.
  { rewrite Zle_Qle. change (inject_Z (2 ^ 51)) with (2147483648 * 1048576). lra. }
  assert (- 2 ^ 51 <= m + 1)%Z as Hm2.
  { rewrite Zle_Qle. apply Qlt_le_weak.
    change (inject_Z (- 2 ^ 51)) with (-(2147483648) * 1048576). lra. }
  assert (m # 2 ^ 20 == inject_Z m / 1048576) as Hq1 by apply Qmake_Qdiv.
  assert ((m + 1)%Z # 2 ^ 20 == inject_Z (m + 1) / 1048576) as Hq2 by apply Qmake_Qdiv.
  pose proof (fl_exact m ltac:(lia)) as He1.
  pose proof (fl_exact (m + 1) ltac:(lia)) as He2.
  assert (m # 2 ^ 20 <= x) as Hx1.
  { rewrite Hq1. apply Qle_shift_div_r; [reflexivity|done]. }
  assert (x <= (m + 1)%Z # 2 ^ 20) as Hx2.
  { rewrite Hq2. apply Qle_shift_div_l; [reflexivity|by apply Qlt_le_weak]. }
  pose proof (fl_monotone _ _ Hx1) as Hl. pose proof (fl_monotone _ _ Hx2) as Hu.
  rewrite He1 in Hl. rewrite He2 in Hu.
  assert (inject_Z (m + 1) == inject_Z m + 1) as Hplus by (by rewrite inject_Z_plus).
  assert (x * 1048576 < inject_Z m + 1) as Hf2' by (by rewrite <- Hplus).
  unfold eps. change (1 # 1048576) with (1 / 1048576).
  rewrite Hq1 in Hl. rewrite Hq2, Hplus in Hu.
  split.
  - apply Qle_trans with (inject_Z m / 1048576); [|done].
    apply Qle_shift_div_l; [reflexivity|]. field_simplify. lra.
  - apply Qle_trans with ((inject_Z m + 1) / 1048576); [done|].
    apply Qle_shift_div_r; [reflexivity|]. field_simplify. lra.
Qed.

Lemma fl_const (c : Q) m :
  (Z.abs m <= 2 ^ 52)%Z → c == m # 2 ^ 20 → fl c == c.
Proof. apply fl_grid. Qed.

Lemma fl_0 : fl 0 == 0.
Proof. by apply (fl_int 0). Qed.

Lemma Math_round_le (x : Q) (z : Z) :
  x + (1 # 2) < inject_Z (z + 1) → (Qfloor (x + (1 # 2)) <= z)%Z.
Proof.
  intros Hx. pose proof (Qfloor_le (x + (1 # 2))) as Hf.
  apply Z.lt_succ_r. rewrite Zlt_Qlt. unfold Z.succ. lra.
Qed.

Lemma Math_round_ge (x : Q) (z : Z) :
  inject_Z z <= x + (1 # 2) → (z <= Qfloor (x + (1 # 2)))%Z.
Proof.
  intros Hx. rewrite <- (Qfloor_Z z). by apply Qfloor_resp_le.
Qed.

(** The three numbers of a sample, from draws in [0, 1). *)
Lemma soilSample_inRange w currentDate hour n :
  (∀ i, 0 <= random w i < 1) →
  sampleInRange (soilSample w currentDate hour n).
Proof.
  intros Hr. unfold sampleInRange, soilSample. cbn [t0 t10 moisture].
  unfold fdiv, fmul, fadd, fsub, Math_round.
  repeat match goal with
    | |- context [?a / 100] => change (a / 100) with (a * (1 # 100))
    end.
  destruct (Hr n) as [Ha1 Ha2], (Hr (S n)) as [Hb1 Hb2], (Hr (S (S n))) as [Hc1 Hc2].
  set (r1 := random w n) in *. set (r2 := random w (S n)) in *.
  set (r3 := random w (S (S n))) in *.
  assert (fl 7 == 7) as E7 by apply (fl_int 7 ltac:(done)).
  assert (fl 293 == 293) as E293 by apply (fl_int 293 ltac:(done)).
  assert (fl 300 == 300) as E300 by apply (fl_int 300 ltac:(done)).
  assert (fl 29300 == 29300) as E29300 by apply (fl_int 29300 ltac:(done)).
  assert (fl 30000 == 30000) as E30000 by apply (fl_int 30000 ltac:(done)).
  assert (fl (3 # 2) == 3 # 2) as E32 by (by apply (fl_const _ (3 * 2 ^ 19))).
  assert (fl 3 == 3) as E3 by apply (fl_int 3 ltac:(done)).
  pose proof fl_0 as E0.
  (* the surface temperature *)
  assert (fl (300 - 293) == 7) as Ew.
  { transitivity (fl 7); [apply fl_proper; lra|exact E7]. }
  set (x1 := fl (r1 * fl (300 - 293))).
  assert (0 <= x1 <= 7) as Hx1.
  { apply fl_between; [done..|]. rewrite Ew. lra. }
  set (x2 := fl (x1 + 293)).
  assert (293 <= x2 <= 300) as Hx2 by (apply fl_between; [done..|lra]).
  set (x3 := fl (x2 * 100)).
  assert (29300 <= x3 <= 30000) as Hx3 by (apply fl_between; [done..|lra]).
  set (N0 := Qfloor (x3 + (1 # 2))).
  assert (29300 <= N0 <= 30000)%Z as HN0.
  { split; [apply Math_round_ge; change (inject_Z 29300) with 29300
           |apply Math_round_le; change (inject_Z (30000 + 1)) with 30001]; lra. }
  assert (29300 <= inject_Z N0 <= 30000) as HN0q.
  { split; [change 29300 with (inject_Z 29300)|change 30000 with (inject_Z 30000)];
      rewrite <- Zle_Qle; lia. }
  set (T0 := fl (inject_Z N0 * (1 # 100))).
  assert (inject_Z N0 * (1 # 100) - eps <= T0 <= inject_Z N0 * (1 # 100) + eps) as HT0.
  { apply fl_near. lra. }
  (* the temperature below the surface *)
  assert (fl (3 - (3 # 2)) == 3 # 2) as Ed.
  { transitivity (fl (3 # 2)); [apply fl_proper; lra|exact E32]. }
  set (y1 := fl (r2 * fl (3 - (3 # 2)))).
  assert (0 <= y1 <= 3 # 2) as Hy1.
  { apply fl_between; [done..|]. rewrite Ed. lra. }
  set (y2 := fl (y1 + (3 # 2))).
  assert ((3 # 2) <= y2 <= 3) as Hy2 by (apply fl_between; [done..|lra]).
  set (y3 := fl (T0 - y2)).
  assert (T0 - y2 - eps <= y3 <= T0 - y2 + eps) as Hy3.
  { apply fl_near. unfold eps in *. lra. }
  set (y4 := fl (y3 * 100)).
  assert (y3 * 100 - eps <= y4 <= y3 * 100 + eps) as Hy4.
  { apply fl_near. unfold eps in *. lra. }
  set (N1 := Qfloor (y4 + (1 # 2))).
  assert (N1 <= N0 - 150)%Z as HN1.
  { apply Math_round_le. replace (N0 - 150 + 1)%Z with (N0 + -149)%Z by lia.
    rewrite inject_Z_plus. change (inject_Z (-149)) with (-149). unfold eps in *. lra. }
  assert (200 <= N1)%Z as HN1lo.
  { apply Math_round_ge. change (inject_Z 200) with 200. unfold eps in *. lra. }
  assert (inject_Z N1 <= inject_Z N0 - 150) as HN1q.
  { pose proof HN1 as Hq. rewrite Zle_Qle in Hq. unfold Z.sub in Hq.
    rewrite inject_Z_plus in Hq. exact Hq. }
  assert (200 <= inject_Z N1) as HN1q'.
  { change 200 with (inject_Z 200). rewrite <- Zle_Qle. lia. }
  set (T10 := fl (inject_Z N1 * (1 # 100))).
  assert (inject_Z N1 * (1 # 100) - eps <= T10 <= inject_Z N1 * (1 # 100) + eps) as HT10.
  { apply fl_near. lra. }
  split.
  { unfold eps in *. lra. }
  (* the moisture *)
  set (c26 := fl (26 # 100)). set (c18 := fl (18 # 100)).
  assert ((26 # 100) - eps <= c26 <= (26 # 100) + eps) as Hc26 by (apply fl_near; lra).
  assert ((18 # 100) - eps <= c18 <= (18 # 100) + eps) as Hc18 by (apply fl_near; lra).
  set (wd := fl (c26 - c18)).
  assert (0 <= wd <= (8 # 100) + 3 * eps) as Hwd.
  { split.
    - rewrite <- E0. apply fl_monotone. unfold eps in *. lra.
    - assert (wd <= c26 - c18 + eps) by (apply fl_near; unfold eps in *; lra).
      unfold eps in *. lra. }
  assert (0 <= r3 * wd <= wd) as Hprod.
  { split; [apply Qmult_le_0_compat; lra|].
    rewrite <- (Qmult_1_l wd) at 2. apply Qmult_le_compat_r; lra. }
  set (z1 := fl (r3 * wd)).
  assert (0 <= z1 <= (8 # 100) + 4 * eps) as Hz1.
  { split.
    - rewrite <- E0. apply fl_monotone. lra.
    - assert (z1 <= r3 * wd + eps) by (apply fl_near; unfold eps in *; lra).
      unfold eps in *. lra. }
  set (z2 := fl (z1 + c18)).
  assert ((18 # 100) - 2 * eps <= z2 <= (26 # 100) + 6 * eps) as Hz2.
  { assert (z1 + c18 - eps <= z2 <= z1 + c18 + eps)
      by (apply fl_near; unfold eps in *; lra).
    unfold eps in *. lra. }
  set (z3 := fl (z2 * 100)).
  assert (18 - 201 * eps <= z3 <= 26 + 601 * eps) as Hz3.
  { assert (z2 * 100 - eps <= z3 <= z2 * 100 + eps)
      by (apply fl_near; unfold eps in *; lra).
    unfold eps in *. lra. }
  set (M := Qfloor (z3 + (1 # 2))).
  assert (18 <= M <= 26)%Z as HM.
  { split; [apply Math_round_ge; change (inject_Z 18) with 18
           |apply Math_round_le; change (inject_Z (26 + 1)) with 27];
      unfold eps in *; lra. }
  assert (18 <= inject_Z M <= 26) as HMq.
  { split; [change 18 with (inject_Z 18)|change 26 with (inject_Z 26)];
      rewrite <- Zle_Qle; lia. }
  split; apply fl_monotone.
  - lra.
  - lra.
Qed.
End rounding.

(** ** The soil generator *)

Section soil.
Context `{E : Engine}.

Lemma soilLoop_continue w currentDate endDate acc :
  (currentDate ≤ endDate)%Z →
  soilLoop w currentDate endDate acc
  = soilLoop w (currentDate + 1) endDate
      (foldl (pushSample w currentDate) acc [9; 15]%Z).
Proof.
  intros Hle. rewrite (soilLoop_equation_1 w currentDate endDate acc).
  destruct (decide (currentDate ≤ endDate)%Z); [reflexivity|lia].
Qed.

Lemma soilLoop_exit w currentDate endDate acc :
  (endDate < currentDate)%Z → soilLoop w currentDate endDate acc = acc.
Proof.
  intros Hlt. rewrite (soilLoop_equation_1 w currentDate endDate acc).
  destruct (decide (currentDate ≤ endDate)%Z); [lia|reflexivity].
Qed.

Lemma generateSoilData_unfold w n :
  generateSoilData w n =
    (daySamples w 24 n ++ daySamples w 25 (6 + n) ++ daySamples w 26 (12 + n)
     ++ daySamples w 27 (18 + n) ++ daySamples w 28 (24 + n)
     ++ daySamples w 29 (30 + n),
     (36 + n)%nat).
Proof.
  unfold generateSoilData.
  do 6 (rewrite soilLoop_continue by lia). rewrite soilLoop_exit by lia.
  reflexivity.
Qed.
End soil.

(** ** The workflow loop *)

Section loop.
Context `{Engine}.

Lemma getFallbackResult_formatter config w bag :
  nullish config = false →
  getFallbackResult config w bag (VStr (lit "response_formatter"))
  = Ok (VStr fallbackParagraph).
Proof.
  intros Hc. unfold getFallbackResult, getProp. rewrite Hc. reflexivity.
Qed.

Lemma getFallbackResult_returns config w bag stepId :
  nullish config = false →
  ∃ v, getFallbackResult config w bag stepId = Ok v.
Proof.
  intros Hc. unfold getFallbackResult, getProp. rewrite Hc.
  cbn [mbind res_bind]. eauto.
Qed.

Lemma executeCatch_returns config w e st :
  nullish config = false →
  executeCatch config w e st = (Ok (failureResponse e), st).
Proof.
  intros Hc. unfold executeCatch. by rewrite getFallbackResult_formatter.
Qed.
End loop.



(** The hypothesis of C1 is needed: when [yaml.load] answered
    [undefined], the outer [catch] itself throws. *)
Example execute_without_configuration :
  (@execute exactEngine VUndef offlineWorld (farmerInput (lit "Will it rain?"))
     freshState).1
  = Throw (TypeError "Cannot read properties of undefined").
Proof. reflexivity. Qed.

Lemma isStr_true v s : isStr v s = true → v = VStr s.
Proof. destruct v; simpl; try done. by intros ->%bool_decide_eq_true. Qed.

Section rounds.
Context `{Engine}.

(** The three ways a round of a step that is an object can go. *)
Lemma runStep_cases config w step r st :
  nullish step = false → nullish config = false →
  let id := ownProp step (lit "id") in
  let output := toStr (ownProp step (lit "output")) in
  (skips step st = true ∧ runStep config w step r st = (Ok r, st))
  ∨ (∃ v st1,
        skips step st = false ∧ executeStep w step st = (Ok v, st1)
        ∧ runStep config w step r st
          = (Ok (storeResult id v r), bagSet output v st1))
  ∨ (∃ e st1 fallbackResult,
        skips step st = false ∧ executeStep w step st = (Throw e, st1)
        ∧ getFallbackResult config w (workflowResults st1) id
          = Ok fallbackResult
        ∧ runStep config w step r st
          = (Ok (if isStr id (lit "response_formatter")
                 then setFinalAnswer fallbackResult r else r),
             bagSet output fallbackResult st1)).
Proof.
  intros Hs Hc id output. unfold runStep, stepBegin, skips, getProp. rewrite Hs.
  destruct (truthy _ && negb _) eqn:Hg.
  - left. done.
  - right. destruct (executeStep w step st) as [[v|e] st1] eqn:He.
    + left. exists v, st1. done.
    + right. destruct (getFallbackResult_returns config w (workflowResults st1) id Hc)
        as [fb Hfb].
      exists e, st1, fb. split; [done|]. split; [done|]. split; [done|].
      unfold stepEnd, stepCatch, getProp. rewrite Hs. cbn [mbind res_bind].
      fold id. rewrite Hfb. done.
Qed.

Lemma storeResult_flags id v r :
  success (storeResult id v r) = success r
  ∧ error (storeResult id v r) = error r.
Proof.
  unfold storeResult, setFinalAnswer.
  repeat match goal with |- context [if ?b then _ else _] => destruct b end; done.
Qed.

Lemma storeResult_weather id v r :
  weather (storeResult id v r)
  = if isStr id (lit "weather_api") then Some v else weather r.
Proof.
  unfold storeResult, setFinalAnswer.
  repeat match goal with |- context [if ?b then _ else _] => destruct b end; done.
Qed.

(** *** Every handler fails *)


End rounds.





(** *** The weather step *)

Section weather.
Context `{Engine}.

Lemma weatherOf_failed o : requestFailed o → weatherOf o = fallbackWeather.
Proof. destruct o as [|[] body]; simpl; done. Qed.

(** Only the weather provider gives the [weather_api] step a result. *)
Lemma executeStep_weather_api w step st v st1 :
  isStr (ownProp step (lit "id")) (lit "weather_api") = true →
  executeStep w step st = (Ok v, st1) →
  ∃ o, v = weatherOf o
       ∧ o = network w (requested st) (ownProp step (lit "url"))
               (ownProp step (lit "params")).
Proof.
  intros Hid%isStr_true. unfold executeStep, executeModelCall, executeApiCall,
    executePythonCode, getWeatherData. rewrite Hid.
  repeat match goal with
    | |- context [if isStr (VStr (lit "weather_api")) (lit ?s) then _ else _] =>
        let b := eval vm_compute in (isStr (VStr (lit "weather_api")) (lit s)) in
        change (isStr (VStr (lit "weather_api")) (lit s)) with b; cbv iota
    end.
  destruct (isStr _ (lit "model_call")).
  { destruct (orElse _ _); intros [=]. }
  destruct (isStr _ (lit "api_call")); [|destruct (isStr _ (lit "python")); intros [=]].
  intros [= <- <-]. eauto.
Qed.

Lemma executeStep_weatherStep w step st :
  weatherStep step →
  ∃ v st1, executeStep w step st = (Ok v, st1).
Proof.
  intros (Hid & Hty & _). unfold executeStep.
  apply isStr_true in Hty. rewrite Hty.
  change (isStr (VStr (lit "api_call")) (lit "model_call")) with false.
  change (isStr (VStr (lit "api_call")) (lit "api_call")) with true. cbv iota.
  unfold executeApiCall. rewrite Hid. unfold getWeatherData. eauto.
Qed.

Lemma runStep_object config w step r st r' st' :
  runStep config w step r st = (Ok r', st') → nullish step = false.
Proof.
  destruct (nullish step) eqn:Hs; [|done].
  unfold runStep, stepBegin, getProp. rewrite Hs.
  unfold stepEnd, stepCatch, getProp. rewrite Hs. done.
Qed.

Lemma runStep_weather config w step r st r' st' :
  nullish config = false →
  (∀ n url params, requestFailed (network w n url params)) →
  runStep config w step r st = (Ok r', st') →
  (weather r' = weather r ∨ weather r' = Some fallbackWeather)
  ∧ (weather r = Some fallbackWeather ∨ weatherStep step →
     weather r' = Some fallbackWeather)
  ∧ success r' = success r.
Proof.
  intros Hc Hnet Hrun. pose proof (runStep_object _ _ _ _ _ _ _ Hrun) as Hs.
  destruct (runStep_cases config w step r st Hs Hc)
    as [[Hskip Hr] | [(v & st1 & Hskip & He & Hr) | (e & st1 & fb & Hskip & He & Hfb & Hr)]];
    rewrite Hr in Hrun; injection Hrun as <- <-.
  - split; [by left|]. split; [|done].
    intros [Hw | (_ & _ & Hnever)]; [done|]. unfold skips in Hskip. by rewrite Hnever in Hskip.
  - rewrite storeResult_weather. split; [|split; [|apply storeResult_flags]].
    + destruct (isStr _ (lit "weather_api")) eqn:Hid; [|by left].
      right. destruct (executeStep_weather_api _ _ _ _ _ Hid He) as (o & -> & ->).
      by rewrite weatherOf_failed.
    + destruct (isStr _ (lit "weather_api")) eqn:Hid.
      * intros _. destruct (executeStep_weather_api _ _ _ _ _ Hid He) as (o & -> & ->).
        by rewrite weatherOf_failed.
      * intros [Hw | (Hid' & _)]; [done|congruence].
  - assert (weather (if isStr (ownProp step (lit "id")) (lit "response_formatter")
                     then setFinalAnswer fb r else r) = weather r) as Hsame.
    { by destruct (isStr _ _). }
    rewrite Hsame. split; [by left|]. split; [|by destruct (isStr _ _)].
    intros [Hw | Hstep]; [done|].
    destruct (executeStep_weatherStep w step st Hstep) as (v & st2 & He'). congruence.
Qed.

Lemma runSteps_weather config w steps r st r' st' :
  nullish config = false →
  (∀ n url params, requestFailed (network w n url params)) →
  runSteps config w steps r st = (Ok r', st') →
  (weather r = Some fallbackWeather ∨ (∃ step, step ∈ steps ∧ weatherStep step) →
   weather r' = Some fallbackWeather)
  ∧ success r' = success r.
Proof.
  intros Hc Hnet. revert r st. induction steps as [|step steps IH]; intros r st.
  - intros [= <- <-]. split; [|done].
    intros [Hw | (step & Hin & _)]; [done|]. by apply elem_of_nil in Hin.
  - cbn [runSteps]. destruct (runStep config w step r st) as [[r1|e] st1] eqn:Hrun; [|done].
    intros Hruns. destruct (runStep_weather _ _ _ _ _ _ _ Hc Hnet Hrun) as (_ & Hw1 & Hs1).
    destruct (IH _ _ Hruns) as [Hw' Hs']. split; [|congruence].
    intros [Hw | (step' & Hin & Hstep)]; apply Hw'.
    + left. apply Hw1. by left.
    + apply elem_of_cons in Hin as [-> | Hin].
      * left. apply Hw1. by right.
      * right. eauto.
Qed.
End weather.

(** C6. If every call of the weather provider fails (transport error or a
    response that is not [ok]) and the workflow has a [weather_api] step
    of type [api_call] that is not skipped, then the weather record of the
    response that [execute] returns (the run having reached its end:
    [success = true]) is exactly the fixed fallback record: temp 28,
    humidity 65, pressure 1013, description "clear sky", wind speed 3.5. *)
Theorem execute_weather_fallback `{Engine}
    (config : jsval) (w : World) (inputs : jsval) (st st' : State)
    (steps : list jsval) (r : AgentResponse) :
  (workflow ← getProp config (lit "workflow"); iterate workflow) = Ok steps →
  (∃ step, step ∈ steps ∧ weatherStep step) →
  (∀ n url params, requestFailed (network w n url params)) →
  execute config w inputs st = (Ok r, st') → success r = true →
  weather r = Some (VObj [
    (lit "main", VObj [(lit "temp", VInt 28); (lit "humidity", VInt 65);
                       (lit "pressure", VInt 1013)]);
    (lit "weather", VArr [VObj [(lit "main", VStr (lit "Clear"));
                                (lit "description", VStr (lit "clear sky"))]]);
    (lit "wind", VObj [(lit "speed", VNum (7 # 2))])]).
Proof.
  intros Hload Hstep Hnet Hexec Hsuccess.
  assert (nullish config = false) as Hc.
  { destruct config; try done; discriminate. }
  unfold execute, executeBody in Hexec. rewrite Hload in Hexec.
  destruct (runSteps _ _ _ _ _) as [[r1|e] st1] eqn:Hruns.
  - injection Hexec as <- <-.
    destruct (runSteps_weather _ _ _ _ _ _ _ Hc Hnet Hruns) as [Hw _].
    apply Hw. by right.
  - rewrite executeCatch_returns in Hexec by done. injection Hexec as <- <-. done.
Qed.

Lemma execute_weather_fallback_witness :
  ∃ r st',
    @execute exactEngine specConfig offlineWorld
      (farmerInput (lit "Will it rain tomorrow?")) freshState = (Ok r, st')
    ∧ success r = true
    ∧ weather r = Some (VObj [
        (lit "main", VObj [(lit "temp", VInt 28); (lit "humidity", VInt 65);
                           (lit "pressure", VInt 1013)]);
        (lit "weather", VArr [VObj [(lit "main", VStr (lit "Clear"));
                                    (lit "description", VStr (lit "clear sky"))]]);
        (lit "wind", VObj [(lit "speed", VNum (7 # 2))])]).
Proof.
  eexists _, _. split; [vm_compute; reflexivity|]. split; [reflexivity|].
  eapply (@execute_weather_fallback exactEngine specConfig offlineWorld
            (farmerInput (lit "Will it rain tomorrow?")) freshState _
            specWorkflow _ eq_refl).
  - exists (stepOf "weather_api" "api_call" "weather_data"
     [(lit "url", VStr (lit "https://api.openweathermap.org/data/2.5/weather"));
      (lit "params", VObj [(lit "lat", VStr (lit "31.5"));
                           (lit "lon", VStr (lit "74.3"));
                           (lit "units", VStr (lit "metric"))])]).
    split; [apply list_elem_of_lookup; by exists 1%nat|].
    split; [reflexivity|]. split; [reflexivity|]. intros bag. reflexivity.
  - intros n url params. exact I.
  - vm_compute. reflexivity.
  - reflexivity.
Defined.

(** ** The fallback table *)

(** C8, as amended.  The fallback value of a step is fixed by the step id
    alone, with two exceptions: the fallback of [allocation_agent] also
    depends on the [farmer_query] of the call's inputs (its [request]
    field), and the fallback of [soil_data] on the current date (its
    [date] field).  It depends on nothing else: not on the results of
    earlier steps, not on the rest of the world. *)
Theorem getFallbackResult_static `{Engine}
    (config : jsval) (w w' : World) (bag bag' : gmap jsstring jsval)
    (stepId : jsval) :
  (isStr stepId (lit "allocation_agent") = true →
   farmerQueryOf bag = farmerQueryOf bag') →
  (isStr stepId (lit "soil_data") = true → todayISO w = todayISO w') →
  getFallbackResult config w bag stepId
  = getFallbackResult config w' bag' stepId.
Proof.
  intros Hquery Hdate. unfold getFallbackResult, farmerQueryOf in *.
  destruct (getProp config (lit "fallbacks")); [|done]. cbn [mbind res_bind].
  destruct (isStr stepId (lit "query_refiner")); [done|].
  destruct (isStr stepId (lit "weather_api")); [done|].
  destruct (isStr stepId (lit "soil_data")); [by rewrite Hdate|].
  destruct (isStr stepId (lit "disease_detection")); [done|].
  destruct (isStr stepId (lit "allocation_agent")); [by rewrite Hquery|].
  done.
Qed.

Lemma getFallbackResult_static_witness :
  let bag : gmap jsstring jsval :=
    {[ lit "inputs" := farmerInput waterQuery;
       lit "weather_data" := VStr (lit "sunny") ]} in
  let bag' : gmap jsstring jsval :=
    {[ lit "inputs" := VObj [(lit "farmer_query", VStr waterQuery);
                             (lit "language", VStr (lit "en"))];
       lit "soil_data" := VArr [] ]} in
  farmerQueryOf bag = farmerQueryOf bag'
  ∧ @getFallbackResult exactEngine specConfig offlineWorld bag
      (VStr (lit "allocation_agent"))
    = @getFallbackResult exactEngine specConfig
        {| random := λ _, 0%Q; network := λ _ _ _, Rejected;
           todayISO := lit "2026-01-01"; eastOfUTC := true |}
        bag' (VStr (lit "allocation_agent")).
Proof.
  intros bag bag'.
  assert (farmerQueryOf bag = farmerQueryOf bag') as Hquery by reflexivity.
  split; [exact Hquery|].
  apply (@getFallbackResult_static exactEngine).
  - intros _. exact Hquery.
  - intros Hid. vm_compute in Hid. discriminate.
Defined.

(** The claim as the specification states it fails: for the step
    [allocation_agent], two calls with different queries get different
    fallback values. *)
Lemma getFallbackResult_depends_on_inputs :
  @getFallbackResult exactEngine specConfig offlineWorld
    {[ lit "inputs" := farmerInput (lit "I need water for my 2-acre farm") ]}
    (VStr (lit "allocation_agent"))
  ≠ @getFallbackResult exactEngine specConfig offlineWorld
      {[ lit "inputs" := farmerInput (lit "I need fertilizer") ]}
      (VStr (lit "allocation_agent")).
Proof. vm_compute. discriminate. Qed.

(** So does the fallback of [soil_data] on the day it is computed. *)
Example getFallbackResult_depends_on_date :
  @getFallbackResult exactEngine specConfig offlineWorld ∅
    (VStr (lit "soil_data"))
  ≠ @getFallbackResult exactEngine specConfig
      {| random := random offlineWorld; network := network offlineWorld;
         todayISO := lit "2025-09-25"; eastOfUTC := false |}
      ∅ (VStr (lit "soil_data")).
Proof. vm_compute. discriminate. Qed.

(** ** The rounding of binary64 satisfies the rounding laws *)

Section binary64.
Local Open Scope Q_scope.

Lemma two_pos z : 0 < 2 ^ z.
Proof. apply Qpower_0_lt. reflexivity. Qed.

Lemma two_succ z : 2 ^ (z + 1) == 2 * 2 ^ z.
Proof. rewrite Qpower_plus by discriminate. change (2 ^ 1) with 2. ring. Qed.

Lemma two_le a b : (a <= b)%Z → 2 ^ a <= 2 ^ b.
Proof. intros Hab. apply Qpower_le_compat_l; [exact Hab|]. discriminate. Qed.

Lemma two_lt a b : (a < b)%Z → 2 ^ a < 2 ^ b.
Proof. intros Hab. apply Qpower_lt_compat_l; [exact Hab|]. reflexivity. Qed.

Lemma two_inject (n : Z) : (0 <= n)%Z → inject_Z (2 ^ n) == 2 ^ n.
Proof. intros Hn. rewrite Zpower_Qpower by exact Hn. reflexivity. Qed.

Lemma ilog2_spec a : 0 < a → 2 ^ ilog2 a <= a ∧ a < 2 ^ (ilog2 a + 1).
Proof.
  intros Ha. unfold ilog2.
  destruct a as [n d]. cbn [Qnum Qden].
  assert (0 < n)%Z as Hn.
  { unfold Qlt in Ha. simpl in Ha. lia. }
  pose proof (Z.log2_spec n Hn) as [Hn1 Hn2].
  pose proof (Z.log2_spec (Z.pos d) ltac:(lia)) as [Hd1 Hd2].
  pose proof (Z.log2_nonneg n) as Hln. pose proof (Z.log2_nonneg (Z.pos d)) as Hld.
  set (ln := Z.log2 n) in *. set (ld := Z.log2 (Z.pos d)) in *.
  assert (n # d == inject_Z n / inject_Z (Z.pos d)) as Hq by apply Qmake_Qdiv.
  assert (0 < inject_Z (Z.pos d)) as Hdpos by reflexivity.
  assert (2 ^ ln <= inject_Z n) as Q1.
  { rewrite <- two_inject by lia. rewrite <- Zle_Qle. exact Hn1. }
  assert (inject_Z n < 2 ^ (ln + 1)) as Q2.
  { rewrite <- two_inject by lia. rewrite <- Zlt_Qlt. exact Hn2. }
  assert (2 ^ ld <= inject_Z (Z.pos d)) as Q3.
  { rewrite <- two_inject by lia. rewrite <- Zle_Qle. exact Hd1. }
  assert (inject_Z (Z.pos d) < 2 ^ (ld + 1)) as Q4.
  { rewrite <- two_inject by lia. rewrite <- Zlt_Qlt. exact Hd2. }
  assert (2 ^ (ln - ld) * 2 ^ ld == 2 ^ ln) as P1.
  { rewrite <- Qpower_plus by discriminate. replace (ln - ld + ld)%Z with ln by lia.
    reflexivity. }
  pose proof (two_pos ld) as Pld. pose proof (two_pos (ln - ld)) as Pe.
  pose proof (two_succ (ln - ld)) as S1. pose proof (two_succ ln) as S2.
  pose proof (two_succ ld) as S3. pose proof (two_succ (ln - ld - 1)) as S4.
  replace (ln - ld - 1 + 1)%Z with (ln - ld)%Z in S4 by lia.
  (* upper bound: n/d < 2^(e0+1); lower bound: 2^(e0-1) < n/d *)
  assert (n # d < 2 ^ (ln - ld + 1)) as U.
  { rewrite Hq. apply Qlt_shift_div_r; [exact Hdpos|].
    apply Qlt_le_trans with (2 ^ (ln + 1)); [exact Q2|].
    rewrite S1, S2, <- P1. rewrite <- Qmult_assoc.
    apply Qmult_le_l; [reflexivity|]. apply Qmult_le_l; [exact Pe|exact Q3]. }
  assert (2 ^ (ln - ld - 1) < n # d) as Lo.
  { rewrite Hq. apply Qlt_shift_div_l; [exact Hdpos|].
    apply Qlt_le_trans with (2 ^ ln); [|exact Q1].
    rewrite <- P1, S4.
    apply Qlt_le_trans with (2 ^ (ln - ld - 1) * 2 ^ (ld + 1)).
    - apply Qmult_lt_l; [apply two_pos|exact Q4].
    - rewrite S3. apply Qle_lteq. right. ring. }
  destruct (Qle_bool (2 ^ (ln - ld)) (n # d)) eqn:Hb.
  - apply Qle_bool_iff in Hb. split; [exact Hb|exact U].
  - assert (¬ 2 ^ (ln - ld) <= n # d) as Hnb.
    { intros Hc. apply Qle_bool_iff in Hc. congruence. }
    apply Qnot_le_lt in Hnb. split; [apply Qlt_le_weak; exact Lo|].
    replace (ln - ld - 1 + 1)%Z with (ln - ld)%Z by lia. exact Hnb.
Qed.

Lemma two_lt_inv a b : 2 ^ a < 2 ^ b → (a < b)%Z.
Proof.
  intros Hlt. destruct (Z_lt_le_dec a b) as [|Hle]; [assumption|].
  apply two_le in Hle. lra.
Qed.

Lemma ilog2_mono x y : 0 < x → x <= y → (ilog2 x <= ilog2 y)%Z.
Proof.
  intros Hx Hxy.
  destruct (ilog2_spec x Hx) as [Hx1 _].
  destruct (ilog2_spec y ltac:(lra)) as [_ Hy2].
  assert (2 ^ ilog2 x < 2 ^ (ilog2 y + 1)) as Hlt by lra.
  apply two_lt_inv in Hlt. lia.
Qed.

Lemma roundHalfEven_floor y :
  (Qfloor y <= roundHalfEven y <= Qfloor y + 1)%Z.
Proof.
  unfold roundHalfEven.
  destruct (Qcompare _ _); [destruct (Z.even _)|..]; lia.
Qed.

Lemma roundHalfEven_mono y1 y2 :
  y1 <= y2 → (roundHalfEven y1 <= roundHalfEven y2)%Z.
Proof.
  intros Hy.
  pose proof (Qfloor_resp_le _ _ Hy) as Hf.
  pose proof (roundHalfEven_floor y1) as H1.
  pose proof (roundHalfEven_floor y2) as H2.
  destruct (decide (Qfloor y1 = Qfloor y2)) as [Heq|Hne]; [|lia].
  clear H1 H2 Hf. unfold roundHalfEven. rewrite <- Heq.
  destruct (Qcompare (y1 - inject_Z (Qfloor y1)) (1 # 2)) eqn:C1;
    destruct (Qcompare (y2 - inject_Z (Qfloor y1)) (1 # 2)) eqn:C2;
    try (destruct (Z.even (Qfloor y1)); lia); try lia; exfalso.
  all: first [apply (proj2 (Qeq_alt _ _)) in C1
             |apply (proj2 (Qlt_alt _ _)) in C1|apply (proj2 (Qgt_alt _ _)) in C1].
  all: first [apply (proj2 (Qeq_alt _ _)) in C2
             |apply (proj2 (Qlt_alt _ _)) in C2|apply (proj2 (Qgt_alt _ _)) in C2].
  all: lra.
Qed.

Lemma roundHalfEven_proper y1 y2 :
  y1 == y2 → roundHalfEven y1 = roundHalfEven y2.
Proof.
  intros Hy. apply Z.le_antisymm; apply roundHalfEven_mono; lra.
Qed.

Lemma roundHalfEven_int k : roundHalfEven (inject_Z k) = k.
Proof.
  unfold roundHalfEven. rewrite Qfloor_Z.
  assert (inject_Z k - inject_Z k < 1 # 2) as Hlt by lra.
  apply (proj1 (Qlt_alt _ _)) in Hlt. rewrite Hlt. reflexivity.
Qed.

Lemma ulpOf_pos a : 0 < ulpOf a.
Proof. apply two_pos. Qed.

Lemma two_split a b : 2 ^ a == 2 ^ (a - b) * 2 ^ b.
Proof.
  rewrite <- Qpower_plus by discriminate.
  replace (a - b + b)%Z with a by lia. reflexivity.
Qed.

Lemma nearest_nonneg a : 0 < a → 0 <= nearest a.
Proof.
  intros Ha. unfold nearest. pose proof (ulpOf_pos a) as Hu.
  apply Qmult_le_0_compat; [|lra].
  change 0 with (inject_Z 0). rewrite <- Zle_Qle.
  rewrite <- (roundHalfEven_int 0). apply roundHalfEven_mono.
  apply Qle_shift_div_l; [exact Hu|]. change (inject_Z 0) with 0. lra.
Qed.

Lemma nearest_below a e :
  0 < a → a <= 2 ^ (e + 1) → (Z.max (ilog2 a) (-1022) <= e)%Z →
  nearest a <= 2 ^ (e + 1).
Proof.
  intros Ha Hle He. unfold nearest, ulpOf.
  set (ea := Z.max (ilog2 a) (-1022)) in *.
  pose proof (two_pos (ea - 52)) as Hu.
  assert (0 <= e + 1 - (ea - 52))%Z as Hk by lia.
  pose proof (two_split (e + 1) (ea - 52)) as Hs.
  rewrite <- (two_inject _ Hk) in Hs.
  rewrite Hs. apply Qmult_le_compat_r; [|lra].
  rewrite <- Zle_Qle.
  rewrite <- (roundHalfEven_int (2 ^ (e + 1 - (ea - 52)))).
  apply roundHalfEven_mono.
  apply Qle_shift_div_r; [exact Hu|]. rewrite <- Hs. exact Hle.
Qed.

Lemma nearest_above a e :
  0 < a → 2 ^ e <= a → (Z.max (ilog2 a) (-1022) - 52 <= e)%Z →
  2 ^ e <= nearest a.
Proof.
  intros Ha Hle He. unfold nearest, ulpOf.
  set (ea := Z.max (ilog2 a) (-1022)) in *.
  pose proof (two_pos (ea - 52)) as Hu.
  assert (0 <= e - (ea - 52))%Z as Hk by lia.
  pose proof (two_split e (ea - 52)) as Hs.
  rewrite <- (two_inject _ Hk) in Hs.
  rewrite Hs. apply Qmult_le_compat_r; [|lra].
  rewrite <- Zle_Qle.
  rewrite <- (roundHalfEven_int (2 ^ (e - (ea - 52)))) at 1.
  apply roundHalfEven_mono.
  apply Qle_shift_div_l; [exact Hu|]. rewrite <- Hs. exact Hle.
Qed.

Lemma nearest_mono x y : 0 < x → x <= y → nearest x <= nearest y.
Proof.
  intros Hx Hxy. assert (0 < y) as Hy by lra.
  pose proof (ilog2_mono x y Hx Hxy) as Hm.
  destruct (ilog2_spec x Hx) as [Hx1 Hx2].
  destruct (ilog2_spec y Hy) as [Hy1 Hy2].
  destruct (decide (Z.max (ilog2 x) (-1022) = Z.max (ilog2 y) (-1022)))
    as [Heq|Hne].
  - unfold nearest, ulpOf. rewrite Heq.
    pose proof (two_pos (Z.max (ilog2 y) (-1022) - 52)) as Hu.
    apply Qmult_le_compat_r; [|lra].
    rewrite <- Zle_Qle. apply roundHalfEven_mono.
    apply Qmult_le_compat_r; [exact Hxy|].
    apply Qlt_le_weak, Qinv_lt_0_compat, Hu.
  - assert (Z.max (ilog2 x) (-1022) + 1 <= ilog2 y)%Z as Hlt by lia.
    apply Qle_trans with (2 ^ (Z.max (ilog2 x) (-1022) + 1)).
    + apply nearest_below; [exact Hx| |lia].
      apply Qle_trans with (2 ^ (ilog2 x + 1)); [lra|].
      apply two_le. lia.
    + apply Qle_trans with (2 ^ ilog2 y); [apply two_le; lia|].
      apply nearest_above; [exact Hy|exact Hy1|lia].
Qed.

Lemma nearest_proper x y : 0 < x → x == y → nearest x == nearest y.
Proof.
  intros Hx Hxy. apply Qle_antisym; apply nearest_mono; lra.
Qed.

Lemma roundBinary64_zero x : x == 0 → roundBinary64 x = 0.
Proof.
  intros Hx. unfold roundBinary64.
  apply Qeq_bool_iff in Hx. rewrite Hx. reflexivity.
Qed.

Lemma roundBinary64_pos x : 0 < x → roundBinary64 x == nearest x.
Proof.
  intros Hx. unfold roundBinary64.
  destruct (Qeq_bool x 0) eqn:Hz.
  { apply Qeq_bool_iff in Hz. lra. }
  assert (Qle_bool 0 x = true) as -> by (apply Qle_bool_iff; lra).
  apply nearest_proper; [|apply Qabs_pos; lra].
  rewrite Qabs_pos by lra. exact Hx.
Qed.

Lemma roundBinary64_neg x : x < 0 → roundBinary64 x == - nearest (- x).
Proof.
  intros Hx. unfold roundBinary64.
  destruct (Qeq_bool x 0) eqn:Hz.
  { apply Qeq_bool_iff in Hz. lra. }
  destruct (Qle_bool 0 x) eqn:Hp.
  { apply Qle_bool_iff in Hp. lra. }
  apply Qopp_comp.
  apply nearest_proper; [|apply Qabs_neg; lra].
  rewrite Qabs_neg by lra. lra.
Qed.

Lemma roundBinary64_monotone x y :
  x <= y → roundBinary64 x <= roundBinary64 y.
Proof.
  intros Hxy.
  destruct (Q_dec x 0) as [[Hx|Hx]|Hx]; destruct (Q_dec y 0) as [[Hy|Hy]|Hy];
    try lra.
  - rewrite (roundBinary64_neg x Hx), (roundBinary64_neg y Hy).
    apply Qopp_le_compat. apply nearest_mono; lra.
  - rewrite (roundBinary64_neg x Hx), (roundBinary64_pos y Hy).
    pose proof (nearest_nonneg (- x) ltac:(lra)).
    pose proof (nearest_nonneg y Hy). lra.
  - rewrite (roundBinary64_neg x Hx), (roundBinary64_zero y Hy).
    pose proof (nearest_nonneg (- x) ltac:(lra)). lra.
  - rewrite (roundBinary64_pos x Hx), (roundBinary64_pos y Hy).
    apply nearest_mono; lra.
  - rewrite (roundBinary64_zero x Hx), (roundBinary64_pos y Hy).
    apply nearest_nonneg, Hy.
  - rewrite (roundBinary64_zero x Hx), (roundBinary64_zero y Hy). lra.
Qed.

Lemma two_le_inv a b : 2 ^ a <= 2 ^ b → (a <= b)%Z.
Proof.
  intros Hle. destruct (Z_le_gt_dec a b) as [|Hgt]; [assumption|].
  pose proof (two_lt b a ltac:(lia)). lra.
Qed.

Lemma grid_scale (m : Z) : m # 2 ^ 20 == inject_Z m * 2 ^ (-20).
Proof. rewrite Qmake_Qdiv. reflexivity. Qed.

Lemma nearest_exact (m : Z) :
  (0 < m <= 2 ^ 52)%Z → nearest (m # 2 ^ 20) == m # 2 ^ 20.
Proof.
  intros [Hm0 Hm].
  assert (1 <= inject_Z m) as Q0.
  { change 1 with (inject_Z 1). rewrite <- Zle_Qle. lia. }
  assert (inject_Z m <= 2 ^ 52) as Q1.
  { rewrite <- two_inject by lia. rewrite <- Zle_Qle. exact Hm. }
  pose proof (grid_scale m) as Hg.
  pose proof (two_pos (-20)) as P20.
  assert (2 ^ 32 == 2 ^ 52 * 2 ^ (-20)) as H32 by reflexivity.
  assert (0 < m # 2 ^ 20) as Ha.
  { rewrite Hg. apply Qmult_lt_0_compat; lra. }
  destruct (ilog2_spec _ Ha) as [L1 L2].
  set (l := ilog2 (m # 2 ^ 20)) in *.
  assert (l <= 32)%Z as Hl1.
  { apply two_le_inv. apply Qle_trans with (m # 2 ^ 20); [exact L1|].
    rewrite Hg, H32. apply Qmult_le_compat_r; lra. }
  assert (-20 <= l)%Z as Hl2.
  { assert (2 ^ (-20) < 2 ^ (l + 1)) as Hlt.
    { apply Qle_lt_trans with (m # 2 ^ 20); [|exact L2].
      rewrite Hg.
      assert (1 * 2 ^ (-20) <= inject_Z m * 2 ^ (-20)) as Hc
        by (apply Qmult_le_compat_r; lra).
      lra. }
    apply two_lt_inv in Hlt. lia. }
  unfold nearest, ulpOf. fold l.
  replace (Z.max l (-1022)) with l by lia.
  pose proof (two_pos (l - 52)) as Hu.
  pose proof (two_split (-20) (l - 52)) as Hs.
  replace (-20 - (l - 52))%Z with (32 - l)%Z in Hs by lia.
  rewrite <- (two_inject (32 - l)) in Hs by lia.
  assert ((m # 2 ^ 20) / 2 ^ (l - 52) == inject_Z (m * 2 ^ (32 - l))) as Hy.
  { rewrite inject_Z_mult, Hg, Hs. field. lra. }
  rewrite (roundHalfEven_proper _ _ Hy), roundHalfEven_int.
  rewrite inject_Z_mult, Hg, Hs. ring.
Qed.

Lemma roundBinary64_exact (m : Z) :
  (Z.abs m <= 2 ^ 52)%Z → roundBinary64 (m # 2 ^ 20) == m # 2 ^ 20.
Proof.
  intros Hm. pose proof (two_pos (-20)) as P20.
  destruct (Z.lt_trichotomy m 0) as [Hneg|[->|Hpos]].
  - assert (m # 2 ^ 20 < 0) as Hlt.
    { rewrite grid_scale. 
      assert (inject_Z m <= - 1) as Q0.
      { change (- 1) with (inject_Z (- 1)). rewrite <- Zle_Qle. lia. }
      assert (0 < - inject_Z m * 2 ^ (-20)) as Hc
        by (apply Qmult_lt_0_compat; lra).
      lra. }
    rewrite (roundBinary64_neg _ Hlt).
    assert (- (m # 2 ^ 20) == (- m) # 2 ^ 20) as Ho by reflexivity.
    assert (0 < - (m # 2 ^ 20)) as Hp by lra.
    rewrite (nearest_proper _ _ Hp Ho).
    rewrite nearest_exact by lia.
    unfold Qopp. cbn [Qnum Qden]. rewrite Z.opp_involutive. reflexivity.
  - rewrite roundBinary64_zero; reflexivity.
  - assert (0 < m # 2 ^ 20) as Hlt.
    { rewrite grid_scale.
      assert (1 <= inject_Z m) as Q0.
      { change 1 with (inject_Z 1). rewrite <- Zle_Qle. lia. }
      apply Qmult_lt_0_compat; lra. }
    rewrite (roundBinary64_pos _ Hlt). apply nearest_exact. lia.
Qed.

End binary64.

Lemma binary64_rounding : RoundingLaws binary64Engine.
Proof.
  split.
  - exact roundBinary64_monotone.
  - exact roundBinary64_exact.
Qed.

(** ** The soil generator: the claim *)

Lemma exact_rounding : RoundingLaws exactEngine.
Proof.
  split.
  - intros x y Hxy. exact Hxy.
  - intros m _. simpl. reflexivity.
Qed.

(** C3. Whatever the random draws (numbers of [0, 1)), the soil-data
    generator returns exactly 12 samples, two for each of the six days of
    its window, taken at 09:00 and at 15:00; in each of them [t10 < t0]
    and [0.18 <= moisture <= 0.26]. *)
Theorem generateSoilData_spec `{E : Engine} (L : RoundingLaws E)
    (w : World) (n : nat) :
  (∀ i, (0 <= random w i < 1)%Q) →
  let data := (generateSoilData w n).1 in
  length data = 12%nat
  ∧ time <$> data = mjoin (replicate 6 [lit "09:00"; lit "15:00"])
  ∧ date <$> data
    = mjoin ((λ day, [isoDate w day; isoDate w day])
               <$> [24; 25; 26; 27; 28; 29]%Z)
  ∧ Forall sampleInRange data.
Proof.
  intros Hr data. subst data. rewrite generateSoilData_unfold. cbn [fst].
  split; [reflexivity|]. split; [reflexivity|]. split; [reflexivity|].
  unfold daySamples. cbn [app].
  repeat (apply Forall_cons; split; [by apply soilSample_inRange|]).
  constructor.
Qed.

Lemma generateSoilData_spec_witness :
  let data := (@generateSoilData binary64Engine offlineWorld 0).1 in
  length data = 12%nat ∧ Forall (@sampleInRange binary64Engine) data.
Proof.
  destruct (@generateSoilData_spec binary64Engine binary64_rounding
              offlineWorld 0) as (Hlen & _ & _ & Hall).
  { intros i. simpl. split; [discriminate|reflexivity]. }
  split; [exact Hlen|exact Hall].
Defined.

(** With every draw [0.5] and the arithmetic of binary64, a sample is
    [296.5], [294.25] and the number that [0.22] denotes. *)
Example soilSample_binary64 :
  let d := @soilSample binary64Engine offlineWorld 24 9 0 in
  (t0 d == 2965 # 10 ∧ t10 d == 29425 # 100
   ∧ moisture d == roundBinary64 (22 # 100))%Q
  ∧ Qred (roundBinary64 (22 # 100)) = (7926335344172073 # 2 ^ 55)%Q
  ∧ time d = lit "09:00" ∧ date d = lit "2025-09-24".
Proof. vm_compute. repeat split. Qed.

(** ** Overlapping calls *)

Section calls.
Context `{Engine}.

Lemma alone_settled config w n out st :
  alone config w n (Settled out) st = (Settled out, st).
Proof. induction n as [|n IH]; simpl; done. Qed.

Lemma alone_finish config w n o :
  (let '(c, st) := finish config w o in alone config w n c st)
  = finish config w o.
Proof.
  destruct o as [[r|e] st]; simpl.
  - apply alone_settled.
  - unfold settleCatch. destruct (executeCatch config w e st) as [out st'].
    apply alone_settled.
Qed.

(** Run without anything in between, the suspended loop does what
    [runSteps] does. *)
Lemma advance_runSteps config w steps r st n :
  (length steps ≤ n)%nat →
  (let '(c, st1) := advance config w steps r st in alone config w n c st1)
  = finish config w (runSteps config w steps r st).
Proof.
  revert r st n. induction steps as [|step steps IH]; intros r st n Hn.
  - simpl. apply alone_settled.
  - cbn [advance runSteps]. unfold runStep.
    destruct (stepBegin w step st) as [b st'] eqn:Hb.
    assert (∀ m, (length steps ≤ m)%nat →
              (let '(c, st1) :=
                 match stepEnd config w step b r st' with
                 | (Ok r', st'') => advance config w steps r' st''
                 | (Throw e, st'') => settleCatch config w e st''
                 end in alone config w m c st1)
              = finish config w
                  match stepEnd config w step b r st' with
                  | (Ok r', st'') => runSteps config w steps r' st''
                  | (Throw e, st'') => (Throw e, st'')
                  end) as Hrest.
    { intros m Hm. destruct (stepEnd config w step b r st') as [[r'|e] st''].
      - by apply IH.
      - apply (alone_finish config w m (Throw e, st'')). }
    destruct b as [|e|o].
    + apply Hrest. simpl in Hn. lia.
    + apply Hrest. simpl in Hn. lia.
    + destruct n as [|n]; [simpl in Hn; lia|]. cbn [alone resume].
      apply Hrest. simpl in Hn. lia.
Qed.

(** A call that nothing interrupts is [execute]. *)
Lemma alone_execute config w inputs st :
  ∃ n, ∀ m, (n ≤ m)%nat →
    alone config w m (Called inputs) st
    = (Settled (execute config w inputs st).1, (execute config w inputs st).2).
Proof.
  destruct (workflow ← getProp config (lit "workflow"); iterate workflow)
    as [steps|e] eqn:Hload.
  - exists (S (length steps)). intros [|m] Hm; [lia|].
    cbn [alone resume]. rewrite Hload.
    rewrite advance_runSteps by lia.
    unfold execute, executeBody. rewrite Hload.
    destruct (runSteps _ _ _ _ _) as [[r|e] st']; simpl; [done|].
    unfold settleCatch. by destruct (executeCatch config w e st').
  - exists 1%nat. intros [|m] Hm; [lia|].
    cbn [alone resume]. rewrite Hload.
    unfold execute, executeBody. rewrite Hload.
    pose proof (alone_finish config w m
                  (Throw e, setResults {[lit "inputs" := inputs]} st)) as Hf.
    simpl in Hf. rewrite Hf.
    unfold settleCatch. by destruct (executeCatch config w e _).
Qed.

(** A call starts from a bag of its own: what the agent held before does
    not matter. *)
Lemma execute_fresh_bag config w inputs st bag :
  execute config w inputs (setResults bag st) = execute config w inputs st.
Proof. reflexivity. Qed.
End calls.

(** C9.  Two calls of [execute] that overlap are not isolated.  A call is
    made with a question about water and waits for the weather provider;
    a second call is made with another question; when the first call goes
    on, it reads the inputs of the second: the allocation plan returned to
    the first caller carries the second caller's query and approves 70
    percent, where the same call made alone carries its own query and
    approves 85 percent. *)
Theorem overlapping_calls_interfere :
  (∃ ra rb st',
     @interleave exactEngine specConfig offlineWorld overlapSchedule
       (Called (farmerInput waterQuery)) (Called (farmerInput wheatQuery))
       freshState
     = (Settled (Ok ra), Settled (Ok rb), st')
     ∧ requestOf ra = Some (VStr wheatQuery)
     ∧ approvedOf ra = Some (VInt 70))
  ∧ (∃ r st',
       @execute exactEngine specConfig offlineWorld (farmerInput waterQuery)
         freshState = (Ok r, st')
       ∧ requestOf r = Some (VStr waterQuery)
       ∧ approvedOf r = Some (VInt 85)).
Proof.
  split.
  - eexists _, _, _. split; [vm_compute; reflexivity|].
    split; vm_compute; reflexivity.
  - eexists _, _. split; [vm_compute; reflexivity|].
    split; vm_compute; reflexivity.
Qed.

(** * Further properties *)

(** Two different literals for the same value. *)
Ltac clash :=
  match goal with
  | H1 : ?x = VStr (lit ?a), H2 : ?x = VStr (lit ?b) |- _ =>
      rewrite H1 in H2; vm_compute in H2; discriminate
  end.

Section dispatch.
Context `{Engine}.

(** What a handler that returns has run. *)
Lemma executeStep_Ok w step st v st1 :
  executeStep w step st = (Ok v, st1) →
  let id := ownProp step (lit "id") in
  let type := ownProp step (lit "type") in
  let bag := workflowResults st in
  (type = VStr (lit "model_call") ∧ id = VStr (lit "query_refiner")
   ∧ simulateQueryRefiner bag = Ok v ∧ st1 = st)
  ∨ (type = VStr (lit "model_call") ∧ id = VStr (lit "disease_detection")
     ∧ v = simulateDiseaseDetection (random w (drawn st)) ∧ st1 = useDraw st)
  ∨ (type = VStr (lit "model_call") ∧ id = VStr (lit "allocation_agent")
     ∧ simulateAllocationAgent bag = Ok v ∧ st1 = st)
  ∨ (type = VStr (lit "model_call") ∧ id = VStr (lit "response_formatter")
     ∧ simulateResponseFormatter bag = Ok v ∧ st1 = st)
  ∨ (type = VStr (lit "api_call") ∧ id = VStr (lit "weather_api")
     ∧ (v, st1) = getWeatherData w step st)
  ∨ (type = VStr (lit "python") ∧ id = VStr (lit "soil_data")
     ∧ v = VArr (soilValue <$> (generateSoilData w (drawn st)).1)
     ∧ st1 = {| workflowResults := workflowResults st;
                drawn := (generateSoilData w (drawn st)).2;
                requested := requested st |}).
Proof.
  intros He id type bag. unfold executeStep in He. fold type in He.
  destruct (isStr type (lit "model_call")) eqn:Ht1.
  { apply isStr_true in Ht1. unfold executeModelCall in He.
    destruct (orElse _ _) as [| | | |template| |]; try discriminate.
    fold id bag in He.
    destruct (isStr id (lit "query_refiner")) eqn:Hi1.
    { apply isStr_true in Hi1. injection He as He <-. left. done. }
    destruct (isStr id (lit "disease_detection")) eqn:Hi2.
    { apply isStr_true in Hi2. injection He as <- <-. right. left. done. }
    destruct (isStr id (lit "allocation_agent")) eqn:Hi3.
    { apply isStr_true in Hi3. injection He as He <-. do 2 right. left. done. }
    destruct (isStr id (lit "response_formatter")) eqn:Hi4.
    { apply isStr_true in Hi4. injection He as He <-. do 3 right. left. done. }
    discriminate. }
  destruct (isStr type (lit "api_call")) eqn:Ht2.
  { apply isStr_true in Ht2. unfold executeApiCall in He. fold id in He.
    destruct (isStr id (lit "weather_api")) eqn:Hi; [|discriminate].
    apply isStr_true in Hi. destruct (getWeatherData w step st) as [v' st'].
    injection He as <- <-. do 4 right. left. done. }
  destruct (isStr type (lit "python")) eqn:Ht3; [|discriminate].
  apply isStr_true in Ht3. unfold executePythonCode in He. fold id in He.
  destruct (isStr id (lit "soil_data")) eqn:Hi; [|discriminate].
  apply isStr_true in Hi. destruct (generateSoilData w (drawn st)) as [data n].
  injection He as <- <-. do 5 right. done.
Qed.

Lemma isStr_false_ne v s : isStr v s = false → v ≠ VStr s.
Proof. intros Hf ->. simpl in Hf. by rewrite bool_decide_eq_false in Hf. Qed.

End dispatch.

(** X1. A step whose type and identifier are not one of the six pairs that
    have a handler makes [executeStep] throw, and nothing has been done by
    then: no random number drawn, no request sent, the bag untouched. *)
Theorem executeStep_unknown `{Engine} (w : World) (step : jsval) (st : State) :
  hasHandler step = false →
  ∃ e, executeStep w step st = (Throw e, st).
Proof.
  intros Hh.
  destruct (executeStep w step st) as [[v|e] st1] eqn:He.
  - exfalso. unfold hasHandler in Hh.
    destruct (executeStep_Ok w step st v st1 He)
      as [(Ht & Hi & _)|[(Ht & Hi & _)|[(Ht & Hi & _)|[(Ht & Hi & _)
          |[(Ht & Hi & _)|(Ht & Hi & _)]]]]]; rewrite Ht, Hi in Hh; discriminate.
  - exists e. f_equal.
    unfold executeStep, executeModelCall, executeApiCall, executePythonCode in He.
    repeat match type of He with
      | context [if ?b then _ else _] => destruct b
      | context [match ?o with VStr _ => _ | _ => _ end] => destruct o
      | (let '(_, _) := ?p in _) = _ => destruct p
      end; try discriminate; by injection He.
Qed.

Section invariants.
Context `{Engine}.

Lemma runStep_nullish config w step r st :
  nullish step = true → ∃ e, runStep config w step r st = (Throw e, st).
Proof.
  intros Hs. unfold runStep, stepBegin, getProp. rewrite Hs.
  unfold stepEnd, stepCatch, getProp. rewrite Hs. cbn [mbind res_bind]. eauto.
Qed.

(** A property of the response that holds of the rounds made so far and
    that every way a round can end maintains, holds when the loop ends. *)
Lemma runSteps_invariant config w (P : list jsval → AgentResponse → Prop) :
  nullish config = false →
  (∀ done step r, P done r → P (done ++ [step]) r) →
  (∀ done step st v st1 r,
     skips step st = false → executeStep w step st = (Ok v, st1) →
     P done r →
     P (done ++ [step]) (storeResult (ownProp step (lit "id")) v r)) →
  (∀ done step r,
     ownProp step (lit "id") = VStr (lit "response_formatter") →
     P done r →
     P (done ++ [step]) (setFinalAnswer (VStr fallbackParagraph) r)) →
  ∀ steps done r st r' st',
    P done r → runSteps config w steps r st = (Ok r', st') →
    P (done ++ steps) r'.
Proof.
  intros Hc Hskip Hstore Hfall.
  induction steps as [|step steps IH]; intros done r st r' st' HP Hrun.
  - injection Hrun as <- <-. by rewrite app_nil_r.
  - cbn [runSteps] in Hrun.
    destruct (runStep config w step r st) as [[r1|e] st1] eqn:Hstep; [|done].
    replace (done ++ step :: steps) with ((done ++ [step]) ++ steps)
      by (by rewrite <- app_assoc).
    apply (IH _ r1 st1 r' st'); [|done].
    destruct (nullish step) eqn:Hs.
    { destruct (runStep_nullish config w step r st Hs) as [e He]. congruence. }
    destruct (runStep_cases config w step r st Hs Hc)
      as [[_ Heq] | [(v & st2 & Hsk & He & Heq)
                    | (e & st2 & fb & _ & He & Hfb & Heq)]];
      rewrite Heq in Hstep; injection Hstep as <- <-.
    + by apply Hskip.
    + by eapply Hstore.
    + destruct (isStr (ownProp step (lit "id")) (lit "response_formatter")) eqn:Hid.
      * apply isStr_true in Hid. rewrite Hid in Hfb.
        rewrite getFallbackResult_formatter in Hfb by done.
        injection Hfb as <-. by apply Hfall.
      * by apply Hskip.
Qed.

(** How a call that returns has ended. *)
Lemma execute_Ok config w inputs st r st' :
  execute config w inputs st = (Ok r, st') →
  nullish config = false
  ∧ ((∃ steps,
        (workflow ← getProp config (lit "workflow"); iterate workflow)
        = Ok steps
        ∧ runSteps config w steps emptyResponse
            (setResults {[ lit "inputs" := inputs ]} st) = (Ok r, st'))
     ∨ ∃ e, r = failureResponse e).
Proof.
  intros He.
  destruct (nullish config) eqn:Hc.
  { exfalso. unfold execute, executeBody, getProp in He. rewrite Hc in He.
    cbn [mbind res_bind] in He. unfold executeCatch, getFallbackResult, getProp in He.
    rewrite Hc in He. cbn [mbind res_bind] in He. discriminate. }
  split; [done|]. unfold execute in He.
  destruct (executeBody config w inputs st) as [[r1|e] st1] eqn:Hb.
  - injection He as <- <-. left. unfold executeBody in Hb.
    destruct (_ ≫= _) as [steps|]; [|done]. eauto.
  - rewrite executeCatch_returns in He by done. injection He as <- <-. eauto.
Qed.

Lemma execute_invariant config w inputs st r st'
    (P : list jsval → AgentResponse → Prop) :
  (∀ e, P [] (failureResponse e)) →
  P [] emptyResponse →
  (∀ done step r, P done r → P (done ++ [step]) r) →
  (∀ done step st v st1 r,
     skips step st = false → executeStep w step st = (Ok v, st1) →
     P done r →
     P (done ++ [step]) (storeResult (ownProp step (lit "id")) v r)) →
  (∀ done step r,
     ownProp step (lit "id") = VStr (lit "response_formatter") →
     P done r →
     P (done ++ [step]) (setFinalAnswer (VStr fallbackParagraph) r)) →
  execute config w inputs st = (Ok r, st') →
  ∃ steps, P steps r
    ∧ ((workflow ← getProp config (lit "workflow"); iterate workflow)
       = Ok steps ∨ steps = []).
Proof.
  intros Hfail Hempty Hskip Hstore Hfall He.
  destruct (execute_Ok _ _ _ _ _ _ He) as [Hc [(steps & Hload & Hrun)|[e ->]]].
  - exists steps. split; [|by left].
    exact (runSteps_invariant config w P Hc Hskip Hstore Hfall steps []
             emptyResponse _ r st' Hempty Hrun).
  - exists []. split; [apply Hfail|by right].
Qed.
End invariants.

Lemma includesAny_spec s kws : includesAny s kws = true ↔ mentions s kws.
Proof.
  unfold includesAny, mentions. rewrite existsb_exists. split.
  - intros (k & Hin & (pre & post & ->)%includes_spec).
    exists k, pre, post. split; [by apply list_elem_of_In|done].
  - intros (k & pre & post & Hin & ->). exists k.
    split; [by apply list_elem_of_In|]. apply includes_spec. eauto.
Qed.

Section fields.
Context `{Engine}.



Lemma storeResult_allocation id v r :
  allocation (storeResult id v r)
  = if isStr id (lit "allocation_agent") then Some v else allocation r.
Proof.
  unfold storeResult, setFinalAnswer. destruct id; simpl; try done.
  repeat case_bool_decide; subst; try done; by exfalso.
Qed.

Lemma storeResult_final_answer id v r :
  final_answer (storeResult id v r)
  = if isStr id (lit "response_formatter") then Some v else final_answer r.
Proof.
  unfold storeResult, setFinalAnswer. destruct id; simpl; try done.
  repeat case_bool_decide; subst; try done; by exfalso.
Qed.

(** What the formatter returns is the assembled text with the tips, or
    the fallback paragraph: a text of more than fifty units. *)
Lemma simulateResponseFormatter_text bag v :
  simulateResponseFormatter bag = Ok v →
  ∃ s, v = VStr s ∧ (50 < length s)%nat
    ∧ (s = fallbackParagraph
       ∨ ∃ response, assembleResponse bag = Ok response
           ∧ s = response ++ farmingTips).
Proof.
  unfold simulateResponseFormatter.
  destruct (assembleResponse bag) as [response|] eqn:Hr; [|done].
  cbn [mbind res_bind]. intros <-%Ok_inj.
  destruct (assembleResponse_shape bag response Hr) as ((c & t & -> & Hc) & _).
  destruct (50 <? length (c :: t))%nat eqn:Hgt.
  - apply Nat.ltb_lt in Hgt.
    assert ((c :: t) ++ farmingTips
            = c :: (t ++ removelast farmingTips) ++ [46]) as Heq.
    { rewrite <- app_assoc. cbn [app]. do 2 f_equal. }
    exists ((c :: t) ++ farmingTips). split.
    { f_equal. rewrite Heq. by apply trim_fixed. }
    split; [rewrite length_app; lia|]. right. eauto.
  - exists fallbackParagraph. split; [reflexivity|]. split; [|by left].
    vm_compute. lia.
Qed.
End fields.

(** X2. Whatever the configuration, the input, the world and the state of
    the agent: when [execute] returns a response, its [final_answer] is
    either absent or a text of more than fifty units, which is the
    fallback paragraph or ends with the farming tips.  It is never an
    empty string, nor a value that is not a string. *)
Theorem execute_final_answer `{Engine}
    (config : jsval) (w : World) (inputs : jsval) (st : State)
    (r : AgentResponse) (st' : State) :
  execute config w inputs st = (Ok r, st') →
  final_answer r = None
  ∨ ∃ s, final_answer r = Some (VStr s) ∧ (50 < length s)%nat
      ∧ (s = fallbackParagraph ∨ ∃ response, s = response ++ farmingTips).
Proof.
  intros He.
  set (P := λ (_ : list jsval) (r : AgentResponse),
         final_answer r = None
         ∨ ∃ s, final_answer r = Some (VStr s) ∧ (50 < length s)%nat
             ∧ (s = fallbackParagraph ∨ ∃ response, s = response ++ farmingTips)).
  assert (P [] (setFinalAnswer (VStr fallbackParagraph) emptyResponse)) as Hfb.
  { right. exists fallbackParagraph. split; [done|]. split; [vm_compute; lia|by left]. }
  destruct (execute_invariant config w inputs st r st' P) as (steps & HP & _);
    [| | | | |exact He|exact HP].
  - intros e. exact Hfb.
  - by left.
  - intros done step r0 HP. exact HP.
  - intros done step st0 v st1 r0 _ Hv HP. unfold P.
    rewrite storeResult_final_answer.
    destruct (isStr _ (lit "response_formatter")) eqn:Hid; [|exact HP].
    apply isStr_true in Hid.
    destruct (executeStep_Ok w step st0 v st1 Hv)
      as [(_ & Hi & Hf & _)|[(_ & Hi & Hf & _)|[(_ & Hi & Hf & _)
          |[(_ & Hi & Hf & _)|[(_ & Hi & Hf)|(_ & Hi & Hf & _)]]]]];
      try clash.
    destruct (simulateResponseFormatter_text _ _ Hf) as (s & -> & Hlen & Hs).
    right. exists s. split; [done|]. split; [done|].
    destruct Hs as [->|(response & _ & ->)]; eauto.
  - intros done step r0 _ _. exact Hfb.
Qed.


(** The final answer of a response that [execute] returns is a string
    that is not empty. *)
Lemma final_answer_nonempty `{Engine} config w inputs st r st' v :
  execute config w inputs st = (Ok r, st') →
  final_answer r = Some v → ∃ s, v = VStr s ∧ s ≠ [].
Proof.
  intros He.
  set (P := λ (_ : list jsval) (r : AgentResponse),
         ∀ v, final_answer r = Some v → ∃ s, v = VStr s ∧ s ≠ []).
  destruct (execute_invariant config w inputs st r st' P) as (steps & HP & _);
    [| | | | |exact He|apply HP].
  - intros e v0 [= <-]. by eexists.
  - intros v0 [=].
  - intros done step r0 HP. exact HP.
  - intros done step st0 v1 st1 r0 _ Hv HP v0.
    rewrite storeResult_final_answer.
    destruct (isStr _ (lit "response_formatter")) eqn:Hid; [|apply HP].
    apply isStr_true in Hid. intros [= <-].
    destruct (executeStep_Ok w step st0 v1 st1 Hv)
      as [(_ & Hi & Hf & _)|[(_ & Hi & Hf & _)|[(_ & Hi & Hf & _)
          |[(_ & Hi & Hf & _)|[(_ & Hi & Hf)|(_ & Hi & Hf & _)]]]]];
      try clash.
    destruct (simulateResponseFormatter_text _ _ Hf) as (s & -> & Hlen & _).
    exists s. split; [done|]. intros ->. simpl in Hlen. lia.
  - intros done step r0 _ _ v0 [= <-]. by eexists.
Qed.

Section allocation_facts.
Context `{Engine}.

Lemma callToLowerCase_Ok v s :
  callToLowerCase v = Ok s → ∃ q, v = VStr q ∧ s = toLowerCase q.
Proof. destruct v; simpl; try done. intros [= <-]. eauto. Qed.

Lemma simulateAllocationAgent_plan bag plan :
  simulateAllocationAgent bag = Ok plan → planOfAgent plan.
Proof.
  unfold simulateAllocationAgent.
  destruct (getProp (bagGet bag (lit "inputs")) (lit "farmer_query"))
    as [farmerQuery|]; cbn [mbind res_bind]; [|done].
  destruct (callToLowerCase farmerQuery) as [lowered|] eqn:Hl;
    cbn [mbind res_bind]; [|done].
  apply callToLowerCase_Ok in Hl as (q & -> & ->).
  destruct (if hasSamples _ then _ else _) as [soil_moisture|];
    cbn [mbind res_bind]; [|done].
  intros <-%Ok_inj.
  exists q. split; [reflexivity|]. cbv zeta.
  rewrite <- !includesAny_spec.
  set (water := includesAny (toLowerCase q) [lit "water"; lit "paani"; kw_paani]).
  set (fertilizer :=
         includesAny (toLowerCase q) [lit "fertilizer"; lit "khad"; kw_khad]).
  set (hot := gtNum _ 30).
  split; [intros ->; reflexivity|].
  split; [intros ->%not_true_is_false ->; reflexivity|].
  split; [intros ->%not_true_is_false ->%not_true_is_false; reflexivity|].
  split; [reflexivity|].
  destruct hot; [by left|by right].
Qed.
End allocation_facts.

(** X3. When [execute] returns a response with an [allocation], that record
    is one the allocation agent built: its [request] is a string, 85 per
    cent are approved when the request (in lower case) mentions water, 75
    when it does not but mentions fertilizer, 70 otherwise; the delivery
    is within 2-3 days and the priority is High or Medium.  The fallback
    record of the allocation step never reaches the response. *)
Theorem execute_allocation_plan `{Engine}
    (config : jsval) (w : World) (inputs : jsval) (st : State)
    (r : AgentResponse) (st' : State) (plan : jsval) :
  execute config w inputs st = (Ok r, st') →
  allocation r = Some plan →
  planOfAgent plan.
Proof.
  intros He.
  set (P := λ (_ : list jsval) (r : AgentResponse),
         ∀ plan, allocation r = Some plan → planOfAgent plan).
  destruct (execute_invariant config w inputs st r st' P) as (steps & HP & _);
    [| | | | |exact He|apply HP].
  - intros e plan0 [=].
  - intros plan0 [=].
  - intros done step r0 HP. exact HP.
  - intros done step st0 v st1 r0 _ Hv HP plan0.
    rewrite storeResult_allocation.
    destruct (isStr _ (lit "allocation_agent")) eqn:Hid; [|apply HP].
    apply isStr_true in Hid. intros [= <-].
    destruct (executeStep_Ok w step st0 v st1 Hv)
      as [(_ & Hi & Hf & _)|[(_ & Hi & Hf & _)|[(_ & Hi & Hf & _)
          |[(_ & Hi & Hf & _)|[(_ & Hi & Hf)|(_ & Hi & Hf & _)]]]]];
      try clash.
    by eapply simulateAllocationAgent_plan.
  - intros done step r0 _ HP. exact HP.
Qed.



Section bag.
Context `{Engine}.



End bag.


Section grid.
Context `{E : Engine} {L : RoundingLaws E}.
Local Open Scope Q_scope.

Lemma soilSample_onGrid w currentDate hour n :
  (∀ i, 0 <= random w i < 1) →
  sampleOnGrid (soilSample w currentDate hour n).
Proof.
  intros Hr. unfold sampleOnGrid, soilSample. cbn [t0 t10 moisture].
  unfold Math_round.
  set (N0 := Qfloor (fmul (fadd (fmul (random w n) (fsub 300 293)) 293) 100
                     + (1 # 2))).
  set (T0 := fdiv (inject_Z N0) 100).
  set (N1 := Qfloor (fmul (fsub T0 (fadd (fmul (random w (S n))
                                             (fsub 3 (3 # 2))) (3 # 2))) 100
                     + (1 # 2))).
  set (M := Qfloor (fmul (fadd (fmul (random w (S (S n)))
                                  (fsub (fl (26 # 100)) (fl (18 # 100))))
                            (fl (18 # 100))) 100 + (1 # 2))).
  exists N0, N1, M.
  cut ((29300 ≤ N0 ≤ 30000)%Z ∧ (N0 - 300 ≤ N1 ≤ N0 - 150)%Z ∧ (18 ≤ M ≤ 26)%Z).
  { intros (? & ? & ?). done. }
  subst N0 T0 N1 M. unfold fdiv, fmul, fadd, fsub.
  repeat match goal with
    | |- context [?a / 100] => change (a / 100) with (a * (1 # 100))
    end.
  destruct (Hr n) as [Ha1 Ha2], (Hr (S n)) as [Hb1 Hb2], (Hr (S (S n))) as [Hc1 Hc2].
  set (r1 := random w n) in *. set (r2 := random w (S n)) in *.
  set (r3 := random w (S (S n))) in *.
  assert (fl 7 == 7) as E7 by apply (fl_int 7 ltac:(done)).
  assert (fl 293 == 293) as E293 by apply (fl_int 293 ltac:(done)).
  assert (fl 300 == 300) as E300 by apply (fl_int 300 ltac:(done)).
  assert (fl 29300 == 29300) as E29300 by apply (fl_int 29300 ltac:(done)).
  assert (fl 30000 == 30000) as E30000 by apply (fl_int 30000 ltac:(done)).
  assert (fl (3 # 2) == 3 # 2) as E32 by (by apply (fl_const _ (3 * 2 ^ 19))).
  assert (fl 3 == 3) as E3 by apply (fl_int 3 ltac:(done)).
  pose proof fl_0 as E0.
  assert (fl (300 - 293) == 7) as Ew.
  { transitivity (fl 7); [apply fl_proper; lra|exact E7]. }
  set (x1 := fl (r1 * fl (300 - 293))).
  assert (0 <= x1 <= 7) as Hx1.
  { apply fl_between; [done..|]. rewrite Ew. lra. }
  set (x2 := fl (x1 + 293)).
  assert (293 <= x2 <= 300) as Hx2 by (apply fl_between; [done..|lra]).
  set (x3 := fl (x2 * 100)).
  assert (29300 <= x3 <= 30000) as Hx3 by (apply fl_between; [done..|lra]).
  set (N0 := Qfloor (x3 + (1 # 2))).
  assert (29300 <= N0 <= 30000)%Z as HN0.
  { split; [apply Math_round_ge; change (inject_Z 29300) with 29300
           |apply Math_round_le; change (inject_Z (30000 + 1)) with 30001]; lra. }
  assert (29300 <= inject_Z N0 <= 30000) as HN0q.
  { split; [change 29300 with (inject_Z 29300)|change 30000 with (inject_Z 30000)];
      rewrite <- Zle_Qle; lia. }
  set (T0 := fl (inject_Z N0 * (1 # 100))).
  assert (inject_Z N0 * (1 # 100) - eps <= T0 <= inject_Z N0 * (1 # 100) + eps) as HT0.
  { apply fl_near. lra. }
  assert (fl (3 - (3 # 2)) == 3 # 2) as Ed.
  { transitivity (fl (3 # 2)); [apply fl_proper; lra|exact E32]. }
  set (y1 := fl (r2 * fl (3 - (3 # 2)))).
  assert (0 <= y1 <= 3 # 2) as Hy1.
  { apply fl_between; [done..|]. rewrite Ed. lra. }
  set (y2 := fl (y1 + (3 # 2))).
  assert ((3 # 2) <= y2 <= 3) as Hy2 by (apply fl_between; [done..|lra]).
  set (y3 := fl (T0 - y2)).
  assert (T0 - y2 - eps <= y3 <= T0 - y2 + eps) as Hy3.
  { apply fl_near. unfold eps in *. lra. }
  set (y4 := fl (y3 * 100)).
  assert (y3 * 100 - eps <= y4 <= y3 * 100 + eps) as Hy4.
  { apply fl_near. unfold eps in *. lra. }
  set (N1 := Qfloor (y4 + (1 # 2))).
  assert (N1 <= N0 - 150)%Z as HN1.
  { apply Math_round_le. replace (N0 - 150 + 1)%Z with (N0 + -149)%Z by lia.
    rewrite inject_Z_plus. change (inject_Z (-149)) with (-149). unfold eps in *. lra. }
  assert (N0 - 300 <= N1)%Z as HN1lo.
  { apply Math_round_ge. unfold Z.sub. rewrite inject_Z_plus.
    change (inject_Z (- (300))) with (-300). unfold eps in *. lra. }
  split; [exact HN0|]. split; [split; [exact HN1lo|exact HN1]|].
  set (c26 := fl (26 # 100)). set (c18 := fl (18 # 100)).
  assert ((26 # 100) - eps <= c26 <= (26 # 100) + eps) as Hc26 by (apply fl_near; lra).
  assert ((18 # 100) - eps <= c18 <= (18 # 100) + eps) as Hc18 by (apply fl_near; lra).
  set (wd := fl (c26 - c18)).
  assert (0 <= wd <= (8 # 100) + 3 * eps) as Hwd.
  { split.
    - rewrite <- E0. apply fl_monotone. unfold eps in *. lra.
    - assert (wd <= c26 - c18 + eps) by (apply fl_near; unfold eps in *; lra).
      unfold eps in *. lra. }
  assert (0 <= r3 * wd <= wd) as Hprod.
  { split; [apply Qmult_le_0_compat; lra|].
    rewrite <- (Qmult_1_l wd) at 2. apply Qmult_le_compat_r; lra. }
  set (z1 := fl (r3 * wd)).
  assert (0 <= z1 <= (8 # 100) + 4 * eps) as Hz1.
  { split.
    - rewrite <- E0. apply fl_monotone. lra.
    - assert (z1 <= r3 * wd + eps) by (apply fl_near; unfold eps in *; lra).
      unfold eps in *. lra. }
  set (z2 := fl (z1 + c18)).
  assert ((18 # 100) - 2 * eps <= z2 <= (26 # 100) + 6 * eps) as Hz2.
  { assert (z1 + c18 - eps <= z2 <= z1 + c18 + eps)
      by (apply fl_near; unfold eps in *; lra).
    unfold eps in *. lra. }
  set (z3 := fl (z2 * 100)).
  assert (18 - 201 * eps <= z3 <= 26 + 601 * eps) as Hz3.
  { assert (z2 * 100 - eps <= z3 <= z2 * 100 + eps)
      by (apply fl_near; unfold eps in *; lra).
    unfold eps in *. lra. }
  split; [apply Math_round_ge; change (inject_Z 18) with 18
         |apply Math_round_le; change (inject_Z (26 + 1)) with 27];
    unfold eps in *; lra.
Qed.

(** The hundredths of the grid lie in the real ranges. *)
Lemma sampleOnGrid_ranges (d : SoilData) :
  sampleOnGrid d →
  293 <= t0 d <= 300 ∧ 290 <= t10 d <= 2985 # 10.
Proof.
  intros (k & j & m & Hk & Hj & _ & -> & -> & _). unfold fdiv.
  assert (fl 290 == 290) as E290 by apply (fl_int 290 ltac:(done)).
  assert (fl 293 == 293) as E293 by apply (fl_int 293 ltac:(done)).
  assert (fl 300 == 300) as E300 by apply (fl_int 300 ltac:(done)).
  assert (fl (2985 # 10) == 2985 # 10) as E2985
    by (by apply (fl_const _ (2985 * 2 ^ 19 / 5))).
  assert (29300 <= inject_Z k <= 30000) as Hkq.
  { split; [change 29300 with (inject_Z 29300)|change 30000 with (inject_Z 30000)];
      rewrite <- Zle_Qle; lia. }
  assert (29000 <= inject_Z j <= 29850) as Hjq.
  { split; [change 29000 with (inject_Z 29000)|change 29850 with (inject_Z 29850)];
      rewrite <- Zle_Qle; lia. }
  change (inject_Z k / 100) with (inject_Z k * (1 # 100)).
  change (inject_Z j / 100) with (inject_Z j * (1 # 100)).
  split; apply fl_between; try done; lra.
Qed.
End grid.

(** X7. Whatever the random draws (numbers of [0, 1)), every sample of the
    soil generator holds hundredths: the surface temperature is the number
    nearest to [k / 100] with [k] between 29300 and 30000, the temperature
    below is the number nearest to [j / 100] with [j] from 150 to 300 under
    [k], and the moisture the number nearest to [m / 100] with [m] from 18
    to 26; so the surface temperature lies in [293, 300] and the one below
    in [290, 298.5].  The generator draws exactly 36 random numbers. *)
Theorem generateSoilData_hundredths `{E : Engine} (L : RoundingLaws E)
    (w : World) (n : nat) :
  (∀ i, (0 <= random w i < 1)%Q) →
  Forall (λ d, sampleOnGrid d
               ∧ (293 <= t0 d <= 300)%Q ∧ (290 <= t10 d <= 2985 # 10)%Q)
    (generateSoilData w n).1
  ∧ (generateSoilData w n).2 = (36 + n)%nat.
Proof.
  intros Hr. rewrite generateSoilData_unfold. cbn [fst snd].
  split; [|reflexivity].
  unfold daySamples. cbn [app].
  repeat (apply Forall_cons; split;
          [split; [by apply soilSample_onGrid
                  |by apply sampleOnGrid_ranges, soilSample_onGrid]|]).
  constructor.
Qed.

Lemma generateSoilData_hundredths_witness :
  Forall (λ d, @sampleOnGrid binary64Engine d
               ∧ (293 <= t0 d <= 300)%Q ∧ (290 <= t10 d <= 2985 # 10)%Q)
    (@generateSoilData binary64Engine offlineWorld 0).1
  ∧ (@generateSoilData binary64Engine offlineWorld 0).2 = 36%nat.
Proof.
  apply (@generateSoilData_hundredths binary64Engine binary64_rounding
           offlineWorld 0).
  intros i. simpl. split; [discriminate|reflexivity].
Defined.

(** X8. The dates of the samples are those of the days 24 to 29 of
    September 2025 read in universal time: where local time is ahead of
    it, local midnight falls on the day before, and the twelve samples are
    dated from the 23rd to the 28th. *)
Theorem generateSoilData_dates `{Engine} (w : World) (n : nat) :
  date <$> (generateSoilData w n).1
  = mjoin ((λ day, [lit "2025-09-" ++ lit day; lit "2025-09-" ++ lit day])
             <$> (if eastOfUTC w
                  then ["23"; "24"; "25"; "26"; "27"; "28"]
                  else ["24"; "25"; "26"; "27"; "28"; "29"])).
Proof.
  rewrite generateSoilData_unfold. cbn [fst]. unfold daySamples, soilSample.
  cbn [app fmap list_fmap date]. unfold isoDate.
  destruct (eastOfUTC w); reflexivity.
Qed.

(** X9. For a query that is a string, the query refiner returns the phrase
    of the first subject that the query, put in lower case, mentions: a
    word of the weather wins over one of water, water over disease,
    disease over fertilizer, fertilizer over soil; the general phrase is
    returned when no word of the five lists occurs. *)
Theorem simulateQueryRefiner_first_subject `{Engine}
    (bag : gmap jsstring jsval) (q : jsstring) :
  farmerQueryOf bag = VStr q →
  ∃ phrase,
    simulateQueryRefiner bag = Ok (VStr phrase)
    ∧ refinedAs (toLowerCase q) phrase.
Proof.
  unfold farmerQueryOf, simulateQueryRefiner. intros ->.
  cbn [nullish callToLowerCase fmap res_fmap mbind res_bind].
  assert (match orElse (VStr (toLowerCase q)) (VStr []) with
          | VStr s => s
          | _ => []
          end = toLowerCase q) as ->.
  { unfold orElse. simpl. case_bool_decide as He; simpl; [by rewrite He|done]. }
  eexists. split; [reflexivity|]. unfold refinedAs. cbv zeta.
  rewrite <- !includesAny_spec.
  repeat match goal with
    | |- context [includesAny ?l ?k] => destruct (includesAny l k)
    end;
    repeat split; try done; intros; exfalso; auto.
Qed.

Lemma simulateQueryRefiner_first_subject_witness :
  ∃ phrase,
    @simulateQueryRefiner exactEngine
      {[ lit "inputs" := farmerInput (lit "Will rain water my leaf?") ]}
    = Ok (VStr phrase)
    ∧ @refinedAs (lit "will rain water my leaf?") phrase.
Proof.
  apply (@simulateQueryRefiner_first_subject exactEngine
           {[ lit "inputs" := farmerInput (lit "Will rain water my leaf?") ]}
           (lit "Will rain water my leaf?")).
  reflexivity.
Defined.

(** X10. Without a query the refiner answers with the general phrase: when
    the bag has no inputs, or the inputs have no [farmer_query] (or a
    [null] one).  A query that is neither a string nor missing makes it
    throw, as only strings have [toLowerCase]. *)
Theorem simulateQueryRefiner_no_query `{Engine} (bag : gmap jsstring jsval) :
  (nullish (farmerQueryOf bag) = true →
   simulateQueryRefiner bag
   = Ok (VStr (lit "general agricultural advice and resource guidance needed")))
  ∧ (nullish (farmerQueryOf bag) = false →
     typeofString (farmerQueryOf bag) = false →
     ∃ e, simulateQueryRefiner bag = Throw e).
Proof.
  unfold farmerQueryOf, simulateQueryRefiner. split.
  - intros ->. reflexivity.
  - intros -> Hs. destruct (getOpt _ _); try done; cbn; eauto.
Qed.

Lemma simulateQueryRefiner_no_query_witness :
  @simulateQueryRefiner exactEngine ∅
  = Ok (VStr (lit "general agricultural advice and resource guidance needed"))
  ∧ ∃ e, @simulateQueryRefiner exactEngine
           {[ lit "inputs" := VObj [(lit "farmer_query", VInt 42)] ]}
         = Throw e.
Proof.
  split.
  - apply (@simulateQueryRefiner_no_query exactEngine ∅). reflexivity.
  - apply (@simulateQueryRefiner_no_query exactEngine
             {[ lit "inputs" := VObj [(lit "farmer_query", VInt 42)] ]});
      reflexivity.
Defined.

Section draws.
Local Open Scope Q_scope.

Lemma ilog2_unique a e : 0 < a → 2 ^ e <= a → a < 2 ^ (e + 1) → ilog2 a = e.
Proof.
  intros Ha Hlo Hhi. destruct (ilog2_spec a Ha) as [L1 L2].
  assert (2 ^ e < 2 ^ (ilog2 a + 1)) as H1 by lra.
  assert (2 ^ ilog2 a < 2 ^ (e + 1)) as H2 by lra.
  apply two_lt_inv in H1, H2. lia.
Qed.

(** The largest number below 1 that binary64 represents is
    [1 - 2 ^ -53]. *)
Lemma representable_below_one r :
  0 <= r < 1 → roundBinary64 r == r → r <= 1 - (1 # 2 ^ 53).
Proof.
  intros [H0 H1] Hr.
  destruct (Qlt_le_dec r (1 # 2)) as [Hsmall|Hbig].
  { apply Qlt_le_weak. eapply Qlt_le_trans; [exact Hsmall|]. by vm_compute. }
  assert (0 < r) as Hpos by lra.
  rewrite (roundBinary64_pos r Hpos) in Hr. unfold nearest, ulpOf in Hr.
  assert (ilog2 r = (-1)%Z) as Hl.
  { apply ilog2_unique; [done| |].
    - assert (2 ^ (-1) == 1 # 2) as -> by reflexivity. exact Hbig.
    - assert (2 ^ (-1 + 1) == 1) as -> by reflexivity. exact H1. }
  rewrite Hl in Hr. change (Z.max (-1) (-1022) - 52)%Z with (-53)%Z in Hr.
  set (k := roundHalfEven (r / 2 ^ (-53))) in *.
  assert (2 ^ (-53) == 1 # 2 ^ 53) as Hu by reflexivity.
  assert (inject_Z k < inject_Z (2 ^ 53)) as Hk.
  { apply Qmult_lt_r with (2 ^ (-53)); [apply two_pos|].
    rewrite Hr. eapply Qlt_le_trans; [exact H1|]. by vm_compute. }
  rewrite <- Zlt_Qlt in Hk.
  assert (k <= 2 ^ 53 - 1)%Z as Hk' by lia.
  rewrite Zle_Qle in Hk'. rewrite <- Hr.
  apply Qle_trans with (inject_Z (2 ^ 53 - 1) * 2 ^ (-53)).
  - apply Qmult_le_compat_r; [exact Hk'|]. apply Qlt_le_weak, two_pos.
  - by vm_compute.
Qed.
End draws.

(** A draw times three, rounded and floored, is 0, 1 or 2. *)
Lemma floor_of_draw (r : Q) :
  (0 <= r < 1)%Q → (roundBinary64 r == r)%Q →
  (0 <= Qfloor (roundBinary64 (r * 3)) < 3)%Z.
Proof.
  intros Hr Hrep.
  pose proof (representable_below_one r Hr Hrep) as Hmax.
  set (x := roundBinary64 (r * 3)).
  assert (0 <= x)%Q as Hx0.
  { change 0%Q with (roundBinary64 0). apply roundBinary64_monotone. lra. }
  assert (x <= roundBinary64 ((1 - (1 # 2 ^ 53)) * 3))%Q as Hx1.
  { apply roundBinary64_monotone. lra. }
  assert (roundBinary64 ((1 - (1 # 2 ^ 53)) * 3) < 3)%Q as Hc by (by vm_compute).
  split.
  - change 0%Z with (Qfloor 0). by apply Qfloor_resp_le.
  - rewrite Zlt_Qlt. pose proof (Qfloor_le x). change (inject_Z 3) with 3%Q. lra.
Qed.

(** X11. With the arithmetic of binary64, for every number that
    [Math.random] can return (a representable number of [0, 1)), the
    disease detection returns one of its three reports: the product with
    the length of the list never rounds up to 3, and the index is never
    out of range. *)
Theorem simulateDiseaseDetection_report (r : Q) :
  (0 <= r < 1)%Q → (roundBinary64 r == r)%Q →
  @simulateDiseaseDetection binary64Engine r ∈ diseases.
Proof.
  intros Hr Hrep. pose proof (floor_of_draw r Hr Hrep) as Hz.
  unfold simulateDiseaseDetection, fmul, Math_floor.
  change (@fl binary64Engine) with roundBinary64.
  change (inject_Z (Z.of_nat (length diseases))) with 3%Q.
  set (z := Qfloor (roundBinary64 (r * 3))) in *.
  assert (z = 0 ∨ z = 1 ∨ z = 2)%Z as [Hf|[Hf|Hf]] by lia;
    rewrite Hf; apply list_elem_of_lookup.
  - by exists 0%nat.
  - by exists 1%nat.
  - by exists 2%nat.
Qed.

Lemma simulateDiseaseDetection_report_witness :
  @simulateDiseaseDetection binary64Engine (1 # 2) ∈ diseases.
Proof.
  apply simulateDiseaseDetection_report.
  - split; [discriminate|reflexivity].
  - reflexivity.
Defined.

Section soil_text.
Context `{E : Engine} {L : RoundingLaws E}.
Local Open Scope Q_scope.

Lemma percentOf_hundredth (m : Z) :
  (18 ≤ m ≤ 26)%Z →
  percentOf (VNum (fdiv (inject_Z m) 100)) = lit (pretty m).
Proof.
  intros Hm. unfold percentOf, toNumber, toFixed0, fdiv, fmul.
  change (inject_Z m / 100) with (inject_Z m * (1 # 100)).
  assert (18 <= inject_Z m <= 26) as Hq.
  { split; [change 18 with (inject_Z 18)|change 26 with (inject_Z 26)];
      rewrite <- Zle_Qle; lia. }
  set (q := fl (inject_Z m * (1 # 100))).
  assert (inject_Z m * (1 # 100) - eps <= q <= inject_Z m * (1 # 100) + eps) as Hq1.
  { apply fl_near. lra. }
  set (x := fl (q * 100)).
  assert (q * 100 - eps <= x <= q * 100 + eps) as Hx.
  { apply fl_near. unfold eps in *. lra. }
  assert (0 < x) as Hpos by (unfold eps in *; lra).
  assert (Qle_bool (inject_Z (10 ^ 21)) (Qabs x) = false) as ->.
  { apply not_true_is_false. intros Hb%Qle_bool_iff.
    rewrite Qabs_pos in Hb by lra.
    change (inject_Z (10 ^ 21)) with 1000000000000000000000 in Hb.
    unfold eps in *. lra. }
  assert (Qltb x 0 = false) as ->.
  { unfold Qltb. apply negb_false_iff, Qle_bool_iff. lra. }
  cbn [app]. do 2 f_equal.
  assert (Qabs x + (1 # 2) == x + (1 # 2)) as -> by (rewrite Qabs_pos; lra).
  apply Z.le_antisymm.
  - apply Math_round_le. rewrite inject_Z_plus. change (inject_Z 1) with 1.
    unfold eps in *. lra.
  - apply Math_round_ge. unfold eps in *. lra.
Qed.

Lemma moisture_low (m : Z) :
  (18 ≤ m ≤ 26)%Z →
  ltNum (VNum (fdiv (inject_Z m) 100)) (fl (2 # 10)) = (m <? 20)%Z.
Proof.
  intros Hm. unfold ltNum, toNumber, fdiv. cbn [from_option]. unfold Qltb.
  change (inject_Z m / 100) with (inject_Z m * (1 # 100)).
  assert (18 <= inject_Z m <= 26) as Hq.
  { split; [change 18 with (inject_Z 18)|change 26 with (inject_Z 26)];
      rewrite <- Zle_Qle; lia. }
  assert ((2 # 10) - eps <= fl (2 # 10) <= (2 # 10) + eps) as H2 by (apply fl_near; lra).
  destruct (m <? 20)%Z eqn:Hlt.
  - apply Z.ltb_lt in Hlt. apply negb_true_iff, not_true_is_false.
    intros Hb%Qle_bool_iff.
    assert (inject_Z m <= 19) as Hm19.
    { change 19 with (inject_Z 19). rewrite <- Zle_Qle. lia. }
    assert (fl (inject_Z m * (1 # 100)) <= inject_Z m * (1 # 100) + eps) as Hu
      by (apply fl_near; lra).
    unfold eps in *. lra.
  - apply Z.ltb_ge in Hlt. apply negb_false_iff, Qle_bool_iff, fl_monotone.
    assert (20 <= inject_Z m) as Hm20.
    { change 20 with (inject_Z 20). rewrite <- Zle_Qle. lia. }
    lra.
Qed.

Lemma moisture_good (m : Z) :
  (18 ≤ m ≤ 26)%Z →
  gtNum (VNum (fdiv (inject_Z m) 100)) (25 # 100) = (25 <? m)%Z.
Proof.
  intros Hm. unfold gtNum, toNumber, fdiv. cbn [from_option]. unfold Qltb.
  change (inject_Z m / 100) with (inject_Z m * (1 # 100)).
  assert (18 <= inject_Z m <= 26) as Hq.
  { split; [change 18 with (inject_Z 18)|change 26 with (inject_Z 26)];
      rewrite <- Zle_Qle; lia. }
  assert (fl (25 # 100) == 25 # 100) as E25 by (by apply (fl_const _ (2 ^ 18))).
  destruct (25 <? m)%Z eqn:Hlt.
  - apply Z.ltb_lt in Hlt. apply negb_true_iff, not_true_is_false.
    intros Hb%Qle_bool_iff.
    assert (26 <= inject_Z m) as Hm26.
    { change 26 with (inject_Z 26). rewrite <- Zle_Qle. lia. }
    assert (inject_Z m * (1 # 100) - eps <= fl (inject_Z m * (1 # 100))) as Hu
      by (apply fl_near; lra).
    unfold eps in *. lra.
  - apply Z.ltb_ge in Hlt. apply negb_false_iff, Qle_bool_iff.
    rewrite <- E25. apply fl_monotone.
    assert (inject_Z m <= 25) as Hm25.
    { change 25 with (inject_Z 25). rewrite <- Zle_Qle. lia. }
    lra.
Qed.

(** The last of twelve samples, as the formatter and the allocation agent
    find it: [soil[soil.length - 1]]. *)
Lemma lastOf_twelve (s1 s2 s3 s4 s5 s6 s7 s8 s9 s10 s11 s12 : jsval) :
  lastOf (VArr [s1; s2; s3; s4; s5; s6; s7; s8; s9; s10; s11; s12]) = s12.
Proof.
  unfold lastOf.
  assert (ownProp (VArr [s1; s2; s3; s4; s5; s6; s7; s8; s9; s10; s11; s12])
            (lit "length") = VInt 12) as -> by reflexivity.
  cbn [toNumber VInt]. unfold fsub, Number_toString.
  assert (fl (inject_Z 12 - 1) == 11) as Hfl.
  { transitivity (fl 11); [apply fl_proper; reflexivity|apply (fl_int 11 ltac:(done))]. }
  rewrite (Qred_complete _ _ Hfl). reflexivity.
Qed.
End soil_text.

(** X12. On the list that the soil generator made, the formatter's sentence
    about the soil never fails and prints a whole percentage from 18 to
    26, the hundredth of the moisture of the last sample; it adds that
    this is on the low side exactly below 20 per cent, and that the
    moisture is good exactly at 26. *)
Theorem soilInformation_generated `{E : Engine} (L : RoundingLaws E)
    (w : World) (n : nat) :
  (∀ i, (0 <= random w i < 1)%Q) →
  ∃ (d : SoilData) (m : Z),
    last (generateSoilData w n).1 = Some d
    ∧ (18 ≤ m ≤ 26)%Z
    ∧ moisture d = fdiv (inject_Z m) 100
    ∧ soilInformation (VArr (soilValue <$> (generateSoilData w n).1))
      = Ok (lit "Your soil moisture is at " ++ lit (pretty m) ++ lit "%. "
            ++ moistureAdvice m).
Proof.
  intros Hr. rewrite generateSoilData_unfold. cbn [fst].
  unfold daySamples. cbn [app fmap list_fmap].
  destruct (soilSample_onGrid w 29 15 (3 + (30 + n)) Hr)
    as (k & j & m & _ & _ & Hm & _ & _ & Hmoist).
  set (d := soilSample w 29 15 (3 + (30 + n))) in *.
  exists d, m. split; [reflexivity|]. split; [exact Hm|]. split; [exact Hmoist|].
  unfold soilInformation.
  assert (∀ l, hasSamples (VArr (soilValue (soilSample w 24 9 n) :: l)) = true)
    as -> by (intros l; reflexivity).
  rewrite lastOf_twelve.
  assert (getProp (soilValue d) (lit "moisture") = Ok (VNum (moisture d))) as ->
    by reflexivity.
  cbn [mbind res_bind]. rewrite Hmoist.
  rewrite percentOf_hundredth, moisture_low, moisture_good by exact Hm.
  reflexivity.
Qed.

Lemma soilInformation_generated_witness :
  ∃ (d : SoilData) (m : Z),
    last (@generateSoilData binary64Engine offlineWorld 0).1 = Some d
    ∧ (18 ≤ m ≤ 26)%Z
    ∧ moisture d = @fdiv binary64Engine (inject_Z m) 100
    ∧ @soilInformation binary64Engine
        (VArr (soilValue <$> (@generateSoilData binary64Engine offlineWorld 0).1))
      = Ok (lit "Your soil moisture is at " ++ lit (pretty m) ++ lit "%. "
            ++ moistureAdvice m).
Proof.
  apply (@soilInformation_generated binary64Engine binary64_rounding
           offlineWorld 0).
  intros i. simpl. split; [discriminate|reflexivity].
Defined.

Section guard_facts.
Context `{Engine}.

End guard_facts.





Lemma executeStep_unknown_witness :
  ∃ e, @executeStep exactEngine offlineWorld
         (stepOf "weather_api" "model_call" "weather_data" []) freshState
       = (Throw e, freshState).
Proof.
  apply (@executeStep_unknown exactEngine offlineWorld
           (stepOf "weather_api" "model_call" "weather_data" []) freshState).
  reflexivity.
Defined.

Lemma execute_final_answer_witness :
  ∃ r st',
    @execute exactEngine specConfig offlineWorld (farmerInput waterQuery)
      freshState = (Ok r, st')
    ∧ (final_answer r = None
       ∨ ∃ s, final_answer r = Some (VStr s) ∧ (50 < length s)%nat
           ∧ (s = fallbackParagraph ∨ ∃ response, s = response ++ farmingTips)).
Proof.
  eexists _, _. split; [vm_compute; reflexivity|].
  eapply (@execute_final_answer exactEngine specConfig offlineWorld
            (farmerInput waterQuery) freshState).
  vm_compute; reflexivity.
Defined.

Lemma execute_allocation_plan_witness :
  ∃ r st' plan,
    @execute exactEngine specConfig offlineWorld (farmerInput waterQuery)
      freshState = (Ok r, st')
    ∧ allocation r = Some plan
    ∧ @planOfAgent exactEngine plan.
Proof.
  eexists _, _, _. split; [vm_compute; reflexivity|].
  split; [reflexivity|].
  eapply (@execute_allocation_plan exactEngine specConfig offlineWorld
            (farmerInput waterQuery) freshState);
    [vm_compute; reflexivity|reflexivity].
Defined.




(** The decoder agrees with the code units of the Urdu keywords. *)
Example utf16_keywords :
  utf16 "موسم" = kw_mausam ∧ utf16 "پانی" = kw_paani
  ∧ utf16 "بیماری" = kw_beemari ∧ utf16 "پتا" = kw_patta
  ∧ utf16 "کھاد" = kw_khad ∧ utf16 "مٹی" = kw_mitti
  ∧ utf16 "28°C 💧" = [50; 56; 176; 67; 32; 55357; 56487].
Proof. repeat split; reflexivity. Qed.

Lemma execute_returns `{Engine} config w inputs st :
  nullish config = false → ∃ r st', execute config w inputs st = (Ok r, st').
Proof.
  intros Hc. unfold execute.
  destruct (executeBody config w inputs st) as [[r|e] st1]; [eauto|].
  rewrite executeCatch_returns by done. eauto.
Qed.

(** X15. Sending a message in the chat.  A text that is blank (empty or
    white space only) without an image is ignored: nothing changes and the
    agent is not called.  Otherwise, with a configuration that is an
    object, the list of messages grows by exactly two: the user's message
    with the text as typed, then the reply of the agent, which carries the
    response; the reply is never empty: it is the [final_answer] of the
    response, or the standard sentence in the language of the chat when
    the response has none.  The input field is cleared, both progress
    flags are off again, and the text of the [catch] (trouble connecting)
    is never shown. *)
Theorem handleSendMessage_reply `{Engine}
    (config : jsval) (w : World) (sentAt answeredAt : Z) (text : jsstring)
    (type : SmartKissanChat.MessageType) (image : option jsstring)
    (ui : SmartKissanChat.ChatState) (st : State) :
  (trim text = [] → SmartKissanChat.noImage image = true →
   SmartKissanChat.handleSendMessage config w sentAt answeredAt text type
     image ui st = (ui, st))
  ∧ (nullish config = false →
     trim text ≠ [] ∨ SmartKissanChat.noImage image = false →
     ∃ r st' s,
       execute config w (VObj [(lit "farmer_query", VStr text)]) st
       = (Ok r, st')
       ∧ SmartKissanChat.handleSendMessage config w sentAt answeredAt text
           type image ui st
         = ({| SmartKissanChat.messages :=
                 SmartKissanChat.messages ui
                 ++ [ {| SmartKissanChat.id := lit (pretty sentAt);
                         SmartKissanChat.type := SmartKissanChat.user;
                         SmartKissanChat.content := VStr text;
                         SmartKissanChat.timestamp := sentAt;
                         SmartKissanChat.messageType := Some type;
                         SmartKissanChat.image := image;
                         SmartKissanChat.agentResponse := None |};
                      {| SmartKissanChat.id := lit (pretty (answeredAt + 1)%Z);
                         SmartKissanChat.type := SmartKissanChat.smartkissan;
                         SmartKissanChat.content := VStr s;
                         SmartKissanChat.timestamp := answeredAt;
                         SmartKissanChat.messageType := None;
                         SmartKissanChat.image := None;
                         SmartKissanChat.agentResponse := Some r |} ];
               SmartKissanChat.inputText := [];
               SmartKissanChat.isLoading := false;
               SmartKissanChat.language := SmartKissanChat.language ui;
               SmartKissanChat.processingAgent := false |}, st')
       ∧ s ≠ []
       ∧ (final_answer r = Some (VStr s)
          ∨ final_answer r = None
            ∧ s = SmartKissanChat.analysedText (SmartKissanChat.language ui))).
Proof.
  unfold SmartKissanChat.handleSendMessage. split.
  - intros -> ->. reflexivity.
  - intros Hc Hsend.
    assert (bool_decide (trim text = []) && SmartKissanChat.noImage image = false)
      as ->.
    { apply andb_false_iff. destruct Hsend as [Ht|Hi]; [left|by right].
      by apply bool_decide_eq_false. }
    destruct (execute_returns config w (VObj [(lit "farmer_query", VStr text)])
                st Hc) as (r & st' & He).
    rewrite He.
    assert (∃ s, SmartKissanChat.responseContent r (SmartKissanChat.language ui)
                 = VStr s
                 ∧ s ≠ []
                 ∧ (final_answer r = Some (VStr s)
                    ∨ final_answer r = None
                      ∧ s = SmartKissanChat.analysedText
                              (SmartKissanChat.language ui))) as (s & Hs & Hne & Hor).
    { unfold SmartKissanChat.responseContent.
      destruct (final_answer r) as [v|] eqn:Hfa.
      - destruct (final_answer_nonempty _ _ _ _ _ _ _ He Hfa) as (s & -> & Hne).
        exists s. split; [|split; [done|by left]].
        unfold orElse. simpl. by rewrite bool_decide_eq_false_2.
      - eexists. split; [reflexivity|]. split; [|by right].
        by destruct (SmartKissanChat.language ui). }
    exists r, st', s. split; [reflexivity|]. split; [|done].
    rewrite Hs.
    unfold SmartKissanChat.setIsLoading, SmartKissanChat.addMessage,
      SmartKissanChat.setProcessingAgent, SmartKissanChat.setInputText.
    cbn. by rewrite <- app_assoc.
Qed.

Lemma handleSendMessage_reply_witness :
  let ui := {| SmartKissanChat.messages := [];
               SmartKissanChat.inputText := waterQuery;
               SmartKissanChat.isLoading := false;
               SmartKissanChat.language := SmartKissanChat.ur;
               SmartKissanChat.processingAgent := false |} in
  @SmartKissanChat.handleSendMessage exactEngine specConfig offlineWorld
    1758700000000 1758700000250 (lit "   ") SmartKissanChat.text None ui
    freshState = (ui, freshState)
  ∧ ∃ ui' st',
      @SmartKissanChat.handleSendMessage exactEngine specConfig offlineWorld
        1758700000000 1758700000250 waterQuery SmartKissanChat.text None ui
        freshState = (ui', st')
      ∧ length (SmartKissanChat.messages ui') = 2%nat
      ∧ SmartKissanChat.inputText ui' = []
      ∧ SmartKissanChat.isLoading ui' = false.
Proof.
  intros ui.
  destruct (@handleSendMessage_reply exactEngine specConfig offlineWorld
              1758700000000 1758700000250 (lit "   ") SmartKissanChat.text
              None ui freshState) as [Hblank _].
  split; [apply Hblank; reflexivity|].
  destruct (@handleSendMessage_reply exactEngine specConfig offlineWorld
              1758700000000 1758700000250 waterQuery SmartKissanChat.text
              None ui freshState) as [_ Hsend].
  destruct Hsend as (r & st' & s & _ & -> & _); [reflexivity|left; by vm_compute|].
  eexists _, _. split; [reflexivity|]. repeat split.
Defined.

Section json_agent.
Context `{Engine}.

Lemma allocateResources_throws request weather soil :
  (∃ e, JsonAgent.allocateResources request weather soil = Throw e)
  ↔ unprintable request.
Proof.
  unfold JsonAgent.allocateResources, JsonAgent.allocationPlan,
    JsonAgent.getFallbackResourceAllocation, unprintable.
  destruct (toStringOf request) as [t|e]; cbn [mbind res_bind].
  - split; [|intros [e [=]]].
    intros [e He]. by destruct (_ ≫= _).
  - split; eauto.
Qed.

Lemma weatherUrl_coordinates config apiKey :
  nullish (coordinatesOf config) = true →
  ∃ e, JsonAgent.weatherUrl config apiKey = Throw e.
Proof.
  unfold coordinatesOf, JsonAgent.weatherUrl, getProp, getOpt.
  destruct (nullish config) eqn:Hc; cbn [mbind res_bind]; [eauto|].
  destruct (nullish (ownProp config _)) eqn:Hw; cbn [mbind res_bind]; [eauto|].
  destruct (nullish (ownProp (ownProp config _) _)) eqn:Hf;
    cbn [mbind res_bind]; [eauto|].
  destruct (nullish (ownProp (ownProp (ownProp config _) _) _)) eqn:Hs;
    cbn [mbind res_bind]; [eauto|].
  intros ->. eauto.
Qed.
End json_agent.

(** X16. The outcome of a call of the agent configured by JSON.  The call
    fails ([success = false], with an [error] and nothing else) exactly
    when the input is [null] or [undefined], or when the allocation plan
    is asked for a request that has no text.  Otherwise the response has
    the weather, the twelve soil samples of the generator and no error;
    it has the disease report exactly when the mode is
    [disease_detection] with an image, and the allocation plan exactly
    when the mode is [resource_allocation] with a request: never both. *)
Theorem jsonAgent_execute_outcome `{Engine}
    (config apiKey : jsval) (w : World) (inputs : jsval) (st : State) :
  let r := (JsonAgent.execute config apiKey w inputs st).1 in
  (JsonAgent.success r = false
   ↔ nullish inputs = true
     ∨ asksAllocation inputs = true
       ∧ unprintable (ownProp inputs (lit "farm_request")))
  ∧ (JsonAgent.success r = false →
     JsonAgent.weather r = None ∧ JsonAgent.soil r = None
     ∧ JsonAgent.disease r = None ∧ JsonAgent.allocation r = None
     ∧ is_Some (JsonAgent.error r))
  ∧ (JsonAgent.success r = true →
     is_Some (JsonAgent.weather r)
     ∧ JsonAgent.soil r = Some (generateSoilData w (drawn st)).1
     ∧ JsonAgent.error r = None
     ∧ (is_Some (JsonAgent.disease r) ↔ asksDisease inputs = true)
     ∧ (is_Some (JsonAgent.allocation r) ↔ asksAllocation inputs = true)).
Proof.
  intros r. subst r. unfold JsonAgent.execute.
  destruct (JsonAgent.getWeatherData config apiKey w st) as [fetched st1] eqn:Hw.
  assert (drawn st1 = drawn st) as ->.
  { unfold JsonAgent.getWeatherData in Hw.
    destruct (JsonAgent.weatherUrl config apiKey); by injection Hw as _ <-. }
  destruct (generateSoilData w (drawn st)) as [soilData n] eqn:Hsoil.
  unfold JsonAgent.specificAgent, asksAllocation, asksDisease, getProp.
  destruct (nullish inputs) eqn:Hn.
  { cbn [fst]. split; [split; [by left|done]|]. split; [by eauto|done]. }
  set (d := isStr _ (lit "disease_detection") && _).
  set (a := isStr _ (lit "resource_allocation") && _).
  destruct d.
  { cbn [fst negb andb]. split.
    { split; [done|]. by intros [?|[? _]]. }
    split; [done|]. intros _. split; [by eexists|]. split; [done|]. split; [done|].
    split; [split; [done|intros _; by eexists]|]. split; [by intros [? [=]]|done]. }
  cbn [negb andb]. destruct a.
  - destruct (JsonAgent.allocateResources _ _ _) as [text|e] eqn:Ha;
      cbn [fmap res_fmap fst].
    + split.
      { split; [done|]. intros [?|[_ Hu]]; [done|].
        match type of Ha with
        | JsonAgent.allocateResources ?q ?W ?S = _ =>
            destruct (proj2 (allocateResources_throws q W S) Hu) as [e He]
        end.
        congruence. }
      split; [done|]. intros _. split; [by eexists|]. split; [done|]. split; [done|].
      split; [split; [by intros [? [=]]|done]|]. split; [done|intros _; by eexists].
    + split.
      { split; [|done]. intros _. right. split; [done|].
        eapply allocateResources_throws. eauto. }
      split; [|done]. intros _. repeat split; by eexists.
  - cbn [fst]. split.
    { split; [done|]. by intros [?|[? _]]. }
    split; [done|]. intros _. split; [by eexists|]. split; [done|]. split; [done|].
    split; (split; [by intros [? [=]]|done]).
Qed.

(** X17. The weather of that agent.  When the configuration has no
    coordinates ([workflow[0].config.params] is missing at any link), no
    request is sent and, unless the call fails, the weather is the
    fallback record.  In general the weather of a successful call is what
    the provider answered with an [ok] status to the one request of the
    call, or else exactly the fallback record. *)
Theorem jsonAgent_weather `{Engine}
    (config apiKey : jsval) (w : World) (inputs : jsval) (st : State) :
  let r := (JsonAgent.execute config apiKey w inputs st).1 in
  let st' := (JsonAgent.execute config apiKey w inputs st).2 in
  (nullish (coordinatesOf config) = true →
   requested st' = requested st
   ∧ (JsonAgent.success r = true →
      JsonAgent.weather r = Some fallbackWeather))
  ∧ (∀ v, JsonAgent.weather r = Some v →
       v = fallbackWeather
       ∨ ∃ url, JsonAgent.weatherUrl config apiKey = Ok url
           ∧ requested st' = S (requested st)
           ∧ network w (requested st) (VStr url) VUndef
             = Responded true (Some v)).
Proof.
  intros r st'. subst r st'. unfold JsonAgent.execute.
  destruct (JsonAgent.getWeatherData config apiKey w st) as [fetched st1] eqn:Hw.
  destruct (generateSoilData w (drawn st1)) as [soilData n] eqn:Hsoil.
  set (st2 := {| workflowResults := workflowResults st1; drawn := n;
                 requested := requested st1 |}).
  assert (∀ weatherData,
            requested (JsonAgent.specificAgent w inputs weatherData soilData st2).2
            = requested st1) as Hreq.
  { intros weatherData. unfold JsonAgent.specificAgent.
    destruct (getProp inputs _); [|done].
    repeat match goal with |- context [if ?b then _ else _] => destruct b end;
      done. }
  unfold JsonAgent.getWeatherData in Hw. split.
  - intros Hc. destruct (weatherUrl_coordinates config apiKey Hc) as [e He].
    rewrite He in Hw. injection Hw as <- <-.
    specialize (Hreq JsonAgent.getFallbackWeatherData).
    destruct (JsonAgent.specificAgent _ _ _ _ _) as [[[dt alt]|e'] st3];
      cbn [fst snd] in *; by split.
  - intros v.
    destruct (JsonAgent.weatherUrl config apiKey) as [url|e] eqn:Hu;
      injection Hw as <- <-.
    + specialize (Hreq
        match
          match network w (requested st) (VStr url) VUndef with
          | Rejected => Throw (TypeError "Failed to fetch")
          | Responded true (Some body) => Ok body
          | Responded true None => Throw (Error (lit "Unexpected end of JSON input"))
          | Responded false _ => Throw (Error (lit "Weather API request failed"))
          end
        with
        | Ok weatherData => weatherData
        | Throw _ => JsonAgent.getFallbackWeatherData
        end).
      destruct (JsonAgent.specificAgent _ _ _ _ _) as [[[dt alt]|e'] st3];
        cbn [fst snd JsonAgent.weather] in *; [|done].
      intros [= <-].
      destruct (network w (requested st) (VStr url) VUndef) as [|[] [body|]] eqn:Hn;
        try (by left).
      right. exists url. by rewrite Hreq.
    + destruct (JsonAgent.specificAgent _ _ _ _ _) as [[[dt alt]|e'] st3];
        cbn [fst JsonAgent.weather]; [|done].
      intros [= <-]. by left.
Qed.

Section json_reports.
Context `{Engine}.

Lemma toNumberOf_throws v e :
  toNumberOf v = Throw e → unprintable v.
Proof.
  unfold toNumberOf, unprintable.
  destruct v; try done; destruct (toStringOf _) eqn:Hs; try done; eauto.
Qed.

Lemma toNumberOf_printable v t :
  toStringOf v = Ok t → ∃ n, toNumberOf v = Ok n.
Proof.
  unfold toNumberOf. intros Hs. destruct v; try (by eexists); rewrite Hs; by eexists.
Qed.

Lemma greaterThan_printable v c t :
  toStringOf v = Ok t → ∃ b, greaterThan v c = Ok b.
Proof.
  intros Hs. unfold greaterThan.
  destruct (toNumberOf_printable v t Hs) as [n ->]. by eexists.
Qed.

Lemma lessThan_printable v c t :
  toStringOf v = Ok t → ∃ b, lessThan v c = Ok b.
Proof.
  intros Hs. unfold lessThan.
  destruct (toNumberOf_printable v t Hs) as [n ->]. by eexists.
Qed.

Lemma printable_or v : unprintable v ∨ ∃ t, toStringOf v = Ok t.
Proof. unfold unprintable. destruct (toStringOf v); eauto. Qed.

(** The weather lines of the disease report fail exactly on a record
    that cannot be read. *)
Lemma weatherContext_throws weather :
  (∃ e, JsonAgent.weatherContext weather = Throw e) ↔ weatherUnreadable weather.
Proof.
  unfold JsonAgent.weatherContext, weatherUnreadable.
  destruct (truthy weather) eqn:Ht; [|split; [by intros [e He]|by intros [? _]]].
  assert (nullish weather = false) as Hn by (by destruct weather).
  unfold getProp. rewrite Hn. cbn [mbind res_bind].
  set (main := ownProp weather (lit "main")).
  destruct (nullish main) eqn:Hm; cbn [mbind res_bind].
  { split; [intros _; split; [done|by left]|eauto]. }
  set (temp := ownProp main (lit "temp")).
  set (humidity := ownProp main (lit "humidity")).
  destruct (printable_or temp) as [[e He]|[tt Ht']].
  { rewrite He. cbn [mbind res_bind]. split; [intros _|by eauto].
    split; [done|]. right. left. by exists e. }
  rewrite Ht'. cbn [mbind res_bind].
  destruct (printable_or humidity) as [[e He]|[th Hh]].
  { rewrite He. cbn [mbind res_bind]. split; [intros _|by eauto].
    split; [done|]. right. right. by exists e. }
  rewrite Hh. cbn [mbind res_bind].
  destruct (greaterThan_printable humidity 70 th Hh) as [b ->].
  cbn [mbind res_bind]. split; [by intros [e He]|].
  intros [_ [?|[[e He]|[e He]]]]; congruence.
Qed.
End json_reports.

(** With binary64 the disease drawn is one of the three of the list, and
    its lines are made. *)
Lemma diseaseLines_drawn (r : Q) :
  (0 <= r < 1)%Q → (roundBinary64 r == r)%Q →
  ∃ d lines,
    d ∈ JsonAgent.mockDiseases
    ∧ atNumber JsonAgent.mockDiseases
        (Math_floor (@fmul binary64Engine r
                       (inject_Z (Z.of_nat (length JsonAgent.mockDiseases)))))
      = d
    ∧ @JsonAgent.diseaseLines binary64Engine d
      = Ok (lit "**Disease Analysis Results**" ++ lines).
Proof.
  intros Hr Hrep. pose proof (floor_of_draw r Hr Hrep) as Hz.
  unfold fmul, Math_floor.
  change (@fl binary64Engine) with roundBinary64.
  change (inject_Z (Z.of_nat (length JsonAgent.mockDiseases))) with 3%Q.
  set (z := Qfloor (roundBinary64 (r * 3))) in *.
  assert (z = 0 ∨ z = 1 ∨ z = 2)%Z as [Hf|[Hf|Hf]] by lia; rewrite Hf.
  - eexists _, _. split; [apply list_elem_of_lookup; by exists 0%nat|].
    split; reflexivity.
  - eexists _, _. split; [apply list_elem_of_lookup; by exists 1%nat|].
    split; reflexivity.
  - eexists _, _. split; [apply list_elem_of_lookup; by exists 2%nat|].
    split; reflexivity.
Qed.

(** X18. The disease report of the agent configured by JSON, with the
    arithmetic of binary64 and a random number that [Math.random] can
    return.  Whatever the image, the report is the offline text exactly
    when the weather record cannot be read (it is there, but has no
    [main], or its temperature or humidity has no text).  Otherwise it is
    an analysis of one of the three diseases of the list, followed by the
    lines on the weather and on the soil. *)
Theorem detectDisease_offline (r : Q) (image weather : jsval)
    (soil : list SoilData) :
  (0 <= r < 1)%Q → (roundBinary64 r == r)%Q →
  (@weatherUnreadable binary64Engine weather →
   @JsonAgent.detectDisease binary64Engine r image weather soil
   = JsonAgent.getFallbackDiseaseDetection)
  ∧ (¬ @weatherUnreadable binary64Engine weather →
     ∃ d lines context,
       d ∈ JsonAgent.mockDiseases
       ∧ @JsonAgent.diseaseLines binary64Engine d
         = Ok (lit "**Disease Analysis Results**" ++ lines)
       ∧ @JsonAgent.weatherContext binary64Engine weather = Ok context
       ∧ @JsonAgent.detectDisease binary64Engine r image weather soil
         = lit "**Disease Analysis Results**" ++ lines ++ context
           ++ @JsonAgent.soilConditions binary64Engine soil
       ∧ @JsonAgent.detectDisease binary64Engine r image weather soil
         ≠ JsonAgent.getFallbackDiseaseDetection).
Proof.
  intros Hr Hrep.
  destruct (diseaseLines_drawn r Hr Hrep) as (d & lines & Hin & Hd & Hlines).
  unfold JsonAgent.detectDisease, JsonAgent.diseaseAnalysis.
  rewrite Hd, Hlines. cbn [mbind res_bind]. split.
  - intros [e He]%weatherContext_throws. by rewrite He.
  - intros Hread.
    destruct (@JsonAgent.weatherContext binary64Engine weather) as [context|e] eqn:Hc.
    + exists d, lines, context. cbn [mbind res_bind].
      split; [done|]. split; [done|]. split; [done|].
      split; [by rewrite <- !app_assoc|].
      intros Heq. apply (f_equal (take 3)) in Heq. by vm_compute in Heq.
    + exfalso. apply Hread, weatherContext_throws. eauto.
Qed.

Lemma detectDisease_offline_witness :
  (@JsonAgent.detectDisease binary64Engine (1 # 2) VUndef
     (VObj [(lit "cod", VInt 200)]) []
   = JsonAgent.getFallbackDiseaseDetection)
  ∧ @JsonAgent.detectDisease binary64Engine (1 # 2) VUndef fallbackWeather []
    ≠ JsonAgent.getFallbackDiseaseDetection.
Proof.
  split.
  - apply (detectDisease_offline (1 # 2) VUndef (VObj [(lit "cod", VInt 200)]) []).
    + split; [discriminate|reflexivity].
    + reflexivity.
    + split; [reflexivity|]. left. reflexivity.
  - destruct (detectDisease_offline (1 # 2) VUndef fallbackWeather [])
      as [_ Hok].
    + split; [discriminate|reflexivity].
    + reflexivity.
    + destruct Hok as (d & lines & context & _ & _ & _ & _ & Hne); [|exact Hne].
      intros [_ [Hm|[[e He]|[e He]]]]; discriminate.
Defined.

(** Two texts whose first three units differ. *)
Lemma differ_at_head (a b t1 t2 : jsstring) :
  take 3 a ≠ take 3 b → (3 ≤ length a)%nat → (3 ≤ length b)%nat →
  a ++ t1 ≠ b ++ t2.
Proof.
  intros Hne Ha Hb Heq. apply Hne. apply (f_equal (take 3)) in Heq.
  by rewrite !take_app_le in Heq.
Qed.

Lemma plan_shape (a1 a2 a3 q d w f s c n : jsstring) :
  a1 ++ a2 ++ a3 ++ q ++ d ++ w ++ f ++ s ++ c ++ n
  = a1 ++ a2 ++ a3 ++ q ++ d ++ (w ++ f ++ s ++ c) ++ n.
Proof. by rewrite <- !app_assoc. Qed.

Section json_allocation.
Context `{Engine}.

(** The weather lines of the allocation plan fail exactly on a record
    that cannot be read. *)
Lemma weatherConsiderations_throws weather :
  (∃ e, JsonAgent.weatherConsiderations weather = Throw e)
  ↔ conditionsUnreadable weather.
Proof.
  unfold JsonAgent.weatherConsiderations, conditionsUnreadable, weatherUnreadable.
  destruct (truthy weather) eqn:Ht;
    [|split; [by intros [e He]|by intros [[? _]|[? _]]]].
  assert (nullish weather = false) as Hn by (by destruct weather).
  unfold getProp. rewrite Hn. cbn [mbind res_bind].
  set (main := ownProp weather (lit "main")).
  destruct (nullish main) eqn:Hm; cbn [mbind res_bind].
  { split; [intros _; left; split; [done|by left]|eauto]. }
  set (temp := ownProp main (lit "temp")).
  set (humidity := ownProp main (lit "humidity")).
  destruct (printable_or temp) as [[e He]|[tt Ht']].
  { rewrite He. cbn [mbind res_bind]. split; [intros _|by eauto].
    left. split; [done|]. right. left. by exists e. }
  rewrite Ht'. cbn [mbind res_bind].
  destruct (greaterThan_printable temp 30 tt Ht') as [hot ->].
  cbn [mbind res_bind].
  assert (∃ cool, (if hot then Ok false else lessThan temp 20) = Ok cool)
    as [cool ->].
  { destruct hot; [by eexists|]. apply (lessThan_printable temp 20 tt Ht'). }
  cbn [mbind res_bind].
  destruct (printable_or humidity) as [[e He]|[th Hh]].
  { rewrite He. cbn [mbind res_bind]. split; [intros _|by eauto].
    left. split; [done|]. right. right. by exists e. }
  rewrite Hh. cbn [mbind res_bind].
  set (conditions := ownProp weather (lit "weather")).
  destruct (nullish conditions) eqn:Hc; cbn [mbind res_bind].
  { split; [intros _; right; split; [done|by left]|eauto]. }
  set (first := ownProp conditions (lit "0")).
  destruct (nullish first) eqn:Hf; cbn [mbind res_bind].
  { split; [intros _; right; split; [done|right; by left]|eauto]. }
  set (description := ownProp first (lit "description")).
  destruct (printable_or description) as [[e He]|[td Hd]].
  { rewrite He. cbn [mbind res_bind]. split; [intros _|by eauto].
    right. split; [done|]. right. right. by exists e. }
  rewrite Hd. cbn [mbind res_bind]. split; [by intros [e He]|].
  intros [[_ [?|[[e He]|[e He]]]]|[_ [?|[?|[e He]]]]]; congruence.
Qed.
End json_allocation.

(** X19. The allocation plan of the agent configured by JSON.  A request
    without text makes [allocateResources] throw.  For any other request
    it returns the offline text (with the request in it) when the request
    is not a string, or when the weather record cannot be read (it is
    there, but lacks [main], [weather[0]] or a text for the temperature,
    the humidity or the description); and otherwise a plan that starts
    with its title and the request and ends with the four next steps,
    which is never the offline text. *)
Theorem allocateResources_outcome `{Engine}
    (request weather : jsval) (soil : list SoilData) :
  (unprintable request →
   ∃ e, JsonAgent.allocateResources request weather soil = Throw e)
  ∧ (∀ requestText, toStringOf request = Ok requestText →
     ∃ offline,
       JsonAgent.getFallbackResourceAllocation request = Ok offline
       ∧ (typeofString request = false ∨ conditionsUnreadable weather →
          JsonAgent.allocateResources request weather soil = Ok offline)
       ∧ (typeofString request = true → ¬ conditionsUnreadable weather →
          ∃ middle,
            JsonAgent.allocateResources request weather soil
            = Ok (lit "**Resource Allocation Plan**" ++ [10; 10]
                  ++ utf16 "📝 **Request:** " ++ requestText ++ [10; 10]
                  ++ middle ++ JsonAgent.nextSteps)
            ∧ JsonAgent.allocateResources request weather soil
              ≠ Ok offline)).
Proof.
  split; [apply allocateResources_throws|].
  intros requestText Hq.
  unfold JsonAgent.allocateResources, JsonAgent.allocationPlan,
    JsonAgent.getFallbackResourceAllocation.
  rewrite Hq. cbn [mbind res_bind]. eexists. split; [reflexivity|]. split.
  - intros [Hs|Hw].
    + destruct request; try done.
    + destruct (callToLowerCase request); cbn [mbind res_bind]; [|done].
      apply weatherConsiderations_throws in Hw as [e ->]. done.
  - intros Hs Hw. destruct request as [| | | |q| |]; try done.
    cbn [callToLowerCase mbind res_bind].
    destruct (JsonAgent.weatherConsiderations weather) as [c|e] eqn:Hc.
    + cbn [mbind res_bind]. eexists. split.
      * exact (f_equal Ok (plan_shape _ _ _ _ _ _ _ _ _ _)).
      * intros Heq%Ok_inj. revert Heq.
        apply differ_at_head; [by vm_compute|vm_compute; lia..].
    + exfalso. apply Hw, weatherConsiderations_throws. eauto.
Qed.

Lemma allocateResources_outcome_witness :
  (∃ e, @JsonAgent.allocateResources exactEngine
          (VObj [(lit "toString", VNull)]) fallbackWeather [] = Throw e)
  ∧ ∃ offline,
      @JsonAgent.getFallbackResourceAllocation exactEngine (VInt 5) = Ok offline
      ∧ @JsonAgent.allocateResources exactEngine (VInt 5) fallbackWeather []
        = Ok offline.
Proof.
  destruct (@allocateResources_outcome exactEngine
              (VObj [(lit "toString", VNull)]) fallbackWeather []) as [Hthrow _].
  split; [apply Hthrow; by eexists|].
  destruct (@allocateResources_outcome exactEngine (VInt 5) fallbackWeather [])
    as [_ Hok].
  destruct (Hok (lit "5") eq_refl) as (offline & Hoff & Hfb & _).
  exists offline. split; [exact Hoff|]. apply Hfb. by left.
Defined.

Section fixed.
Context `{E : Engine} {L : RoundingLaws E}.
Local Open Scope Q_scope.

(** The moisture of a sample, in per cent with one digit after the
    point: the digit is always 0. *)
Lemma toFixed_hundredth (m : Z) :
  (18 ≤ m ≤ 26)%Z →
  toFixed 1 (fmul (fdiv (inject_Z m) 100) 100) = lit (pretty m) ++ lit ".0".
Proof.
  intros Hm. unfold toFixed, fdiv, fmul.
  change (inject_Z m / 100) with (inject_Z m * (1 # 100)).
  assert (18 <= inject_Z m <= 26) as Hq.
  { split; [change 18 with (inject_Z 18)|change 26 with (inject_Z 26)];
      rewrite <- Zle_Qle; lia. }
  set (q := fl (inject_Z m * (1 # 100))).
  assert (inject_Z m * (1 # 100) - eps <= q <= inject_Z m * (1 # 100) + eps) as Hq1.
  { apply fl_near. lra. }
  set (x := fl (q * 100)).
  assert (q * 100 - eps <= x <= q * 100 + eps) as Hx.
  { apply fl_near. unfold eps in *. lra. }
  assert (0 < x) as Hpos by (unfold eps in *; lra).
  assert (Qle_bool (inject_Z (10 ^ 21)) (Qabs x) = false) as ->.
  { apply not_true_is_false. intros Hb%Qle_bool_iff.
    rewrite Qabs_pos in Hb by lra.
    change (inject_Z (10 ^ 21)) with 1000000000000000000000 in Hb.
    unfold eps in *. lra. }
  assert (Qltb x 0 = false) as ->.
  { unfold Qltb. apply negb_false_iff, Qle_bool_iff. lra. }
  assert (Qfloor (Qabs x * inject_Z (10 ^ Z.of_nat 1) + (1 # 2)) = (10 * m)%Z) as ->.
  { change (inject_Z (10 ^ Z.of_nat 1)) with 10.
    assert (Qabs x * 10 + (1 # 2) == x * 10 + (1 # 2)) as ->
      by (rewrite Qabs_pos; lra).
    apply Z.le_antisymm.
    - apply Math_round_le. rewrite inject_Z_plus, inject_Z_mult.
      change (inject_Z 1) with 1. change (inject_Z 10) with 10.
      unfold eps in *. lra.
    - apply Math_round_ge. rewrite inject_Z_mult. change (inject_Z 10) with 10.
      unfold eps in *. lra. }
  assert (m = 18 ∨ m = 19 ∨ m = 20 ∨ m = 21 ∨ m = 22 ∨ m = 23 ∨ m = 24
          ∨ m = 25 ∨ m = 26)%Z as Hcases by lia.
  destruct Hcases as [->|[->|[->|[->|[->|[->|[->|[->| ->]]]]]]]]; reflexivity.
Qed.
End fixed.

(** X20. On the list that the soil generator made, the lines of the
    disease report about the soil show the moisture of the last sample as
    a whole percentage from 18 to 26 followed by [.0], then its surface
    temperature, and advise to irrigate more exactly when the percentage
    is below 20. *)
Theorem soilConditions_generated `{E : Engine} (L : RoundingLaws E)
    (w : World) (n : nat) :
  (∀ i, (0 <= random w i < 1)%Q) →
  ∃ (d : SoilData) (m : Z),
    last (generateSoilData w n).1 = Some d
    ∧ (18 ≤ m ≤ 26)%Z
    ∧ moisture d = fdiv (inject_Z m) 100
    ∧ JsonAgent.soilConditions (generateSoilData w n).1
      = utf16 "🌱 **Soil Conditions:**" ++ [10]
        ++ lit "Soil moisture: " ++ (lit (pretty m) ++ lit ".0") ++ lit "%"
        ++ [10]
        ++ lit "Temperature: " ++ Number_toString (t0 d)
        ++ lit "K at surface" ++ [10]
        ++ (if (m <? 20)%Z then lit "Consider increasing irrigation."
            else lit "Soil moisture levels are adequate.").
Proof.
  intros Hr. rewrite generateSoilData_unfold. cbn [fst].
  unfold daySamples. cbn [app].
  destruct (soilSample_onGrid w 29 15 (3 + (30 + n)) Hr)
    as (k & j & m & _ & _ & Hm & _ & _ & Hmoist).
  set (d := soilSample w 29 15 (3 + (30 + n))) in *.
  exists d, m. split; [reflexivity|]. split; [exact Hm|]. split; [exact Hmoist|].
  unfold JsonAgent.soilConditions.
  assert (∀ s1 s2 s3 s4 s5 s6 s7 s8 s9 s10 s11 : SoilData,
            last [s1; s2; s3; s4; s5; s6; s7; s8; s9; s10; s11; d] = Some d)
    as -> by reflexivity.
  rewrite Hmoist, toFixed_hundredth by exact Hm.
  pose proof (moisture_low m Hm) as Hlow.
  unfold ltNum, toNumber in Hlow. cbn [from_option] in Hlow. rewrite Hlow.
  reflexivity.
Qed.

Lemma soilConditions_generated_witness :
  ∃ (d : SoilData) (m : Z),
    last (@generateSoilData binary64Engine offlineWorld 0).1 = Some d
    ∧ (18 ≤ m ≤ 26)%Z
    ∧ moisture d = @fdiv binary64Engine (inject_Z m) 100
    ∧ @JsonAgent.soilConditions binary64Engine
        (@generateSoilData binary64Engine offlineWorld 0).1
      = utf16 "🌱 **Soil Conditions:**" ++ [10]
        ++ lit "Soil moisture: " ++ (lit (pretty m) ++ lit ".0") ++ lit "%"
        ++ [10]
        ++ lit "Temperature: " ++ @Number_toString binary64Engine (t0 d)
        ++ lit "K at surface" ++ [10]
        ++ (if (m <? 20)%Z then lit "Consider increasing irrigation."
            else lit "Soil moisture levels are adequate.").
Proof.
  apply (@soilConditions_generated binary64Engine binary64_rounding
           offlineWorld 0).
  intros i. simpl. split; [discriminate|reflexivity].
Defined.

(** A call for the disease report and one for an allocation succeed; a
    call for an allocation whose request has no text fails, and so does a
    call without input. *)
Lemma jsonAgent_execute_outcome_witness :
  let run inputs :=
    (@JsonAgent.execute exactEngine lahoreConfig VUndef offlineWorld inputs
       freshState).1 in
  (JsonAgent.success (run diseaseInput) = true
   ∧ is_Some (JsonAgent.disease (run diseaseInput))
   ∧ JsonAgent.allocation (run diseaseInput) = None
   ∧ JsonAgent.weather (run diseaseInput) = Some fallbackWeather)
  ∧ (JsonAgent.success (run (allocationInput (VStr waterQuery))) = true
     ∧ is_Some (JsonAgent.allocation (run (allocationInput (VStr waterQuery)))))
  ∧ JsonAgent.success
      (run (allocationInput (VObj [(lit "toString", VNull)]))) = false
  ∧ JsonAgent.success (run VNull) = false.
Proof.
  intros run.
  pose proof (@jsonAgent_execute_outcome exactEngine lahoreConfig VUndef
                offlineWorld diseaseInput freshState) as (Hd1 & _ & Hd2).
  pose proof (@jsonAgent_execute_outcome exactEngine lahoreConfig VUndef
                offlineWorld (allocationInput (VStr waterQuery)) freshState)
    as (Ha1 & _ & Ha2).
  cbv zeta in *.
  assert (JsonAgent.success (run diseaseInput) = true) as Hsd.
  { apply not_false_iff_true. intros Hf. apply Hd1 in Hf as [Hn|[Ha _]]; done. }
  assert (JsonAgent.success (run (allocationInput (VStr waterQuery))) = true) as Hsa.
  { apply not_false_iff_true. intros Hf. apply Ha1 in Hf as [Hn|[_ [e He]]]; done. }
  split.
  { destruct (Hd2 Hsd) as (_ & _ & _ & Hdis & Hal).
    split; [done|]. split; [by apply Hdis|]. split; [|by vm_compute].
    destruct (JsonAgent.allocation (run diseaseInput)) eqn:Hx; [|done].
    assert (is_Some (Some l)) as Hs by (by eexists). rewrite <- Hx in Hs.
    by apply Hal in Hs. }
  split.
  { destruct (Ha2 Hsa) as (_ & _ & _ & _ & Hal). split; [done|]. by apply Hal. }
  split; by vm_compute.
Defined.

Lemma jsonAgent_weather_witness :
  requested (@JsonAgent.execute exactEngine (VObj []) VUndef offlineWorld
               diseaseInput freshState).2 = O
  ∧ JsonAgent.weather
      (@JsonAgent.execute exactEngine (VObj []) VUndef offlineWorld
         diseaseInput freshState).1 = Some fallbackWeather.
Proof.
  destruct (@jsonAgent_weather exactEngine (VObj []) VUndef offlineWorld
              diseaseInput freshState) as [Hmissing _].
  destruct Hmissing as [Hreq Hw]; [reflexivity|].
  split; [exact Hreq|]. apply Hw. by vm_compute.
Defined.

(** ** A whole call, offline *)


Section offline.
Context `{Engine}.











End offline.


Section offline_handlers.
Context `{E : Engine} {L : RoundingLaws E}.

Lemma soilList_last w n :
  ∃ front, (generateSoilData w n).1 = front ++ [soilSample w 29 15 (3 + (30 + n))]
           ∧ length front = 11%nat.
Proof.
  rewrite generateSoilData_unfold. cbn [fst]. unfold daySamples. cbn [app].
  by eexists [_; _; _; _; _; _; _; _; _; _; _].
Qed.


End offline_handlers.


Section offline_rounds.
Context `{E : Engine} {L : RoundingLaws E}.






End offline_rounds.


